(** * Lovelace card host ([hui-card]) and tile card ([hui-tile-card])

    A shallow embedding of the two custom elements and the properties
    their specification states about them.

    - [HuiCard] is the generic host: it owns one child card element,
      decides between rebuilding and updating it, pushes state into it
      and gates its visibility.
    - [HuiTileCard] is a concrete card: configuration defaults, size
      hints, state colour and the rendered template.

    JavaScript objects that are used as dictionaries are finite maps
    ([gmap string JsVal]); object spread is the left-biased union with
    the later operand on the left.  Where the code reads a member of
    an object it did not build (the states of the live state), the
    members the object inherits are modelled beside its own.  Mutable element state is threaded
    explicitly; a method that may throw returns the state reached
    together with the thrown message, because a JavaScript exception
    does not roll the object back. *)

From Stdlib Require Import ZArith Ascii String List Bool Lia Floats.
From stdpp Require Import base gmap strings list fin_maps.

Set Warnings "-register-all,-inexact-float,-clear-no-such-hyp".

Local Open Scope string_scope.
Local Open Scope Z_scope.

(** ** JavaScript values *)

Inductive JsVal : Type :=
| JUndefined
| JNull
| JBool (b : bool)
| JNum (n : Z)
| JStr (s : string)
| JArr (items : list JsVal)
| JObj (fields : list (string * JsVal)).

(** [!!v] of JavaScript. *)
Definition truthy (v : JsVal) : bool :=
  match v with
  | JUndefined | JNull => false
  | JBool b => b
  | JNum n => negb (n =? 0)
  | JStr s => negb (String.eqb s "")
  | JArr _ | JObj _ => true
  end.

(** Truthiness of an optional string ([undefined] and [""] are falsy). *)
Definition truthy_str (o : option string) : bool :=
  match o with
  | Some s => negb (String.eqb s "")
  | None => false
  end.

(** Object identity.  Objects handed to an element from outside and
    objects allocated by the element itself never coincide. *)
Inductive ObjRef : Type :=
| UserObj (n : nat)
| HostObj (n : nat).

Definition ObjRef_eqb (a b : ObjRef) : bool :=
  match a, b with
  | UserObj n, UserObj m => Nat.eqb n m
  | HostObj n, HostObj m => Nat.eqb n m
  | _, _ => false
  end.

(** The members every ordinary object inherits from
    [Object.prototype]; a member read [obj[name]] finds them when the
    object has no own member of that name.  All of them are functions
    or objects, hence truthy. *)
Definition Object_prototype : gset string :=
  {[ "constructor"; "__proto__"; "hasOwnProperty"; "isPrototypeOf";
     "propertyIsEnumerable"; "toLocaleString"; "toString"; "valueOf";
     "__defineGetter__"; "__defineSetter__";
     "__lookupGetter__"; "__lookupSetter__" ]}.

(** ** The card host: [hui-card] *)

Module HuiCard.

(** One entry of a [visibility] list.  Only the discriminant and the
    media query are read by the host; the rest of the condition is
    passed on unread. *)
Record Condition : Type := {
  condition : string;
  media_query : option string;
  condition_rest : JsVal
}.

(** [LovelaceCardConfig]: [type] plus optional [visibility] and
    [layout_options]; [cfg_ref] is the identity of the object, which is
    what [!==] compares. *)
Record LovelaceCardConfig : Type := {
  cfg_ref : ObjRef;
  type : string;
  visibility : option (list Condition);
  layout_options : option (gmap string JsVal);
  cfg_fields : gmap string JsVal
}.

(** Modelled from the spec: [createErrorCardConfig] lives in
    create-element-base, which is not among the sources.  The spec says
    the error-display instance carries the failure message; the
    configuration is a fresh object of type "error" holding the
    message and the original configuration. *)
Definition createErrorCardConfig (ref : nat) (error : string) (origConfig : JsVal)
  : LovelaceCardConfig :=
  {| cfg_ref := HostObj ref;
     type := "error";
     visibility := None;
     layout_options := None;
     cfg_fields := {[ "error" := JStr error; "origConfig" := origConfig ]} |}.

(** The message an error-card configuration carries. *)
Definition error_message (c : LovelaceCardConfig) : option JsVal :=
  if String.eqb (type c) "error" then cfg_fields c !! "error" else None.

(** A media-query subscription created by [_listenMediaQueries].
    [l_hasOnlyMediaQuery] is the value the callback closed over and
    [l_conditions] the condition list the listener was attached for. *)
Record MediaQueriesListener : Type := {
  l_id : nat;
  l_media_query : string;
  l_hasOnlyMediaQuery : bool;
  l_conditions : list Condition
}.

(** Events the host dispatches on itself. *)
Inductive HostEvent : Type :=
| CardVisibilityChanged (value : bool)
| CardUpdated.

(** [number | Promise<number>] *)
Inductive CardSize : Type :=
| SizeNow (n : Z)
| SizeLater (n : Z).

(** The capability set of a child card and the collaborators of the
    host ([LovelaceCard], create-card-element, validate-condition,
    compute-card-size), none of which is part of the sources.  A setter
    or method that may throw returns the card state it leaves behind
    and the message of the error, if any. *)
Class HostEnv (Hass Card : Type) : Type := {
  createCardElement : LovelaceCardConfig -> Card;
  card_setConfig : LovelaceCardConfig -> Card -> Card * option string;
  card_set_hass : Hass -> Card -> Card * option string;
  card_set_preview : bool -> Card -> Card * option string;
  card_set_editMode : bool -> Card -> Card * option string;
  card_set_layout : option string -> Card -> Card;
  card_set_isPanel : bool -> Card -> Card;
  card_hidden : Card -> bool;
  card_getLayoutOptions : Card -> option (gmap string JsVal);
  computeCardSize : Card -> CardSize;
  checkConditionsMet : list Condition -> Hass -> bool;
  (** the media queries [attachConditionMediaQueriesListeners] puts a
      listener on *)
  conditionMediaQueries : list Condition -> list string
}.

Section Host.

Context {Hass Card : Type} `{HostEnv Hass Card}.

(** The child element: its identity and the state of the card. *)
Record Element : Type := {
  el_id : nat;
  el_card : Card
}.

(** What the host does to the outside, in order. *)
Inductive Effect : Type :=
| ECreate (id : nat) (cfg : LovelaceCardConfig)
| ESetConfig (id : nat) (cfg : LovelaceCardConfig)
| ESetHass (id : nat) (h : Hass)
| ESetPreview (id : nat) (b : bool)
| ESetEditMode (id : nat) (b : bool)
| EListen (id : nat) (ev : string)
| EFire (ev : HostEvent)
| EAppendChild (id : nat)
| ERemoveChild (id : nat)
| ESubscribe (l : MediaQueriesListener)
| EUnsubscribe (lid : nat).

(** The host element.  [children] are the ids of the elements in the
    host's render tree (the host renders into itself);
    [subscriptions] are the media-query listeners currently registered
    with the window; [next_id] allocates identities. *)
Record State : Type := {
  preview : bool;
  isPanel : bool;
  config : option LovelaceCardConfig;
  hass : option Hass;
  layout : option string;
  _elementConfig : option LovelaceCardConfig;
  _element : option Element;
  _listeners : list MediaQueriesListener;
  hidden : bool;
  display : string;
  children : list nat;
  subscriptions : gset nat;
  next_id : nat;
  trace : list Effect
}.

Definition set_elementConfig (c : option LovelaceCardConfig) (st : State) : State :=
  {| preview := preview st; isPanel := isPanel st; config := config st;
     hass := hass st; layout := layout st; _elementConfig := c;
     _element := _element st; _listeners := _listeners st;
     hidden := hidden st; display := display st; children := children st;
     subscriptions := subscriptions st; next_id := next_id st;
     trace := trace st |}.

Definition set_element (e : option Element) (st : State) : State :=
  {| preview := preview st; isPanel := isPanel st; config := config st;
     hass := hass st; layout := layout st; _elementConfig := _elementConfig st;
     _element := e; _listeners := _listeners st;
     hidden := hidden st; display := display st; children := children st;
     subscriptions := subscriptions st; next_id := next_id st;
     trace := trace st |}.

Definition set_listeners (ls : list MediaQueriesListener) (st : State) : State :=
  {| preview := preview st; isPanel := isPanel st; config := config st;
     hass := hass st; layout := layout st; _elementConfig := _elementConfig st;
     _element := _element st; _listeners := ls;
     hidden := hidden st; display := display st; children := children st;
     subscriptions := subscriptions st; next_id := next_id st;
     trace := trace st |}.

Definition set_hidden (h : bool) (d : string) (st : State) : State :=
  {| preview := preview st; isPanel := isPanel st; config := config st;
     hass := hass st; layout := layout st; _elementConfig := _elementConfig st;
     _element := _element st; _listeners := _listeners st;
     hidden := h; display := d; children := children st;
     subscriptions := subscriptions st; next_id := next_id st;
     trace := trace st |}.

Definition set_children (cs : list nat) (st : State) : State :=
  {| preview := preview st; isPanel := isPanel st; config := config st;
     hass := hass st; layout := layout st; _elementConfig := _elementConfig st;
     _element := _element st; _listeners := _listeners st;
     hidden := hidden st; display := display st; children := cs;
     subscriptions := subscriptions st; next_id := next_id st;
     trace := trace st |}.

Definition set_subscriptions (s : gset nat) (st : State) : State :=
  {| preview := preview st; isPanel := isPanel st; config := config st;
     hass := hass st; layout := layout st; _elementConfig := _elementConfig st;
     _element := _element st; _listeners := _listeners st;
     hidden := hidden st; display := display st; children := children st;
     subscriptions := s; next_id := next_id st;
     trace := trace st |}.

Definition set_next_id (n : nat) (st : State) : State :=
  {| preview := preview st; isPanel := isPanel st; config := config st;
     hass := hass st; layout := layout st; _elementConfig := _elementConfig st;
     _element := _element st; _listeners := _listeners st;
     hidden := hidden st; display := display st; children := children st;
     subscriptions := subscriptions st; next_id := n;
     trace := trace st |}.

(** Assigning the reactive property [config]. *)
Definition set_config (c : option LovelaceCardConfig) (st : State) : State :=
  {| preview := preview st; isPanel := isPanel st; config := c;
     hass := hass st; layout := layout st; _elementConfig := _elementConfig st;
     _element := _element st; _listeners := _listeners st;
     hidden := hidden st; display := display st; children := children st;
     subscriptions := subscriptions st; next_id := next_id st;
     trace := trace st |}.

(** Assigning the reactive property [hass]. *)
Definition set_hass (h : option Hass) (st : State) : State :=
  {| preview := preview st; isPanel := isPanel st; config := config st;
     hass := h; layout := layout st; _elementConfig := _elementConfig st;
     _element := _element st; _listeners := _listeners st;
     hidden := hidden st; display := display st; children := children st;
     subscriptions := subscriptions st; next_id := next_id st;
     trace := trace st |}.

(** Assigning the reactive properties [preview], [isPanel], [layout]. *)
Definition set_flags (pv panel : bool) (l : option string) (st : State) : State :=
  {| preview := pv; isPanel := panel; config := config st;
     hass := hass st; layout := l; _elementConfig := _elementConfig st;
     _element := _element st; _listeners := _listeners st;
     hidden := hidden st; display := display st; children := children st;
     subscriptions := subscriptions st; next_id := next_id st;
     trace := trace st |}.

Definition emit (e : Effect) (st : State) : State :=
  {| preview := preview st; isPanel := isPanel st; config := config st;
     hass := hass st; layout := layout st; _elementConfig := _elementConfig st;
     _element := _element st; _listeners := _listeners st;
     hidden := hidden st; display := display st; children := children st;
     subscriptions := subscriptions st; next_id := next_id st;
     trace := trace st ++ [e] |}.

(** *** Commands: state passing with exceptions *)

(** A host method: the state it leaves and the message of the error it
    threw, if it threw. *)
Definition Cmd : Type := State -> State * option string.

Definition done : Cmd := fun st => (st, None).
Definition throw (msg : string) : Cmd := fun st => (st, Some msg).
Definition lift (f : State -> State) : Cmd := fun st => (f st, None).

Definition seq (c1 c2 : Cmd) : Cmd := fun st =>
  match c1 st with
  | (st1, None) => c2 st1
  | (st1, Some e) => (st1, Some e)
  end.

(** [try { body } catch (e) { handler(e.message) }] *)
Definition try_catch (body : Cmd) (handler : string -> Cmd) : Cmd := fun st =>
  match body st with
  | (st1, None) => (st1, None)
  | (st1, Some e) => handler e st1
  end.

Definition when (b : bool) (c : Cmd) : Cmd := if b then c else done.

Declare Scope cmd_scope.
Delimit Scope cmd_scope with cmd.
Notation "c1 ;; c2" := (seq c1 c2)
  (at level 100, c2 at level 200, right associativity) : cmd_scope.
Local Open Scope cmd_scope.

(** Apply a setter or method of the child to [this._element]. *)
Definition on_element (log : nat -> Effect)
  (f : Card -> Card * option string) : Cmd := fun st =>
  match _element st with
  | Some el =>
      let '(card', r) := f (el_card el) in
      (set_element (Some {| el_id := el_id el; el_card := card' |})
         (emit (log (el_id el)) st), r)
  | None => (st, Some "TypeError: this._element is undefined")
  end.

(** A plain property assignment on the child. *)
Definition assign_element (f : Card -> Card) : Cmd := fun st =>
  match _element st with
  | Some el =>
      (set_element (Some {| el_id := el_id el; el_card := f (el_card el) |}) st,
       None)
  | None => (st, Some "TypeError: this._element is undefined")
  end.

(** *** The render tree of the host *)

(** [element.parentElement] is truthy.  The child is only ever
    inserted by its own host, so it has a parent exactly when it is
    among the host's children. *)
Definition attached (id : nat) (st : State) : bool :=
  bool_decide (id ∈ children st).

Definition appendChild (id : nat) (st : State) : State :=
  emit (EAppendChild id) (set_children (children st ++ [id]) st).

Definition removeChild (id : nat) (st : State) : State :=
  emit (ERemoveChild id) (set_children (filter (fun x => x <> id) (children st)) st).

(** [while (this.lastChild) this.removeChild(this.lastChild)] *)
Definition removeAllChildren (st : State) : State :=
  set_children []
    (fold_left (fun s c => emit (ERemoveChild c) s) (rev (children st)) st).

(** *** Visibility *)

Definition _setElementVisibility (visible : bool) : Cmd := fun st =>
  match _element st with
  | None => (st, None)
  | Some el =>
      let st1 :=
        if negb (Bool.eqb (hidden st) (negb visible)) then
          emit (EFire (CardVisibilityChanged visible))
            (set_hidden (negb visible) (if visible then "" else "none") st)
        else st in
      if negb visible && attached (el_id el) st1 then
        (removeChild (el_id el) st1, None)
      else if visible && negb (attached (el_id el) st1) then
        (appendChild (el_id el) st1, None)
      else (st1, None)
  end.

(** [!this.config?.visibility || checkConditionsMet(this.config.visibility, this.hass)] *)
Definition conditionsAllow (st : State) (h : Hass) : bool :=
  match config st with
  | Some c =>
      match visibility c with
      | Some conditions => checkConditionsMet conditions h
      | None => true
      end
  | None => true
  end.

Definition _updateVisibility (forceVisible : option bool) : Cmd := fun st =>
  match _element st, hass st with
  | Some el, Some h =>
      if card_hidden (el_card el) then _setElementVisibility false st
      else
        let visible :=
          match forceVisible with Some true => true | _ => false end
          || preview st
          || conditionsAllow st h in
        _setElementVisibility visible st
  | _, _ => (st, None)
  end.

(** *** Building and updating the child *)

Definition _updateElement (cfg : LovelaceCardConfig) : Cmd := fun st =>
  match _element st with
  | None => (st, None)
  | Some _ =>
      (on_element (fun id => ESetConfig id cfg) (card_setConfig cfg) ;;
       lift (set_elementConfig (Some cfg)) ;;
       lift (emit (EFire CardUpdated))) st
  end.

(** [if (this.hass) { this._element.hass = this.hass; }] *)
Definition pushHass : Cmd := fun st =>
  match hass st with
  | Some h => on_element (fun id => ESetHass id h) (card_set_hass h) st
  | None => (st, None)
  end.

(** [this._element.preview = this.preview;
     (this._element as any).editMode = this.preview;] *)
Definition pushPreview : Cmd :=
  (fun st => on_element (fun id => ESetPreview id (preview st))
               (card_set_preview (preview st)) st) ;;
  (fun st => on_element (fun id => ESetEditMode id (preview st))
               (card_set_editMode (preview st)) st).

Definition _loadElement (cfg : LovelaceCardConfig) : Cmd :=
  (fun st =>
     let id := next_id st in
     (emit (ECreate id cfg)
        (set_next_id (S id)
           (set_element (Some {| el_id := id; el_card := createCardElement cfg |}) st)),
      None)) ;;
  lift (set_elementConfig (Some cfg)) ;;
  pushHass ;;
  (fun st => assign_element (card_set_layout (layout st)) st) ;;
  pushPreview ;;
  (fun st =>
     match _element st with
     | Some el =>
         (emit (EListen (el_id el) "ll-rebuild")
            (emit (EListen (el_id el) "ll-upgrade")
               (emit (EListen (el_id el) "card-visibility-changed") st)),
          None)
     | None => (st, None)
     end) ;;
  lift removeAllChildren ;;
  _updateVisibility None.

Definition load : Cmd := fun st =>
  match config st with
  | None => throw "Cannot build card without config" st
  | Some c => _loadElement c st
  end.

(** The listeners [_loadElement] registers on the child. *)
Definition on_card_visibility_changed : Cmd := _updateVisibility None.

Definition on_ll_upgrade : Cmd :=
  pushHass ;; lift (emit (EFire CardUpdated)).

Definition on_ll_rebuild (cfg : LovelaceCardConfig) : Cmd :=
  _loadElement cfg ;; lift (emit (EFire CardUpdated)).

(** *** Size and layout *)

Definition getCardSize (st : State) : CardSize :=
  match _element st with
  | Some el => computeCardSize (el_card el)
  | None => SizeNow 1
  end.

(** [this.config?.layout_options ?? {}] *)
Definition configOptions (st : State) : gmap string JsVal :=
  match config st with
  | Some c => default ∅ (layout_options c)
  | None => ∅
  end.

Definition getLayoutOptions (st : State) : gmap string JsVal :=
  match _element st with
  | Some el =>
      let cardOptions := default ∅ (card_getLayoutOptions (el_card el)) in
      (* { ...cardOptions, ...configOptions } *)
      configOptions st ∪ cardOptions
  | None => configOptions st
  end.

Definition getElementLayoutOptions (st : State) : gmap string JsVal :=
  match _element st with
  | Some el => default ∅ (card_getLayoutOptions (el_card el))
  | None => ∅
  end.

(** *** The reactive update *)

(** [changedProps.has(...)] for the reactive properties of the host. *)
Record ChangedProps : Type := {
  has_config : bool;
  has_hass : bool;
  has_preview : bool;
  has_isPanel : bool;
  has_layout : bool
}.

(** [this.config !== elementConfig] *)
Definition config_differs (c : LovelaceCardConfig)
  (elementConfig : option LovelaceCardConfig) : bool :=
  match elementConfig with
  | Some ec => negb (ObjRef_eqb (cfg_ref c) (cfg_ref ec))
  | None => true
  end.

(** [this.config?.type !== elementConfig?.type] *)
Definition type_differs (c : LovelaceCardConfig)
  (elementConfig : option LovelaceCardConfig) : bool :=
  match elementConfig with
  | Some ec => negb (String.eqb (type c) (type ec))
  | None => true
  end.

(** [this._loadElement(createErrorCardConfig(e.message, null))] *)
Definition loadErrorCard (message : string) : Cmd := fun st =>
  _loadElement (createErrorCardConfig (next_id st) message JNull)
    (set_next_id (S (next_id st)) st).

Definition update (changedProps : ChangedProps) : Cmd :=
  (fun st =>
     match _element st with
     | None => (st, None)
     | Some _ =>
         (when (has_config changedProps)
            (fun st =>
               let elementConfig := _elementConfig st in
               match config st with
               | Some c =>
                   if config_differs c elementConfig then
                     let typeChanged := type_differs c elementConfig || preview st in
                     if typeChanged || preview st then _loadElement c st
                     else _updateElement c st
                   else (st, None)
               | None => (st, None)
               end) ;;
          when (has_hass changedProps) (try_catch pushHass loadErrorCard) ;;
          when (has_preview changedProps) (try_catch pushPreview loadErrorCard) ;;
          when (has_isPanel changedProps)
            (fun st => assign_element (card_set_isPanel (isPanel st)) st) ;;
          when (has_layout changedProps)
            (fun st => assign_element (card_set_layout (layout st)) st)) st
     end) ;;
  when (has_hass changedProps || has_preview changedProps)
    (_updateVisibility None).

Definition willUpdate (changedProps : ChangedProps) : Cmd := fun st =>
  match _element st with
  | None => load st
  | Some _ => (st, None)
  end.

(** *** Media-query listeners *)

(** Calling the unsubscribe function of a listener. *)
Definition unsubscribe (l : MediaQueriesListener) (st : State) : State :=
  emit (EUnsubscribe (l_id l))
    (set_subscriptions (subscriptions st ∖ {[ l_id l ]}) st).

Definition _clearMediaQueries (st : State) : State :=
  set_listeners [] (fold_left (fun s l => unsubscribe l s) (_listeners st) st).

(** [conditions.length === 1 && conditions[0].condition === "screen"
     && !!conditions[0].media_query] *)
Definition hasOnlyMediaQuery (conditions : list Condition) : bool :=
  match conditions with
  | [c0] => String.eqb (condition c0) "screen" && truthy_str (media_query c0)
  | _ => false
  end.

(** The listeners [attachConditionMediaQueriesListeners] returns: one
    per media query, with fresh identities starting at [id]. *)
Fixpoint newListeners (id : nat) (conditions : list Condition) (only : bool)
  (queries : list string) : list MediaQueriesListener :=
  match queries with
  | [] => []
  | q :: qs =>
      {| l_id := id; l_media_query := q; l_hasOnlyMediaQuery := only;
         l_conditions := conditions |} :: newListeners (S id) conditions only qs
  end.

Definition subscribe (l : MediaQueriesListener) (st : State) : State :=
  emit (ESubscribe l) (set_subscriptions ({[ l_id l ]} ∪ subscriptions st) st).

Definition _listenMediaQueries (st : State) : State :=
  let st := _clearMediaQueries st in
  match config st with
  | Some c =>
      match visibility c with
      | Some conditions =>
          let ls := newListeners (next_id st) conditions
                      (hasOnlyMediaQuery conditions)
                      (conditionMediaQueries conditions) in
          set_listeners ls
            (set_next_id (next_id st + length ls)%nat
               (fold_left (fun s l => subscribe l s) ls st))
      | None => st
      end
  | None => st
  end.

(** The callback a listener runs when its media query starts or stops
    matching. *)
Definition on_media_query (l : MediaQueriesListener) (matches : bool) : Cmd :=
  _updateVisibility (Some (l_hasOnlyMediaQuery l && matches)).

Definition disconnectedCallback : Cmd := lift _clearMediaQueries.

Definition connectedCallback : Cmd :=
  lift _listenMediaQueries ;; _updateVisibility None.

(** *** Observing a run *)

(** The payloads of the [card-visibility-changed] events in a trace. *)
Definition visibility_events (tr : list Effect) : list bool :=
  omap (fun e => match e with
                 | EFire (CardVisibilityChanged v) => Some v
                 | _ => None
                 end) tr.

(** The configurations child elements were created from in a trace. *)
Definition creations (tr : list Effect) : list LovelaceCardConfig :=
  omap (fun e => match e with
                 | ECreate _ cfg => Some cfg
                 | _ => None
                 end) tr.

(** The configurations passed to the child's [setConfig] in a trace. *)
Definition reconfigurations (tr : list Effect) : list LovelaceCardConfig :=
  omap (fun e => match e with
                 | ESetConfig _ cfg => Some cfg
                 | _ => None
                 end) tr.

(** Run commands one after the other, stopping at the first throw. *)
Fixpoint run (cmds : list Cmd) : Cmd :=
  match cmds with
  | [] => done
  | c :: rest => c ;; run rest
  end.

(** The values of a sequence that differ from their predecessor,
    [prev] being the predecessor of the first. *)
Fixpoint changes (prev : bool) (vs : list bool) : list bool :=
  match vs with
  | [] => []
  | v :: rest =>
      if Bool.eqb v prev then changes v rest else v :: changes v rest
  end.

(** The identities of a list of listeners. *)
Definition listener_ids (ls : list MediaQueriesListener) : gset nat :=
  list_to_set (map l_id ls).

(** Every subscription still registered is one the host holds in
    [_listeners], so that clearing them leaves none behind. *)
Definition tracked (st : State) : Prop :=
  subscriptions st ⊆ listener_ids (_listeners st).

(** Every subscription the host holds and that is still registered was
    made for the [visibility] conditions of the configuration the host
    has now. *)
Definition subscriptions_current (st : State) : Prop :=
  forall l, In l (_listeners st) -> l_id l ∈ subscriptions st ->
    exists cfg, config st = Some cfg /\ visibility cfg = Some (l_conditions l).

(** Building an error card does not itself throw: the error card
    accepts whatever state, layout and preview flag it is given. *)
Definition error_card_loads : Prop :=
  forall (ref : nat) (message : string) (st : State),
    snd (_loadElement (createErrorCardConfig ref message JNull) st) = None.

(** The ways the host is entered: assignments to its reactive
    properties, the update cycle, the lifecycle callbacks, the
    listeners it has registered, and the child changing on its own. *)
Inductive entry : Cmd -> Prop :=
| entry_set_config (c : option LovelaceCardConfig) : entry (lift (set_config c))
| entry_set_hass (h : option Hass) : entry (lift (set_hass h))
| entry_set_flags (pv panel : bool) (l : option string) :
    entry (lift (set_flags pv panel l))
| entry_load : entry load
| entry_willUpdate (changedProps : ChangedProps) : entry (willUpdate changedProps)
| entry_update (changedProps : ChangedProps) : entry (update changedProps)
| entry_connectedCallback : entry connectedCallback
| entry_disconnectedCallback : entry disconnectedCallback
| entry_card_visibility_changed : entry on_card_visibility_changed
| entry_ll_upgrade : entry on_ll_upgrade
| entry_ll_rebuild (cfg : LovelaceCardConfig) : entry (on_ll_rebuild cfg)
| entry_media_query (l : MediaQueriesListener) (matches : bool) :
    entry (on_media_query l matches)
| entry_child (f : Card -> Card) : entry (assign_element f).

(** *** Vocabulary for the properties of commands *)

(** Whether the host is hidden and what it has announced so far. *)
Definition shown (st : State) : bool * list bool :=
  (hidden st, visibility_events (trace st)).

(** Not a [card-visibility-changed] event. *)
Definition not_announcement (e : Effect) : Prop :=
  match e with
  | EFire (CardVisibilityChanged _) => False
  | _ => True
  end.

(** The [card-visibility-changed] events [c] fires are the changes of
    the host's visibility it makes: each differs from the visibility
    before it, and the host ends as the last one says. *)
Definition announces (c : Cmd) : Prop :=
  forall st, exists fired,
    visibility_events (trace (fst (c st)))
    = (visibility_events (trace st) ++ fired)%list
    /\ changes (negb (hidden st)) fired = fired
    /\ hidden (fst (c st)) = negb (List.last fired (negb (hidden st))).


(** [c] only appends to the trace, and only effects satisfying [P]. *)
Definition emits (P : Effect -> Prop) (c : Cmd) : Prop :=
  forall st, exists tl, trace (fst (c st)) = (trace st ++ tl)%list /\ Forall P tl.

(** [c] leaves the observation [f] of the host as it was. *)
Definition keeps {A : Type} (f : State -> A) (c : Cmd) : Prop :=
  forall st, f (fst (c st)) = f st.

(** The disjunction [_updateVisibility] evaluates, as a proposition:
    forced, or preview, or no [visibility] in the configuration, or
    the configured conditions hold of the state. *)
Definition visibility_granted (forceVisible : option bool) (st : State)
  (h : Hass) : Prop :=
  forceVisible = Some true
  \/ preview st = true
  \/ (forall cfg, config st = Some cfg -> visibility cfg = None)
  \/ (exists cfg conditions,
        config st = Some cfg /\ visibility cfg = Some conditions
        /\ checkConditionsMet conditions h = true).

(** Effects of a visibility evaluation. *)
Definition is_display (e : Effect) : Prop :=
  match e with
  | EFire (CardVisibilityChanged _) | EAppendChild _ | ERemoveChild _ => True
  | _ => False
  end.

(** Effects of preparing a child that already exists: property
    assignments, listeners, and placing it in the render tree. *)
Definition is_setup (e : Effect) : Prop :=
  match e with
  | ESetHass _ _ | ESetPreview _ _ | ESetEditMode _ _ | EListen _ _ => True
  | _ => is_display e
  end.

(** Effects of the stages of [update] after the configuration stage:
    no [setConfig], and an element is created only from an error-card
    configuration. *)
Definition is_later (e : Effect) : Prop :=
  match e with
  | ESetConfig _ _ => False
  | ECreate _ cfg => error_message cfg <> None
  | _ => True
  end.

(** Which element the host holds and from which configuration. *)
Definition held (st : State) : option nat * option LovelaceCardConfig :=
  (option_map el_id (_element st), _elementConfig st).

(** On a loaded host, [c] returns normally and leaves the host loaded. *)
Definition total (c : Cmd) : Prop :=
  forall st, _element st <> None ->
    snd (c st) = None /\ _element (fst (c st)) <> None.

(** [c] leaves a loaded host loaded. *)
Definition stays (c : Cmd) : Prop :=
  forall st, _element st <> None -> _element (fst (c st)) <> None.

(** A sufficient condition for [_loadElement] to return: the card the
    factory builds for the configuration belongs to a family [J] of
    cards whose setters return and stay in the family. *)
Definition holds_card (J : Card -> Prop) (st : State) : Prop :=
  exists el, _element st = Some el /\ J (el_card el).

Definition sound (I : State -> Prop) (c : Cmd) : Prop :=
  forall st, I st -> snd (c st) = None /\ I (fst (c st)).

(** The listeners [_listenMediaQueries] attaches for the configuration
    the host has. *)
Definition listeners_for (st : State) : list MediaQueriesListener :=
  match config st with
  | Some cfg =>
      match visibility cfg with
      | Some conditions =>
          newListeners (next_id st) conditions (hasOnlyMediaQuery conditions)
            (conditionMediaQueries conditions)
      | None => []
      end
  | None => []
  end.

(** What the host holds and what is registered. *)
Definition listening (st : State) : list MediaQueriesListener * gset nat :=
  (_listeners st, subscriptions st).

(** *** Vocabulary for the invariants of the host *)

(** When [c] returns, it has taken a host satisfying [P] to one
    satisfying [Q]. *)
Definition triple (P : State -> Prop) (c : Cmd) (Q : State -> Prop) : Prop :=
  forall st, P st -> snd (c st) = None -> Q (fst (c st)).

(** What is in the render tree and which element the host holds. *)
Definition placed (st : State) : list nat * option nat :=
  (children st, option_map el_id (_element st)).

(** The render tree holds nothing but the element the host holds. *)
Definition single_child (st : State) : Prop :=
  match children st with
  | [] => True
  | [c] => option_map el_id (_element st) = Some c
  | _ => False
  end.

(** The reactive properties a visibility evaluation reads. *)
Definition inputs (st : State)
  : bool * option Hass * option LovelaceCardConfig :=
  (preview st, hass st, config st).

(** What [_updateVisibility ()] computes for the child [card]. *)
Definition visibleFor (card : Card) (st : State) (h : Hass) : bool :=
  negb (card_hidden card) && (preview st || conditionsAllow st h).

(** [card] is [base] after property assignments by the host (state,
    layout, preview, edit mode, panel) and nothing else: in
    particular after no [setConfig]. *)
Inductive assigned (base : Card) : Card -> Prop :=
| assigned_base : assigned base base
| assigned_hass (h : Hass) (card : Card) :
    assigned base card -> assigned base (fst (card_set_hass h card))
| assigned_layout (l : option string) (card : Card) :
    assigned base card -> assigned base (card_set_layout l card)
| assigned_preview (b : bool) (card : Card) :
    assigned base card -> assigned base (fst (card_set_preview b card))
| assigned_editMode (b : bool) (card : Card) :
    assigned base card -> assigned base (fst (card_set_editMode b card))
| assigned_isPanel (b : bool) (card : Card) :
    assigned base card -> assigned base (card_set_isPanel b card).

(** The host holds the element of identity [id], which is [base]
    after property assignments. *)
Definition holds_from (id : nat) (base : Card) (st : State) : Prop :=
  exists card,
    _element st = Some {| el_id := id; el_card := card |} /\ assigned base card.

(** The host holds an element created from an error-card
    configuration. *)
Definition holds_error_card (st : State) : Prop :=
  exists (id : nat) (cfg : LovelaceCardConfig),
    error_message cfg <> None /\ holds_from id (createCardElement cfg) st.

(** Identities are handed out in increasing order.  The render tree
    holds nothing but the element the host holds, and that element was
    created when the counter stood at [n0] or later. *)
Definition created_since (n0 : nat) (st : State) : Prop :=
  single_child st
  /\ (n0 <= next_id st)%nat
  /\ (forall el, _element st = Some el -> (n0 <= el_id el)%nat).

(** [c] keeps [P] true, whether it returns or throws. *)
Definition preserves (P : State -> Prop) (c : Cmd) : Prop :=
  forall st, P st -> P (fst (c st)).

(** A host as the constructor leaves it. *)
Definition initial : State :=
  {| preview := false; isPanel := false; config := None; hass := None;
     layout := None; _elementConfig := None; _element := None;
     _listeners := []; hidden := false; display := ""; children := [];
     subscriptions := ∅; next_id := 0%nat; trace := [] |}.

End Host.
End HuiCard.

(** ** The tile card: [hui-tile-card] *)

Module HuiTileCard.

(** [HassEntity]; of the attributes, those the card reads. *)
Record HassEntityAttributes : Type := {
  friendly_name : option string;
  entity_picture_local : option string;
  entity_picture : option string;
  rgb_color : option (float * float * float)
}.

Record HassEntity : Type := {
  entity_id : string;
  state : string;
  attributes : HassEntityAttributes
}.

(** [HomeAssistant]; of the live state, what the card reads.
    [states] holds the entries of the states object itself.
    [states_inherited] holds the names under which the object has a
    truthy member it inherits instead: [Object_prototype] for an
    ordinary object, none for an object without prototype.  The
    sources do not show how the object is built. *)
Record HomeAssistant : Type := {
  states : gmap string HassEntity;
  states_inherited : gset string;
  localize : string -> string;
  hassUrl : string -> string
}.

(** What the member read [hass.states[entityId]] yields when it is
    truthy: an entity of the snapshot, or an inherited member, which
    is not an entity and has no [attributes]. *)
Inductive StateMember : Type :=
| OwnState (stateObj : HassEntity)
| InheritedMember (name : string).

(** [hass.states[entityId]]: an own entry shadows an inherited member. *)
Definition states_read (h : HomeAssistant) (entityId : string)
  : option StateMember :=
  match states h !! entityId with
  | Some stateObj => Some (OwnState stateObj)
  | None =>
      if bool_decide (entityId ∈ states_inherited h)
      then Some (InheritedMember entityId) else None
  end.

(** *** Rendered templates *)

Inductive Handler : Type :=
| HandleAction
| HandleIconAction.

(** The value of a property binding [.name=${value}]. *)
Inductive PropVal (T : Type) : Type :=
| PJs (v : JsVal)
| PStr (s : string)
| PBool (b : bool)
| PEntity (e : HassEntity)
| PHass (h : HomeAssistant)
| PTemplate (t : T)
| PActionHandler (hasHold hasDoubleClick : option bool).

Arguments PJs {T} v.
Arguments PStr {T} s.
Arguments PBool {T} b.
Arguments PEntity {T} e.
Arguments PHass {T} h.
Arguments PTemplate {T} t.
Arguments PActionHandler {T} hasHold hasDoubleClick.

(** One binding on an element: an attribute that is present, a
    property, or an event listener [@event=${handler}]. *)
Inductive Attr (T : Type) : Type :=
| Attribute (name value : string)
| Property (name : string) (value : PropVal T)
| EventListener (event : string) (handler : Handler).

Arguments Attribute {T} name value.
Arguments Property {T} name value.
Arguments EventListener {T} event handler.

(** What [render] returns: [nothing] or an [html] template. *)
Inductive Html : Type :=
| Nothing
| Element (tag : string) (attrs : list (Attr Html)) (content : list Html).

(** The outcome of [render]: a template, or an exception. *)
Inductive Rendered : Type :=
| Template (template : Html)
| Throws (message : string).

(** [name=${ifDefined(value)}]: the attribute is set only when the
    value is defined. *)
Definition ifDefined (name : string) (value : option string) : list (Attr Html) :=
  match value with
  | Some v => [Attribute name v]
  | None => []
  end.

(** [classMap]: the names whose flag is set, separated by spaces. *)
Definition classMap (classes : list (string * bool)) : string :=
  String.concat " " (map fst (List.filter snd classes)).

(** [styleMap] for the single custom property the card sets. *)
Definition styleMap (props : list (string * option string)) : string :=
  String.concat ""
    (map (fun p => match snd p with
                   | Some v => fst p ++ ":" ++ v ++ ";"
                   | None => ""
                   end) props).

(** The collaborators of the card (colour, domain and action helpers,
    icon paths), none of which is part of the sources. *)
Class TileEnv : Type := {
  computeDomain : string -> string;
  DOMAINS_TOGGLE : gset string;
  stateActive : HassEntity -> bool;
  computeCssColor : string -> string;
  rgb2hsv : float * float * float -> float * float * float;
  hsv2rgb : float * float * float -> float * float * float;
  rgb2hex : float * float * float -> string;
  stateColorCss : HassEntity -> option string;
  hasAction : JsVal -> bool;
  cameraUrlWithWidthHeight : string -> Z -> Z -> string;
  renderTileBadge : HassEntity -> HomeAssistant -> Html;
  mdiHelp : string;
  mdiExclamationThick : string;
  (* What [render] comes to when [hass.states[entityId]] is an
     inherited member and a configured name spares it the read of
     [attributes.friendly_name]: from there on [stateActive] and
     [computeDomain] are applied to a value that is not an entity.
     They throw, or [render] returns its [ha-card] template with the
     bindings and content they lead to. *)
  renderInheritedMember :
    string -> gmap string JsVal -> HomeAssistant
    -> list (Attr Html) * list Html + string
}.

Section Tile.

Context `{TileEnv}.

Definition getEntityDefaultTileIconAction (entityId : string) : string :=
  let domain := computeDomain entityId in
  let supportsIconAction :=
    bool_decide (domain ∈ DOMAINS_TOGGLE)
    || existsb (String.eqb domain) ["button"; "input_button"; "scene"] in
  if supportsIconAction then "toggle" else "more-info".

Definition DOMAIN_IMAGE_STYLE : gmap string string :=
  {[ "update" := "square"; "media_player" := "rounded-square" ]}.

(** The card: its two reactive fields. *)
Record State : Type := {
  hass : option HomeAssistant;
  _config : option (gmap string JsVal)
}.

(** [config.key]: [undefined] when the key is absent. *)
Definition field (config : gmap string JsVal) (key : string) : JsVal :=
  default JUndefined (config !! key).

(** A field the [TileCardConfig] interface declares as [string]; a
    value of another type is not part of the interface. *)
Definition str_field (config : gmap string JsVal) (key : string) : option string :=
  match config !! key with
  | Some (JStr s) => Some s
  | _ => None
  end.

(** [{ action: a }] *)
Definition actionConfig (a : string) : JsVal := JObj [("action", JStr a)].

Definition defaults (entityId : string) : gmap string JsVal :=
  {[ "tap_action" := actionConfig "more-info";
     "icon_tap_action" := actionConfig (getEntityDefaultTileIconAction entityId) ]}.

Definition setConfig (config : gmap string JsVal) (st : State)
  : State * option string :=
  match str_field config "entity" with
  | Some entityId =>
      if String.eqb entityId "" then (st, Some "Specify an entity")
      else
        (* { tap_action: ..., icon_tap_action: ..., ...config } *)
        ({| hass := hass st; _config := Some (config ∪ defaults entityId) |}, None)
  | None => (st, Some "Specify an entity")
  end.

(** [this._config?.features?.length] *)
Definition features_length (st : State) : option Z :=
  match _config st with
  | Some c =>
      match c !! "features" with
      | Some (JArr items) => Some (Z.of_nat (length items))
      | _ => None
      end
  | None => None
  end.

(** [this._config?.vertical], as a condition *)
Definition vertical (st : State) : bool :=
  match _config st with
  | Some c => truthy (field c "vertical")
  | None => false
  end.

Definition getCardSize (st : State) : Z :=
  1 + (if vertical st then 1 else 0) + default 0 (features_length st).

Definition getLayoutOptions (st : State) : gmap string JsVal :=
  let grid_columns := 2 in
  let grid_min_columns := 2 in
  let grid_rows := 1 in
  let grid_rows :=
    match features_length st with
    | Some n => if n =? 0 then grid_rows else grid_rows + n
    | None => grid_rows
    end in
  let '(grid_rows, grid_min_columns) :=
    if vertical st then (grid_rows + 1, 1) else (grid_rows, grid_min_columns) in
  {[ "grid_columns" := JNum grid_columns;
     "grid_rows" := JNum grid_rows;
     "grid_min_rows" := JNum grid_rows;
     "grid_min_columns" := JNum grid_min_columns ]}.

Definition _getImageUrl (h : HomeAssistant) (entity : HassEntity) : option string :=
  let entityPicture :=
    if truthy_str (entity_picture_local (attributes entity))
    then entity_picture_local (attributes entity)
    else entity_picture (attributes entity) in
  match entityPicture with
  | Some picture =>
      if String.eqb picture "" then None
      else
        let imageUrl := hassUrl h picture in
        if String.eqb (computeDomain (entity_id entity)) "camera"
        then Some (cameraUrlWithWidthHeight imageUrl 80 80)
        else Some imageUrl
  | None => None
  end.

(** The function under [memoizeOne]; memoising a pure function does
    not change what it returns. *)
Definition _computeStateColor (entity : HassEntity) (color : option string)
  : option string :=
  if truthy_str color then
    (* Use custom color if active *)
    if stateActive entity then option_map computeCssColor color else None
  else if String.eqb (computeDomain (entity_id entity)) "person"
          || String.eqb (computeDomain (entity_id entity)) "device_tracker" then
    None
  else
    match String.eqb (computeDomain (entity_id entity)) "light",
          rgb_color (attributes entity) with
    | true, Some rgb =>
        let '(hue, sat, val) := rgb2hsv rgb in
        let hsvColor :=
          if PrimFloat.ltb sat 0.4%float then
            if PrimFloat.ltb sat 0.1%float then (hue, sat, 225%float)
            else (hue, 0.4%float, val)
          else (hue, sat, val) in
        Some (rgb2hex (hsv2rgb hsvColor))
    | _, _ => stateColorCss entity
    end.

Definition hasCardAction (st : State) : bool :=
  match _config st with
  | Some c =>
      negb (truthy (field c "tap_action"))
      || hasAction (field c "tap_action")
      || hasAction (field c "hold_action")
      || hasAction (field c "double_tap_action")
  | None =>
      true
  end.

Definition hasIconAction (st : State) : bool :=
  match _config st with
  | Some c =>
      negb (truthy (field c "icon_tap_action"))
      || hasAction (field c "icon_tap_action")
  | None => true
  end.

Definition render (st : State) : Rendered :=
  match _config st, hass st with
  | Some config, Some h =>
      let entityId := str_field config "entity" in
      let stateObj :=
        match entityId with
        | Some id => if String.eqb id "" then None else states_read h id
        | None => None
        end in
      let contentClasses := [("vertical", truthy (field config "vertical"))] in
      match stateObj with
      | None =>
          Template (Element "ha-card" []
            [Element "div"
               [Attribute "class" ("content " ++ classMap contentClasses)]
               [Element "div" [Attribute "class" "icon-container"]
                  [Element "ha-tile-icon" []
                     [Element "ha-svg-icon" [Property "path" (PStr mdiHelp)] []];
                   Element "ha-tile-badge" [Attribute "class" "not-found"]
                     [Element "ha-svg-icon"
                        [Property "path" (PStr mdiExclamationThick)] []]];
                Element "ha-tile-info"
                  [Property "primary" (PJs (field config "entity"));
                   Attribute "secondary" (localize h "ui.card.tile.not_found")]
                  []]])
      | Some (InheritedMember member) =>
          (* this._config.name || stateObj.attributes.friendly_name *)
          if truthy (field config "name") then
            match renderInheritedMember member config h with
            | inl (attrs, content) => Template (Element "ha-card" attrs content)
            | inr message => Throws message
            end
          else Throws "TypeError: stateObj.attributes is undefined"
      | Some (OwnState stateObj) =>
          let name :=
            if truthy (field config "name") then field config "name"
            else match friendly_name (attributes stateObj) with
                 | Some n => JStr n
                 | None => JUndefined
                 end in
          let active := stateActive stateObj in
          let color := _computeStateColor stateObj (str_field config "color") in
          let domain := computeDomain (entity_id stateObj) in
          let localizedState :=
            if truthy (field config "hide_state") then Nothing
            else
              Element "state-display"
                [Property "stateObj" (PEntity stateObj);
                 Property "hass" (PHass h);
                 Property "content" (PJs (field config "state_content"))]
                [] in
          let style := [("--tile-color", color)] in
          let imageUrl :=
            if truthy (field config "show_entity_picture")
            then _getImageUrl h stateObj else None in
          Template (Element "ha-card"
            [Attribute "style" (styleMap style);
             Attribute "class" (classMap [("active", active)])]
            [Element "div"
               ([Attribute "class" "background";
                 EventListener "action" HandleAction;
                 Property "actionHandler"
                   (PActionHandler
                      (Some (hasAction (field config "hold_action")))
                      (Some (hasAction (field config "double_tap_action"))))]
                ++ ifDefined "role" (if hasCardAction st then Some "button" else None)
                ++ ifDefined "tabindex" (if hasCardAction st then Some "0" else None)
                ++ [Attribute "aria-labelledby" "info"])
               [Element "ha-ripple"
                  [Property "disabled" (PBool (negb (hasCardAction st)))] []];
             Element "div" [Attribute "class" "container"]
               [Element "div"
                  [Attribute "class" ("content " ++ classMap contentClasses)]
                  [Element "div"
                     ([Attribute "class" "icon-container"]
                      ++ ifDefined "role"
                           (if hasIconAction st then Some "button" else None)
                      ++ ifDefined "tabindex"
                           (if hasIconAction st then Some "0" else None)
                      ++ [EventListener "action" HandleIconAction;
                          Property "actionHandler" (PActionHandler None None)])
                     [(if truthy_str imageUrl then
                         Element "ha-tile-image"
                           [Property "imageStyle"
                              (PStr (default "circle" (DOMAIN_IMAGE_STYLE !! domain)));
                            Property "imageUrl" (PStr (default "" imageUrl))]
                           []
                       else
                         Element "ha-tile-icon"
                           (ifDefined "data-domain" (Some domain)
                            ++ ifDefined "data-state" (Some (state stateObj)))
                           [Element "ha-state-icon"
                              [Property "icon" (PJs (field config "icon"));
                               Property "stateObj" (PEntity stateObj);
                               Property "hass" (PHass h)]
                              []]);
                      renderTileBadge stateObj h];
                   Element "ha-tile-info"
                     [Attribute "id" "info";
                      Property "primary" (PJs name);
                      Property "secondary" (PTemplate localizedState)]
                     []];
                (if truthy (field config "features") then
                   Element "hui-card-features"
                     [Property "hass" (PHass h);
                      Property "stateObj" (PEntity stateObj);
                      Property "color" (PJs (field config "color"));
                      Property "features" (PJs (field config "features"))]
                     []
                 else Nothing)]])
      end
  | _, _ => Template Nothing
  end.

(** *** Stub configuration and action dispatch *)

(** [getStubConfig]; [findEntities] (find-entities) is not part of the
    sources and is taken as an argument. *)
Definition getStubConfig
  (findEntities : HomeAssistant -> Z -> list string -> list string
                  -> list string -> list string)
  (h : HomeAssistant) (entities entitiesFallback : list string)
  : gmap string JsVal :=
  let includeDomains := ["sensor"; "light"; "switch"] in
  let maxEntities := 1 in
  let foundEntities :=
    findEntities h maxEntities entities entitiesFallback includeDomains in
  (* foundEntities[0] || "" *)
  {[ "type" := JStr "tile";
     "entity" := JStr (match foundEntities with
                       | first :: _ => if String.eqb first "" then "" else first
                       | [] => ""
                       end) ]}.

(** What is handed to [handleAction] (handle-action, not part of the
    sources): the state, the configuration to read the action from and
    the gesture; [call_stops] records [ev.stopPropagation()]. *)
Record ActionCall : Type := {
  call_hass : option HomeAssistant;
  call_config : option (gmap string JsVal);
  call_action : string;
  call_stops : bool
}.

Definition _handleAction (st : State) (action : string) : ActionCall :=
  {| call_hass := hass st; call_config := _config st;
     call_action := action; call_stops := false |}.

(** Reading [this._config!.entity] without a configuration throws. *)
Definition _handleIconAction (st : State) : ActionCall + string :=
  match _config st with
  | Some c =>
      let config : gmap string JsVal :=
        {[ "entity" := field c "entity";
           "tap_action" := field c "icon_tap_action" ]} in
      inl {| call_hass := hass st; call_config := Some config;
             call_action := "tap"; call_stops := true |}
  | None => inr "TypeError: this._config is undefined"
  end.

(** The light reports a colour whose saturation the card does not
    raise for contrast. *)
Definition saturated (entity : HassEntity) : Prop :=
  exists rgb,
    rgb_color (attributes entity) = Some rgb
    /\ PrimFloat.ltb (snd (fst (rgb2hsv rgb))) 0.4%float = false.

End Tile.

(** *** Reading a rendered template *)

(** A binding that makes an element respond to the user: an event
    listener, the action-handler directive, a [role] or a [tabindex]. *)
Definition is_affordance (a : Attr Html) : bool :=
  match a with
  | EventListener _ _ => true
  | Attribute name _ => String.eqb name "role" || String.eqb name "tabindex"
  | Property name _ => String.eqb name "actionHandler"
  end.

(** The element itself, the elements below it and the templates bound
    to its properties. *)
Fixpoint subtemplates (h : Html) : list Html :=
  match h with
  | Nothing => []
  | Element _ attrs content =>
      h :: flat_map (fun a => match a with
                              | Property _ (PTemplate t) => subtemplates t
                              | _ => []
                              end) attrs
        ++ flat_map subtemplates content
  end.

Definition bindings (h : Html) : list (Attr Html) :=
  match h with
  | Nothing => []
  | Element _ attrs _ => attrs
  end.

(** The element carries [class="cls"]. *)
Definition has_class (cls : string) (h : Html) : bool :=
  existsb (fun a => match a with
                    | Attribute name value =>
                        String.eqb name "class" && String.eqb value cls
                    | _ => false
                    end) (bindings h).

(** The first element of the template, in document order, with that
    class. *)
Definition find_class (cls : string) (template : Html) : option Html :=
  List.find (has_class cls) (subtemplates template).

(** The value of the [role] attribute of an element, if it has one. *)
Definition role_of (h : Html) : option string :=
  match List.find (fun a => match a with
                            | Attribute name _ => String.eqb name "role"
                            | _ => false
                            end) (bindings h) with
  | Some (Attribute _ value) => Some value
  | _ => None
  end.

(** The tag of an element. *)
Definition tag_of (h : Html) : option string :=
  match h with
  | Element tag _ _ => Some tag
  | Nothing => None
  end.

(** The elements directly below an element. *)
Definition content_of (h : Html) : list Html :=
  match h with
  | Element _ _ content => content
  | Nothing => []
  end.

(** The size hint of a tile configuration: 1, plus 1 when [vertical]
    is set, plus the number of configured features. *)
Definition tile_size (config : gmap string JsVal) : Z :=
  1 + (if truthy (field config "vertical") then 1 else 0)
    + match config !! "features" with
      | Some (JArr rows) => Z.of_nat (length rows)
      | _ => 0
      end.

(** The configuration names an entity: [entity] is a non-empty
    string. *)
Definition has_entity_id (config : gmap string JsVal) (entityId : string) : Prop :=
  config !! "entity" = Some (JStr entityId) /\ entityId <> "".

(** Some element of the template carries an action affordance. *)
Definition has_affordance (h : Html) : bool :=
  existsb (fun e => existsb is_affordance (bindings e)) (subtemplates h).

End HuiTileCard.

(** ** Sample collaborators

    A small card implementation and a small tile environment, used to
    run the definitions on concrete inputs. *)

Module Samples.

Import HuiCard.

(** The sample live state: whether the house is occupied. *)
Definition SampleHass : Type := bool.

(** A sample card: it remembers what it was given. *)
Record SampleCard : Type := {
  sc_config : LovelaceCardConfig;
  sc_hass : option SampleHass;
  sc_preview : bool;
  sc_layout : option string;
  sc_isPanel : bool
}.

(** Cards of type "faulty" reject every state; cards of type "strict"
    reject every configuration; cards of type "empty" hide themselves. *)
#[global] Instance sampleHost : HostEnv SampleHass SampleCard := {|
  createCardElement cfg :=
    {| sc_config := cfg; sc_hass := None; sc_preview := false;
       sc_layout := None; sc_isPanel := false |};
  card_setConfig cfg c :=
    if String.eqb (type (sc_config c)) "strict" then (c, Some "Invalid configuration")
    else ({| sc_config := cfg; sc_hass := sc_hass c; sc_preview := sc_preview c;
             sc_layout := sc_layout c; sc_isPanel := sc_isPanel c |}, None);
  card_set_hass h c :=
    if String.eqb (type (sc_config c)) "faulty" then (c, Some "Entity not available")
    else ({| sc_config := sc_config c; sc_hass := Some h; sc_preview := sc_preview c;
             sc_layout := sc_layout c; sc_isPanel := sc_isPanel c |}, None);
  card_set_preview b c :=
    ({| sc_config := sc_config c; sc_hass := sc_hass c; sc_preview := b;
        sc_layout := sc_layout c; sc_isPanel := sc_isPanel c |}, None);
  card_set_editMode b c := (c, None);
  card_set_layout l c :=
    {| sc_config := sc_config c; sc_hass := sc_hass c; sc_preview := sc_preview c;
       sc_layout := l; sc_isPanel := sc_isPanel c |};
  card_set_isPanel b c :=
    {| sc_config := sc_config c; sc_hass := sc_hass c; sc_preview := sc_preview c;
       sc_layout := sc_layout c; sc_isPanel := b |};
  card_hidden c := String.eqb (type (sc_config c)) "empty";
  card_getLayoutOptions c :=
    if String.eqb (type (sc_config c)) "tile"
    then Some {[ "grid_columns" := JNum 2; "grid_rows" := JNum 1 ]}
    else None;
  computeCardSize c := SizeNow 1;
  checkConditionsMet conditions h :=
    forallb (fun c => String.eqb (condition c) "screen" || h) conditions;
  conditionMediaQueries conditions :=
    omap (fun c => if String.eqb (condition c) "screen" then media_query c else None)
      conditions
|}.

Definition wideScreen : Condition :=
  {| condition := "screen"; media_query := Some "(min-width: 1024px)";
     condition_rest := JNull |}.

Definition occupied : Condition :=
  {| condition := "state"; media_query := None; condition_rest := JStr "on" |}.

Definition cardConfig (ref : nat) (ty : string) (vis : option (list Condition))
  : LovelaceCardConfig :=
  {| cfg_ref := UserObj ref; type := ty; visibility := vis;
     layout_options := None; cfg_fields := ∅ |}.

(** A host that has loaded [cfg] as element 0, with the given state. *)
Definition loadedHost (cfg : LovelaceCardConfig) (h : option SampleHass)
  (pv : bool) : State :=
  {| preview := pv; isPanel := false; config := Some cfg; hass := h;
     layout := None; _elementConfig := Some cfg;
     _element := Some {| el_id := 0%nat; el_card := createCardElement cfg |};
     _listeners := []; hidden := false; display := ""; children := [0%nat];
     subscriptions := ∅; next_id := 1%nat; trace := [] |}.

(** The same host after its [config] property was assigned [new]. *)
Definition reconfiguredHost (old new : LovelaceCardConfig)
  (h : option SampleHass) (pv : bool) : State :=
  set_config (Some new) (loadedHost old h pv).

Definition onlyConfig : ChangedProps :=
  {| has_config := true; has_hass := false; has_preview := false;
     has_isPanel := false; has_layout := false |}.

Definition onlyHass : ChangedProps :=
  {| has_config := false; has_hass := true; has_preview := false;
     has_isPanel := false; has_layout := false |}.

Definition configAndHass : ChangedProps :=
  {| has_config := true; has_hass := true; has_preview := false;
     has_isPanel := false; has_layout := false |}.

(** A host showing a "tile" card, with a state, whose configuration
    was replaced by one of type "faulty": a card that rejects every
    state. *)
Definition rebuildingHost : State :=
  reconfiguredHost (cardConfig 1 "tile" None) (cardConfig 2 "faulty" None)
    (Some true) false.

(** A host showing a card only on wide screens, after it was
    connected: it holds one media-query listener. *)
Definition connectedHost : State :=
  fst (connectedCallback
         (loadedHost (cardConfig 1 "tile" (Some [wideScreen])) (Some true) false)).

(** A loaded "tile" child under a configuration that sets
    [layout_options: { grid_rows: 3 }]. *)
Definition layoutHost : State :=
  let cfg :=
    {| cfg_ref := UserObj 7; type := "tile"; visibility := None;
       layout_options := Some {[ "grid_rows" := JNum 3 ]}; cfg_fields := ∅ |} in
  loadedHost cfg None false.

Definition layoutElement : Element :=
  {| el_id := 0%nat;
     el_card :=
       createCardElement
         {| cfg_ref := UserObj 7; type := "tile"; visibility := None;
            layout_options := Some {[ "grid_rows" := JNum 3 ]};
            cfg_fields := ∅ |} |}.

Import HuiTileCard.

(** A tile environment in which a domain is the part of the entity id
    before the first dot and an entity is active unless it is "off"
    or "unavailable". *)
Fixpoint beforeDot (s : string) : string :=
  match s with
  | EmptyString => EmptyString
  | String c rest =>
      if Ascii.eqb c "."%char then EmptyString else String c (beforeDot rest)
  end.

(** Hue, saturation and value of a colour: the value is the largest
    channel, the saturation the chroma relative to it. *)
Definition sample_rgb2hsv (rgb : float * float * float) : float * float * float :=
  let '(r, g, b) := rgb in
  let fmax x y := if PrimFloat.ltb x y then y else x in
  let fmin x y := if PrimFloat.ltb x y then x else y in
  let v := fmax r (fmax g b) in
  let c := PrimFloat.sub v (fmin r (fmin g b)) in
  let h :=
    if PrimFloat.eqb c 0%float then 0%float
    else if PrimFloat.eqb v r then PrimFloat.div (PrimFloat.sub g b) c
    else if PrimFloat.eqb v g
         then PrimFloat.add 2%float (PrimFloat.div (PrimFloat.sub b r) c)
         else PrimFloat.add 4%float (PrimFloat.div (PrimFloat.sub r g) c) in
  (PrimFloat.mul 60%float
     (if PrimFloat.ltb h 0%float then PrimFloat.add h 6%float else h),
   if PrimFloat.eqb v 0%float then 0%float else PrimFloat.div c v,
   v).

(** A red light that is switched off but still reports its colour. *)
Definition redLightOff : HassEntity :=
  {| entity_id := "light.bed";
     state := "off";
     attributes :=
       {| friendly_name := Some "Bed light";
          entity_picture_local := None;
          entity_picture := None;
          rgb_color := Some (255%float, 0%float, 0%float) |} |}.

(** The same light switched on. *)
Definition redLightOn : HassEntity :=
  {| entity_id := "light.bed";
     state := "on";
     attributes := attributes redLightOff |}.

#[global] Instance sampleTile : TileEnv := {|
  computeDomain := beforeDot;
  DOMAINS_TOGGLE := {[ "light"; "switch"; "fan" ]};
  stateActive e :=
    negb (String.eqb (state e) "off" || String.eqb (state e) "unavailable");
  computeCssColor c := "var(--" ++ c ++ "-color)";
  rgb2hsv := sample_rgb2hsv;
  hsv2rgb hsv := hsv;
  rgb2hex rgb := "#rgb";
  stateColorCss e := Some "var(--state-color)";
  hasAction a :=
    match a with
    | JObj [("action", JStr "none")] => false
    | JObj _ => true
    | _ => false
    end;
  cameraUrlWithWidthHeight url w h := url;
  renderTileBadge e h := Nothing;
  mdiHelp := "M11,18H13V16H11V18Z";
  mdiExclamationThick := "M10,3H14V14H10V3Z";
  renderInheritedMember member config h :=
    inr "TypeError: entityId is undefined"
|}.

(** [{ type: "tile", entity: "light.bed", tap_action: { action: "none" } }] *)
Definition bedTile : gmap string JsVal :=
  {[ "type" := JStr "tile";
     "entity" := JStr "light.bed";
     "tap_action" := actionConfig "none" ]}.

Definition emptyTile : HuiTileCard.State :=
  {| HuiTileCard.hass := None; _config := None |}.

(** A house with the given entities, whose states object is an
    ordinary object. *)
Definition sampleHomeAssistant (entities : list HassEntity) : HomeAssistant :=
  {| states := list_to_map (map (fun e => (entity_id e, e)) entities);
     states_inherited := Object_prototype;
     localize key := "Entity not found";
     hassUrl path := path |}.

(** A pale red light: its colour has saturation 0.2. *)
Definition paleLight : HassEntity :=
  {| entity_id := "light.desk";
     state := "on";
     attributes :=
       {| friendly_name := Some "Desk light";
          entity_picture_local := None;
          entity_picture := Some "/local/desk.png";
          rgb_color := Some (255%float, 204%float, 204%float) |} |}.

(** The bed light tile as [setConfig] stores it, in a house that has
    the bed light. *)
Definition bedCard : HuiTileCard.State :=
  {| HuiTileCard.hass := Some (sampleHomeAssistant [redLightOn]);
     _config := Some (bedTile ∪ defaults "light.bed") |}.

(** A tile for the entity id "constructor", as [setConfig] stores it,
    in a house whose states object is an ordinary object. *)
Definition constructorCard : HuiTileCard.State :=
  {| HuiTileCard.hass := Some (sampleHomeAssistant [redLightOn]);
     _config := Some ({[ "type" := JStr "tile"; "entity" := JStr "constructor" ]}
                      ∪ defaults "constructor") |}.

(** A sample entity search: the first [maxEntities] of the given
    entities, then of the fallback ones, whose domain is included. *)
Definition sampleFindEntities (h : HomeAssistant) (maxEntities : Z)
  (entities entitiesFallback includeDomains : list string) : list string :=
  take (Z.to_nat maxEntities)
    (List.filter (fun e => existsb (String.eqb (beforeDot e)) includeDomains)
       (entities ++ entitiesFallback)).

End Samples.

(** ** Properties *)

Lemma ObjRef_eqb_eq a b : ObjRef_eqb a b = true <-> a = b.
Proof.
  destruct a as [n|n], b as [m|m]; simpl;
    rewrite ?Nat.eqb_eq; split; intros E; try discriminate; congruence.
Qed.

Lemma ObjRef_eqb_refl a : ObjRef_eqb a a = true.
Proof. by apply ObjRef_eqb_eq. Qed.

(** [!==] on two configurations compares the objects, not what they
    hold. *)
Lemma config_differs_loaded (c ec : HuiCard.LovelaceCardConfig) :
  HuiCard.config_differs c (Some ec) = true
  <-> HuiCard.cfg_ref c <> HuiCard.cfg_ref ec.
Proof.
  unfold HuiCard.config_differs. rewrite negb_true_iff.
  rewrite <- ObjRef_eqb_eq. by destruct (ObjRef_eqb _ _).
Qed.

(** *** The card host *)

Module HostProps.

Import HuiCard.

Local Open Scope list_scope.

Section Props.

Context {Hass Card : Type} `{HostEnv Hass Card}.

Implicit Types (st : @State Hass Card) (c : @Cmd Hass Card)
  (e : @Effect Hass) (el : @Element Card) (cfg : LovelaceCardConfig).

Local Abbreviation emits := (@HuiCard.emits Hass Card).
Local Abbreviation keeps := (@HuiCard.keeps Hass Card _).
Local Abbreviation total := (@HuiCard.total Hass Card).
Local Abbreviation stays := (@HuiCard.stays Hass Card).
Local Abbreviation sound := (@HuiCard.sound Hass Card).
Local Abbreviation announces := (@HuiCard.announces Hass Card).
Local Abbreviation done := (@HuiCard.done Hass Card).
Local Abbreviation lift := (@HuiCard.lift Hass Card).

(** **** What a command adds to the trace *)

Lemma emits_weaken (P Q : @Effect Hass -> Prop) c :
  (forall e, P e -> Q e) -> emits P c -> emits Q c.
Proof.
  intros HPQ Hc st. destruct (Hc st) as (tl & Htl & HP).
  exists tl. split; [done|]. eapply Forall_impl; eauto.
Qed.

Lemma emits_done P : emits P done.
Proof. intros st. exists []. by rewrite app_nil_r. Qed.

Lemma emits_seq P c1 c2 : emits P c1 -> emits P c2 -> emits P (seq c1 c2).
Proof.
  intros H1 H2 st. unfold seq.
  destruct (H1 st) as (tl1 & E1 & P1).
  destruct (c1 st) as [st1 [msg|]]; cbn in *.
  - by exists tl1.
  - destruct (H2 st1) as (tl2 & E2 & P2).
    exists (tl1 ++ tl2). rewrite E2, E1, app_assoc. split; [done|].
    by apply Forall_app.
Qed.

Lemma emits_try_catch P c (handler : string -> @Cmd Hass Card) :
  emits P c -> (forall msg, emits P (handler msg)) -> emits P (try_catch c handler).
Proof.
  intros H1 H2 st. unfold try_catch.
  destruct (H1 st) as (tl1 & E1 & P1).
  destruct (c st) as [st1 [msg|]]; cbn in *.
  - destruct (H2 msg st1) as (tl2 & E2 & P2).
    exists (tl1 ++ tl2). rewrite E2, E1, app_assoc. split; [done|].
    by apply Forall_app.
  - by exists tl1.
Qed.

Lemma emits_when P (b : bool) c : emits P c -> emits P (when b c).
Proof. destruct b; [done|]. intros _. apply emits_done. Qed.

Lemma emits_lift_quiet P (f : @State Hass Card -> @State Hass Card) :
  (forall st, trace (f st) = trace st) -> emits P (lift f).
Proof. intros Hf st. exists []. cbn. by rewrite Hf, app_nil_r. Qed.

Lemma emits_on_element P (log : nat -> @Effect Hass) f :
  (forall id, P (log id)) -> emits P (on_element log f).
Proof.
  intros HP st. unfold on_element.
  destruct (_element st) as [el|]; [|by exists []; rewrite app_nil_r].
  destruct (f (el_card el)) as [card' r]. exists [log (el_id el)].
  split; [done|]. by constructor.
Qed.

Lemma emits_assign_element P f : emits P (assign_element f).
Proof.
  intros st. unfold assign_element. exists []. rewrite app_nil_r.
  by destruct (_element st).
Qed.

Lemma keeps_done {A} (f : @State Hass Card -> A) : keeps f done.
Proof. by intros st. Qed.

Lemma keeps_seq {A} (f : @State Hass Card -> A) c1 c2 :
  keeps f c1 -> keeps f c2 -> keeps f (seq c1 c2).
Proof.
  intros H1 H2 st. unfold seq. specialize (H1 st).
  destruct (c1 st) as [st1 [msg|]]; cbn in *; [done|].
  by rewrite H2.
Qed.

Lemma keeps_try_catch {A} (f : @State Hass Card -> A) c
  (handler : string -> @Cmd Hass Card) :
  keeps f c -> (forall msg, keeps f (handler msg)) -> keeps f (try_catch c handler).
Proof.
  intros H1 H2 st. unfold try_catch. specialize (H1 st).
  destruct (c st) as [st1 [msg|]]; cbn in *; [|done].
  by rewrite H2.
Qed.

Lemma keeps_when {A} (f : @State Hass Card -> A) (b : bool) c :
  keeps f c -> keeps f (when b c).
Proof. destruct b; [done|]. intros _. apply keeps_done. Qed.

(** **** Showing and hiding the child *)

Lemma attached_true id st : attached id st = true <-> id ∈ children st.
Proof. unfold attached. apply bool_decide_eq_true. Qed.

Lemma attached_false id st : attached id st = false <-> id ∉ children st.
Proof. unfold attached. apply bool_decide_eq_false. Qed.

Lemma attached_appendChild id st : attached id (appendChild id st) = true.
Proof. apply attached_true. cbn. set_solver. Qed.

Lemma attached_removeChild id st : attached id (removeChild id st) = false.
Proof.
  apply attached_false. cbn. intros Hin.
  apply list_elem_of_filter in Hin. by destruct Hin.
Qed.

Lemma setElementVisibility_returns v st : snd (_setElementVisibility v st) = None.
Proof.
  unfold _setElementVisibility. destruct (_element st); [|done].
  repeat case_match; done.
Qed.

Lemma setElementVisibility_unloaded v st :
  _element st = None -> _setElementVisibility v st = (st, None).
Proof. intros E. unfold _setElementVisibility. by rewrite E. Qed.

Lemma setElementVisibility_hidden v st el :
  _element st = Some el -> hidden (fst (_setElementVisibility v st)) = negb v.
Proof.
  intros E. unfold _setElementVisibility. rewrite E.
  destruct (hidden st) eqn:Hh, v; cbn; repeat case_match; cbn; done.
Qed.

Lemma setElementVisibility_attached v st el :
  _element st = Some el ->
  attached (el_id el) (fst (_setElementVisibility v st)) = v.
Proof.
  intros E. unfold _setElementVisibility. rewrite E.
  set (st1 := if negb (Bool.eqb (hidden st) (negb v)) then _ else st).
  destruct v; cbn [negb andb].
  - destruct (attached (el_id el) st1) eqn:Ha; cbn [negb fst]; [done|].
    apply attached_appendChild.
  - destruct (attached (el_id el) st1) eqn:Ha; cbn [negb fst]; [|done].
    apply attached_removeChild.
Qed.

Lemma setElementVisibility_events v st el :
  _element st = Some el ->
  visibility_events (trace (fst (_setElementVisibility v st))) =
  visibility_events (trace st)
    ++ (if Bool.eqb v (negb (hidden st)) then [] else [v]).
Proof.
  intros E. unfold _setElementVisibility. rewrite E.
  unfold visibility_events.
  destruct (hidden st) eqn:Hh, v; cbn; repeat case_match; cbn;
    rewrite ?omap_app; cbn; rewrite ?app_nil_r; done.
Qed.

Lemma setElementVisibility_keeps_element v :
  keeps _element (_setElementVisibility v).
Proof.
  intros st. unfold _setElementVisibility.
  destruct (_element st) eqn:E; [|done]. repeat case_match; cbn; done.
Qed.

Lemma conditionsAllow_true st h :
  conditionsAllow st h = true <->
  (forall cfg, config st = Some cfg -> visibility cfg = None)
  \/ (exists cfg conditions,
        config st = Some cfg /\ visibility cfg = Some conditions
        /\ checkConditionsMet conditions h = true).
Proof.
  unfold conditionsAllow. destruct (config st) as [cfg|] eqn:Ec.
  - destruct (visibility cfg) as [conditions|] eqn:Ev.
    + split.
      * intros Hc. right. by exists cfg, conditions.
      * intros [Hn | (cfg' & conditions' & E1 & E2 & Hc)].
        -- specialize (Hn cfg eq_refl). congruence.
        -- congruence.
    + split; [|done]. intros _. left. intros cfg' E. congruence.
  - split; [|done]. intros _. left. intros cfg' E. congruence.
Qed.

(** C2: with a loaded child and a state present, the evaluation ends
    with the host hidden whenever the child reports itself hidden;
    otherwise the host ends visible if and only if visibility is forced
    (the argument a listener passes for a matching sole media-query
    condition), or the host is in preview, or the configuration has no
    [visibility], or the configured conditions hold of the state.  The
    evaluation does not throw. *)
Theorem updateVisibility_computed
  (forceVisible : option bool) st el (h : Hass) :
  _element st = Some el ->
  hass st = Some h ->
  let st' := fst (_updateVisibility forceVisible st) in
  snd (_updateVisibility forceVisible st) = None
  /\ (card_hidden (el_card el) = true -> hidden st' = true)
  /\ (card_hidden (el_card el) = false ->
      (hidden st' = false <-> visibility_granted forceVisible st h)).
Proof.
  intros Eel Eh. cbn zeta. unfold _updateVisibility. rewrite Eel, Eh.
  destruct (card_hidden (el_card el)) eqn:Hc.
  - split; [apply setElementVisibility_returns|]. split; [|done].
    intros _. by rewrite (setElementVisibility_hidden _ _ el).
  - split; [apply setElementVisibility_returns|]. split; [done|].
    intros _. rewrite (setElementVisibility_hidden _ _ el) by done.
    rewrite negb_false_iff, !orb_true_iff, conditionsAllow_true.
    unfold visibility_granted. split.
    + intros [[Hf | Hp] | Hc']; [left | right; left | right; right]; try done.
      by destruct forceVisible as [[]|].
    + intros [Hf | [Hp | Hc']]; [left; left | left; right | right]; try done.
      by rewrite Hf.
Qed.

(** The flag a listener passes is the one computed for the condition
    list it was attached for: it forces visibility exactly when that
    list is a sole media-query condition and the query matches. *)
Lemma newListeners_closure (l : MediaQueriesListener) id conditions only queries :
  In l (newListeners id conditions only queries) ->
  l_hasOnlyMediaQuery l = only /\ l_conditions l = conditions.
Proof.
  revert id. induction queries as [|q queries IH]; intros id; [done|].
  intros [<- | Hin]; [done|]. by apply (IH (S id)).
Qed.

Lemma on_media_query_forces st (l : MediaQueriesListener) (matches : bool) :
  In l (listeners_for st) ->
  on_media_query l matches =
  _updateVisibility (Some (hasOnlyMediaQuery (l_conditions l) && matches)).
Proof.
  unfold listeners_for, on_media_query. intros Hin.
  destruct (config st) as [cfg|]; [|done].
  destruct (visibility cfg) as [conditions|]; [|done].
  by destruct (newListeners_closure _ _ _ _ _ Hin) as [-> ->].
Qed.

(** **** The effects of loading and updating *)

(** Read off what was appended to the trace. *)
Ltac appended :=
  first
    [ by exists []; rewrite app_nil_r
    | eexists; split;
      [ rewrite <- ?app_assoc; reflexivity | by repeat constructor ] ].

Lemma emits_setElementVisibility v : emits is_display (_setElementVisibility v).
Proof.
  intros st. unfold _setElementVisibility.
  destruct (_element st) as [el|]; [|appended].
  destruct (negb (Bool.eqb (hidden st) (negb v))); cbn;
    repeat case_match; cbn; appended.
Qed.

Lemma emits_updateVisibility forceVisible :
  emits is_display (_updateVisibility forceVisible).
Proof.
  intros st. unfold _updateVisibility.
  destruct (_element st) as [el|]; [|by exists []; rewrite app_nil_r].
  destruct (hass st) as [h|]; [|by exists []; rewrite app_nil_r].
  destruct (card_hidden (el_card el)); apply emits_setElementVisibility.
Qed.

Lemma trace_fold_emit (f : nat -> @Effect Hass) (ids : list nat) st :
  trace (fold_left (fun s i => emit (f i) s) ids st) = trace st ++ map f ids.
Proof.
  revert st. induction ids as [|i ids IH]; intros st; cbn.
  - by rewrite app_nil_r.
  - rewrite IH. cbn. by rewrite <- app_assoc.
Qed.

Lemma emits_removeAllChildren : emits is_display (lift removeAllChildren).
Proof.
  intros st. cbn. rewrite (trace_fold_emit ERemoveChild).
  eexists. split; [reflexivity|]. apply Forall_forall.
  intros e He. apply list_elem_of_In, in_map_iff in He.
  by destruct He as (i & <- & _).
Qed.

Lemma is_display_setup e : is_display e -> is_setup e.
Proof. by destruct e. Qed.

Lemma emits_pushHass : emits is_setup pushHass.
Proof.
  intros st. unfold pushHass.
  destruct (hass st) as [h|]; [by apply emits_on_element | appended].
Qed.

Lemma emits_pushPreview : emits is_setup pushPreview.
Proof. apply emits_seq; intros st; by apply emits_on_element. Qed.

(** [_loadElement] first creates the element, with the next identity,
    and then only prepares it. *)
Lemma loadElement_trace cfg st :
  exists tl,
    trace (fst (_loadElement cfg st)) = trace st ++ ECreate (next_id st) cfg :: tl
    /\ Forall is_setup tl.
Proof.
  unfold _loadElement.
  match goal with
  | |- context [seq ?create ?rest] => assert (emits is_setup rest) as Hrest
  end.
  { repeat apply emits_seq.
    - by apply emits_lift_quiet.
    - apply emits_pushHass.
    - intros s. apply emits_assign_element.
    - intros s. by apply emits_on_element.
    - intros s. by apply emits_on_element.
    - intros s. destruct (_element s) as [el|]; cbn.
      + rewrite <- !app_assoc. eexists. split; [reflexivity|].
        by repeat constructor.
      + by exists []; rewrite app_nil_r.
    - eapply emits_weaken; [apply is_display_setup | apply emits_removeAllChildren].
    - eapply emits_weaken; [apply is_display_setup | apply emits_updateVisibility]. }
  unfold seq at 1.
  match goal with
  | |- context [Hrest] => idtac
  | |- exists tl, trace (fst (?rest ?st0)) = _ /\ _ =>
      destruct (Hrest st0) as (tl & Etl & Htl)
  end.
  exists tl. split; [|done]. rewrite Etl. cbn. by rewrite <- app_assoc.
Qed.

(** [_updateElement] calls [setConfig] on the child it has and creates
    nothing. *)
Lemma updateElement_trace cfg st el :
  _element st = Some el ->
  exists tl,
    trace (fst (_updateElement cfg st)) = trace st ++ ESetConfig (el_id el) cfg :: tl
    /\ (tl = [] \/ tl = [EFire CardUpdated]).
Proof.
  intros Eel. unfold _updateElement, seq, on_element, lift. rewrite Eel. cbn.
  destruct (card_setConfig cfg (el_card el)) as [card' [msg|]]; cbn.
  - exists []. by split; [|left].
  - exists [EFire CardUpdated]. split; [|by right]. by rewrite <- app_assoc.
Qed.

(** **** The stages of [update] *)

Lemma is_setup_later e : is_setup e -> is_later e.
Proof. by destruct e. Qed.

Lemma error_message_createErrorCardConfig ref message origConfig :
  error_message (createErrorCardConfig ref message origConfig) = Some (JStr message).
Proof. unfold error_message. cbn. apply lookup_insert_eq. Qed.

Lemma emits_loadErrorCard message : emits is_later (loadErrorCard message).
Proof.
  intros st. unfold loadErrorCard.
  destruct (loadElement_trace (createErrorCardConfig (next_id st) message JNull)
              (set_next_id (S (next_id st)) st)) as (tl & Etl & Htl).
  eexists. split; [exact Etl|]. constructor.
  - unfold is_later. by rewrite error_message_createErrorCardConfig.
  - eapply Forall_impl; [exact Htl | apply is_setup_later].
Qed.

Lemma seq_assoc c1 c2 c3 st : seq (seq c1 c2) c3 st = seq c1 (seq c2 c3) st.
Proof. unfold seq. by destruct (c1 st) as [st1 [msg|]]. Qed.

Lemma keeps_assign_element_held f : keeps held (assign_element f).
Proof.
  intros st. unfold assign_element, held.
  destruct (_element st) as [el|] eqn:E; cbn; by rewrite ?E.
Qed.

Lemma seq_guarded (body vis : @Cmd Hass Card) st el :
  _element st = Some el ->
  seq (fun st0 => match _element st0 with
                  | None => (st0, None)
                  | Some _ => body st0
                  end) vis st
  = seq body vis st.
Proof. intros E. unfold seq. by rewrite E. Qed.

(** With a loaded child, a changed configuration that is a new object
    is first loaded or applied; the other stages follow. *)
Lemma update_stages (changedProps : ChangedProps) st el cfg :
  _element st = Some el ->
  config st = Some cfg ->
  has_config changedProps = true ->
  config_differs cfg (_elementConfig st) = true ->
  exists later : @Cmd Hass Card,
    update changedProps st =
    seq (if type_differs cfg (_elementConfig st) || preview st
         then _loadElement cfg else _updateElement cfg) later st
    /\ emits is_later later
    /\ (has_hass changedProps = false -> has_preview changedProps = false ->
        emits (fun _ => False) later /\ keeps held later).
Proof.
  intros Eel Ecfg Hcp Hdiff. unfold update.
  rewrite (seq_guarded _ _ st el Eel), seq_assoc, Hcp.
  eexists. split; [|split].
  - unfold seq at 1. unfold when at 1. rewrite Ecfg, Hdiff.
    destruct (type_differs cfg (_elementConfig st)), (preview st); reflexivity.
  - repeat apply emits_seq.
    + apply emits_when, emits_try_catch; [|apply emits_loadErrorCard].
      eapply emits_weaken; [apply is_setup_later | apply emits_pushHass].
    + apply emits_when, emits_try_catch; [|apply emits_loadErrorCard].
      eapply emits_weaken; [apply is_setup_later | apply emits_pushPreview].
    + apply emits_when. intros s. apply emits_assign_element.
    + apply emits_when. intros s. apply emits_assign_element.
    + apply emits_when. eapply emits_weaken; [|apply emits_updateVisibility].
      intros e He. by apply is_setup_later, is_display_setup.
  - intros -> ->. cbn [orb when]. split.
    + repeat apply emits_seq; try apply emits_done.
      * apply emits_when. intros s. apply emits_assign_element.
      * apply emits_when. intros s. apply emits_assign_element.
    + repeat apply keeps_seq; try apply keeps_done.
      * apply keeps_when. intros s. apply keeps_assign_element_held.
      * apply keeps_when. intros s. apply keeps_assign_element_held.
Qed.

Lemma keeps_on_element_held log f : keeps held (on_element log f).
Proof.
  intros st. unfold on_element, held.
  destruct (_element st) as [el|] eqn:E; cbn; [|by rewrite ?E].
  by destruct (f (el_card el)).
Qed.

Lemma keeps_pushHass_held : keeps held pushHass.
Proof.
  intros st. unfold pushHass.
  destruct (hass st); [apply keeps_on_element_held | done].
Qed.

Lemma keeps_pushPreview_held : keeps held pushPreview.
Proof. apply keeps_seq; intros st; apply keeps_on_element_held. Qed.

Lemma keeps_setElementVisibility_held v : keeps held (_setElementVisibility v).
Proof.
  intros st. unfold _setElementVisibility, held.
  destruct (_element st) as [el|] eqn:E; cbn; [|by rewrite ?E].
  repeat case_match; cbn; by rewrite ?E.
Qed.

Lemma keeps_updateVisibility_held forceVisible :
  keeps held (_updateVisibility forceVisible).
Proof.
  intros st. unfold _updateVisibility.
  destruct (_element st) as [el|]; [|done]. destruct (hass st); [|done].
  destruct (card_hidden (el_card el)); apply keeps_setElementVisibility_held.
Qed.

Lemma fold_emit_frame {A B : Type} (g : @State Hass Card -> B)
  (f : A -> @Effect Hass) (xs : list A) st :
  (forall e s, g (emit e s) = g s) ->
  g (fold_left (fun s x => emit (f x) s) xs st) = g st.
Proof.
  intros Hg. revert st. induction xs as [|x xs IH]; intros st; cbn; [done|].
  by rewrite IH, Hg.
Qed.

Lemma keeps_removeAllChildren_held : keeps held (lift removeAllChildren).
Proof.
  intros st. cbn. unfold held, removeAllChildren. cbn.
  by rewrite (fold_emit_frame _element), (fold_emit_frame _elementConfig).
Qed.

(** After [_loadElement] the host holds the element just created, and
    the configuration it was created from, whether or not preparing
    the element threw. *)
Lemma loadElement_held cfg st :
  held (fst (_loadElement cfg st)) = (Some (next_id st), Some cfg).
Proof.
  unfold _loadElement.
  match goal with
  | |- context [seq ?create (seq ?remember ?rest)] =>
      assert (keeps held rest) as Hrest
  end.
  { repeat apply keeps_seq.
    - apply keeps_pushHass_held.
    - intros s. apply keeps_assign_element_held.
    - intros s. apply keeps_on_element_held.
    - intros s. apply keeps_on_element_held.
    - intros s. unfold held. by destruct (_element s) eqn:E; cbn; rewrite ?E.
    - apply keeps_removeAllChildren_held.
    - apply keeps_updateVisibility_held. }
  unfold seq at 1. unfold seq at 1. cbn [lift]. by rewrite Hrest.
Qed.

(** [_updateElement] keeps the element; the configuration is recorded
    when [setConfig] returns. *)
Lemma updateElement_held cfg st el :
  _element st = Some el ->
  held (fst (_updateElement cfg st)) =
  (Some (el_id el),
   match snd (card_setConfig cfg (el_card el)) with
   | None => Some cfg
   | Some _ => _elementConfig st
   end).
Proof.
  intros Eel. unfold _updateElement, seq, on_element, lift, held. rewrite Eel.
  by destruct (card_setConfig cfg (el_card el)) as [card' [msg|]].
Qed.

Lemma creations_app (t1 t2 : list (@Effect Hass)) :
  creations (t1 ++ t2) = creations t1 ++ creations t2.
Proof. apply omap_app. Qed.

Lemma reconfigurations_app (t1 t2 : list (@Effect Hass)) :
  reconfigurations (t1 ++ t2) = reconfigurations t1 ++ reconfigurations t2.
Proof. apply omap_app. Qed.

Lemma later_effects (tl : list (@Effect Hass)) :
  Forall is_later tl ->
  reconfigurations tl = []
  /\ Forall (fun cfg => error_message cfg <> None) (creations tl).
Proof.
  induction 1 as [|e tl He _ [IH1 IH2]]; [done|].
  destruct e; cbn in *; try done. split; [done|]. by constructor.
Qed.

Lemma setup_effects (tl : list (@Effect Hass)) :
  Forall is_setup tl -> reconfigurations tl = [] /\ creations tl = [].
Proof.
  induction 1 as [|e tl He _ [IH1 IH2]]; [done|].
  by destruct e.
Qed.

Lemma no_effects (tl : list (@Effect Hass)) : Forall (fun _ => False) tl -> tl = [].
Proof. by destruct 1. Qed.

(** What [update] leaves in the trace when the configuration has
    changed to a new configuration object: the first effect is the
    creation of an element from the new configuration if its [type]
    differs from that of the loaded one or the host is in preview, and
    [setConfig] on the element the host has otherwise; the only
    elements created afterwards in the same update are error cards. *)
Lemma update_config_changed (changedProps : ChangedProps) st el cfg :
  _element st = Some el ->
  config st = Some cfg ->
  has_config changedProps = true ->
  config_differs cfg (_elementConfig st) = true ->
  let rebuild := type_differs cfg (_elementConfig st) || preview st in
  let st' := fst (update changedProps st) in
  exists tl,
    trace st' =
      trace st ++ (if rebuild then ECreate (next_id st) cfg
                   else ESetConfig (el_id el) cfg) :: tl
    /\ reconfigurations tl = []
    /\ Forall (fun cfg' => error_message cfg' <> None) (creations tl)
    /\ (has_hass changedProps = false -> has_preview changedProps = false ->
        creations tl = []
        /\ option_map el_id (_element st') =
           Some (if rebuild then next_id st else el_id el)
        /\ _elementConfig st' =
           if rebuild then Some cfg
           else match snd (card_setConfig cfg (el_card el)) with
                | None => Some cfg
                | Some _ => _elementConfig st
                end).
Proof.
  intros Eel Ecfg Hcp Hdiff rebuild st'. subst st'.
  destruct (update_stages changedProps st el cfg Eel Ecfg Hcp Hdiff)
    as (later & -> & Hlater & Hquiet).
  fold rebuild. unfold seq.
  assert (exists tl1,
             trace (fst ((if rebuild then _loadElement cfg else _updateElement cfg) st))
             = trace st ++ (if rebuild then ECreate (next_id st) cfg
                            else ESetConfig (el_id el) cfg) :: tl1
             /\ reconfigurations tl1 = [] /\ creations tl1 = []) as (tl1 & E1 & R1 & C1).
  { destruct rebuild.
    - destruct (loadElement_trace cfg st) as (tl1 & E1 & S1).
      exists tl1. split; [done|]. by apply setup_effects.
    - destruct (updateElement_trace cfg st el Eel) as (tl1 & E1 & [-> | ->]);
        by eexists. }
  assert (held (fst ((if rebuild then _loadElement cfg else _updateElement cfg) st))
          = (Some (if rebuild then next_id st else el_id el),
             if rebuild then Some cfg
             else match snd (card_setConfig cfg (el_card el)) with
                  | None => Some cfg
                  | Some _ => _elementConfig st
                  end)) as Hheld.
  { destruct rebuild; [apply loadElement_held | by apply updateElement_held]. }
  destruct ((if rebuild then _loadElement cfg else _updateElement cfg) st)
    as [st1 [msg|]]; cbn [fst snd] in *.
  - exists tl1. rewrite R1, C1. repeat split; try done.
    + by injection Hheld.
    + by injection Hheld.
  - destruct (Hlater st1) as (tl2 & E2 & L2).
    destruct (later_effects tl2 L2) as [R2 C2].
    exists (tl1 ++ tl2).
    rewrite reconfigurations_app, creations_app, R1, C1, R2. cbn [app].
    split; [by rewrite E2, E1, <- app_assoc|]. split; [done|]. split; [done|].
    intros Hh Hp. destruct (Hquiet Hh Hp) as [Hnone Hkeep].
    destruct (Hnone st1) as (tl2' & E2' & L2').
    apply no_effects in L2'. subst tl2'. rewrite E2' in E2.
    apply app_inv_head in E2. subst tl2.
    specialize (Hkeep st1). rewrite Hheld in Hkeep. unfold held in Hkeep.
    by injection Hkeep.
Qed.

(** **** Pushing the state into the child *)

Lemma keeps_held_stays c : keeps held c -> stays c.
Proof.
  intros Hk st Hl. specialize (Hk st). unfold held in Hk.
  injection Hk as Hk _. destruct (_element (fst (c st))), (_element st); done.
Qed.

Lemma total_done : total done.
Proof. by intros st Hl. Qed.

Lemma total_seq c1 c2 : total c1 -> total c2 -> total (seq c1 c2).
Proof.
  intros H1 H2 st Hl. unfold seq. destruct (H1 st Hl) as [R1 L1].
  destruct (c1 st) as [st1 r1]; cbn in *. subst r1. by apply H2.
Qed.

Lemma total_when (b : bool) c : total c -> total (when b c).
Proof. destruct b; [done|]. intros _. apply total_done. Qed.

Lemma total_try_catch c (handler : string -> @Cmd Hass Card) :
  stays c -> (forall msg, total (handler msg)) -> total (try_catch c handler).
Proof.
  intros H1 H2 st Hl. unfold try_catch. specialize (H1 st Hl).
  destruct (c st) as [st1 [msg|]]; cbn in *; [by apply H2 | done].
Qed.

Lemma total_assign_element f : total (assign_element f).
Proof.
  intros st Hl. unfold assign_element. by destruct (_element st).
Qed.

Lemma updateVisibility_returns forceVisible st :
  snd (_updateVisibility forceVisible st) = None.
Proof.
  unfold _updateVisibility. destruct (_element st) as [el|]; [|done].
  destruct (hass st); [|done].
  destruct (card_hidden (el_card el)); apply setElementVisibility_returns.
Qed.

Lemma total_updateVisibility forceVisible : total (_updateVisibility forceVisible).
Proof.
  intros st Hl. split; [apply updateVisibility_returns|].
  by apply (keeps_held_stays _ (keeps_updateVisibility_held forceVisible)).
Qed.

Lemma total_loadErrorCard message :
  error_card_loads -> total (loadErrorCard message).
Proof.
  intros Hload st _. unfold loadErrorCard. split; [apply Hload|].
  pose proof (loadElement_held (createErrorCardConfig (next_id st) message JNull)
                (set_next_id (S (next_id st)) st)) as Hh.
  unfold held in Hh. injection Hh as Hh _.
  by destruct (_element _).
Qed.

Lemma keeps_updateVisibility_element forceVisible :
  keeps _element (_updateVisibility forceVisible).
Proof.
  intros st. unfold _updateVisibility.
  destruct (_element st) as [el|] eqn:E; [|done]. destruct (hass st); [|done].
  destruct (card_hidden (el_card el));
    by rewrite setElementVisibility_keeps_element.
Qed.

Lemma sound_seq I c1 c2 : sound I c1 -> sound I c2 -> sound I (seq c1 c2).
Proof.
  intros H1 H2 st HI. unfold seq. destruct (H1 st HI) as [R1 I1].
  destruct (c1 st) as [st1 r1]; cbn in *. subst r1. by apply H2.
Qed.

Lemma sound_on_element J log f :
  (forall card, J card -> snd (f card) = None /\ J (fst (f card))) ->
  sound (holds_card J) (on_element log f).
Proof.
  intros Hf st (el & Eel & HJ). unfold on_element. rewrite Eel.
  destruct (Hf (el_card el) HJ) as [R1 J1].
  destruct (f (el_card el)) as [card' r]; cbn in *. split; [done|].
  by eexists.
Qed.

Lemma sound_assign_element J f :
  (forall card, J card -> J (f card)) -> sound (holds_card J) (assign_element f).
Proof.
  intros Hf st (el & Eel & HJ). unfold assign_element. rewrite Eel. cbn.
  split; [done|]. eexists. split; [done|]. by apply Hf.
Qed.

Lemma sound_quiet J (g : @State Hass Card -> @State Hass Card) :
  (forall st, _element (g st) = _element st) -> sound (holds_card J) (lift g).
Proof.
  intros Hg st (el & Eel & HJ). cbn. split; [done|].
  exists el. by rewrite Hg.
Qed.

Lemma sound_updateVisibility J forceVisible :
  sound (holds_card J) (_updateVisibility forceVisible).
Proof.
  intros st (el & Eel & HJ). split; [apply updateVisibility_returns|].
  exists el. by rewrite keeps_updateVisibility_element.
Qed.

Lemma loadElement_returns (J : Card -> Prop) cfg st :
  J (createCardElement cfg) ->
  (forall h card, J card ->
     snd (card_set_hass h card) = None /\ J (fst (card_set_hass h card))) ->
  (forall l card, J card -> J (card_set_layout l card)) ->
  (forall b card, J card ->
     snd (card_set_preview b card) = None /\ J (fst (card_set_preview b card))) ->
  (forall b card, J card ->
     snd (card_set_editMode b card) = None /\ J (fst (card_set_editMode b card))) ->
  snd (_loadElement cfg st) = None.
Proof.
  intros Hnew Hhass Hlayout Hpreview Hedit. unfold _loadElement.
  match goal with
  | |- context [seq ?create ?rest] => assert (sound (holds_card J) rest) as Hrest
  end.
  { repeat apply sound_seq.
    - by apply sound_quiet.
    - intros s HI. unfold pushHass. destruct (hass s) as [h|]; [|done].
      by apply (sound_on_element J _ _ (Hhass h) s HI).
    - intros s. apply sound_assign_element, Hlayout.
    - intros s. apply sound_on_element, Hpreview.
    - intros s. apply sound_on_element, Hedit.
    - intros s (el & Eel & HJ). rewrite Eel. cbn. split; [done|]. by exists el.
    - apply sound_quiet. intros s. unfold removeAllChildren. cbn.
      apply (fold_emit_frame _element). done.
    - apply sound_updateVisibility. }
  unfold seq at 1. apply Hrest. eexists. split; [reflexivity|]. exact Hnew.
Qed.

(** With a loaded child and an unchanged configuration, a changed
    state is pushed first; the other stages follow. *)
Lemma update_stages_hass (changedProps : ChangedProps) st el :
  _element st = Some el ->
  has_config changedProps = false ->
  has_hass changedProps = true ->
  exists later : @Cmd Hass Card,
    update changedProps st = seq (try_catch pushHass loadErrorCard) later st
    /\ emits is_later later
    /\ (error_card_loads -> total later)
    /\ (has_preview changedProps = false ->
        emits is_display later /\ keeps held later)
    /\ (has_preview changedProps = false -> has_isPanel changedProps = false ->
        has_layout changedProps = false -> keeps _element later).
Proof.
  intros Eel Hc Hh. unfold update.
  rewrite (seq_guarded _ _ st el Eel), seq_assoc, Hc, Hh.
  unfold seq at 1. unfold when at 1. cbn [done]. rewrite seq_assoc.
  unfold when at 1.
  eexists. split; [reflexivity|]. split; [|split; [|split]].
  - repeat apply emits_seq.
    + apply emits_when, emits_try_catch; [|apply emits_loadErrorCard].
      eapply emits_weaken; [apply is_setup_later | apply emits_pushPreview].
    + apply emits_when. intros s. apply emits_assign_element.
    + apply emits_when. intros s. apply emits_assign_element.
    + apply emits_when. eapply emits_weaken; [|apply emits_updateVisibility].
      intros e He. by apply is_setup_later, is_display_setup.
  - intros Hload. repeat apply total_seq.
    + apply total_when, total_try_catch.
      * apply keeps_held_stays, keeps_pushPreview_held.
      * intros msg. by apply total_loadErrorCard.
    + apply total_when. intros s. apply total_assign_element.
    + apply total_when. intros s. apply total_assign_element.
    + apply total_when, total_updateVisibility.
  - intros ->. cbn [orb when]. split.
    + repeat apply emits_seq; try apply emits_done.
      * apply emits_when. intros s. apply emits_assign_element.
      * apply emits_when. intros s. apply emits_assign_element.
      * apply emits_updateVisibility.
    + repeat apply keeps_seq; try apply keeps_done.
      * apply keeps_when. intros s. apply keeps_assign_element_held.
      * apply keeps_when. intros s. apply keeps_assign_element_held.
      * apply keeps_updateVisibility_held.
  - intros -> -> ->. cbn [orb when].
    repeat apply keeps_seq; try apply keeps_done.
    apply keeps_updateVisibility_element.
Qed.

Lemma display_effects (tl : list (@Effect Hass)) :
  Forall is_display tl -> creations tl = [].
Proof.
  intros Hd. apply setup_effects. eapply Forall_impl; [exact Hd|].
  apply is_display_setup.
Qed.

(** What [update] leaves in the trace when the state has changed
    and the configuration has not: the state is assigned to the child
    first; if the assignment throws, the next effect is the creation
    of an element from an error-card configuration that carries the
    thrown message. *)
Lemma update_hass_changed (changedProps : ChangedProps) st el (h : Hass) :
  _element st = Some el ->
  hass st = Some h ->
  has_hass changedProps = true ->
  has_config changedProps = false ->
  let st' := fst (update changedProps st) in
  let pushed := card_set_hass h (el_card el) in
  (error_card_loads -> snd (update changedProps st) = None)
  /\ match snd pushed with
     | None =>
         exists tl,
           trace st' = trace st ++ ESetHass (el_id el) h :: tl
           /\ (has_preview changedProps = false ->
               creations tl = []
               /\ option_map el_id (_element st') = Some (el_id el))
           /\ (has_preview changedProps = false ->
               has_isPanel changedProps = false ->
               has_layout changedProps = false ->
               _element st' = Some {| el_id := el_id el; el_card := fst pushed |})
     | Some message =>
         let errorConfig := createErrorCardConfig (next_id st) message JNull in
         exists tl,
           trace st' =
             trace st ++ ESetHass (el_id el) h
                      :: ECreate (S (next_id st)) errorConfig :: tl
           /\ error_message errorConfig = Some (JStr message)
           /\ (has_preview changedProps = false ->
               creations tl = []
               /\ held st' = (Some (S (next_id st)), Some errorConfig))
     end.
Proof.
  intros Eel Eh Hh Hc st' pushed. subst st' pushed.
  destruct (update_stages_hass changedProps st el Eel Hc Hh)
    as (later & -> & Hlater & Htotal & Hquiet & Hsame).
  unfold seq, try_catch, pushHass. rewrite Eh. unfold on_element. rewrite Eel.
  destruct (card_set_hass h (el_card el)) as [card' [message|]] eqn:Epush;
    cbn [fst snd].
  - (* the child threw *)
    set (st0 := set_element _ _).
    unfold loadErrorCard.
    set (errorConfig := createErrorCardConfig (next_id st0) message JNull).
    destruct (loadElement_trace errorConfig (set_next_id (S (next_id st0)) st0))
      as (tl1 & E1 & S1).
    pose proof (loadElement_held errorConfig (set_next_id (S (next_id st0)) st0))
      as Hheld.
    destruct (setup_effects tl1 S1) as [_ C1].
    assert (trace (set_next_id (S (next_id st0)) st0)
              ++ ECreate (next_id (set_next_id (S (next_id st0)) st0)) errorConfig
                   :: tl1
            = trace st ++ ESetHass (el_id el) h
                :: ECreate (S (next_id st)) errorConfig :: tl1) as Etr.
    { cbn. by rewrite <- app_assoc. }
    rewrite Etr in E1. clear Etr.
    split.
    + intros Hload.
      pose proof (Hload (next_id st0) message (set_next_id (S (next_id st0)) st0))
        as Hret.
      fold errorConfig in Hret.
      destruct (_loadElement errorConfig _) as [st1 r1]; cbn in *. subst r1.
      apply (Htotal Hload). unfold held in Hheld. injection Hheld as Hheld _.
      by destruct (_element st1).
    + destruct (_loadElement errorConfig _) as [st1 [msg1|]]; cbn [fst snd] in *.
      * exists tl1. split; [done|]. split.
        { apply error_message_createErrorCardConfig. }
        intros _. by split.
      * destruct (Hlater st1) as (tl2 & E2 & L2).
        exists (tl1 ++ tl2). split.
        { rewrite E2, E1. by rewrite <- app_assoc. }
        split; [apply error_message_createErrorCardConfig|].
        intros Hp. destruct (Hquiet Hp) as [Hdisp Hkeep].
        destruct (Hdisp st1) as (tl2' & E2' & D2').
        rewrite E2' in E2. apply app_inv_head in E2. subst tl2'.
        split.
        { by rewrite creations_app, C1, (display_effects tl2 D2'). }
        by rewrite Hkeep.
  - (* the child accepted the state *)
    set (st0 := set_element _ _).
    split.
    + intros Hload. by apply (Htotal Hload).
    + destruct (Hlater st0) as (tl2 & E2 & L2).
      exists tl2. split; [|split].
      * rewrite E2. cbn. by rewrite <- app_assoc.
      * intros Hp. destruct (Hquiet Hp) as [Hdisp Hkeep].
        destruct (Hdisp st0) as (tl2' & E2' & D2').
        rewrite E2' in E2. apply app_inv_head in E2. subst tl2'.
        split; [by apply display_effects|].
        specialize (Hkeep st0). unfold held in Hkeep.
        by injection Hkeep as -> _.
      * intros Hp Hi Hl. by rewrite (Hsame Hp Hi Hl st0).
Qed.

Lemma run_cons c cs st :
  run (c :: cs) st =
  match c st with
  | (st1, None) => run cs st1
  | (st1, Some msg) => (st1, Some msg)
  end.
Proof. reflexivity. Qed.

(** **** Media-query listeners *)

Lemma clear_fold (ls : list MediaQueriesListener) st :
  let st' := fold_left (fun s l => unsubscribe l s) ls st in
  trace st' = trace st ++ map (fun l => EUnsubscribe (l_id l)) ls
  /\ subscriptions st' = subscriptions st ∖ listener_ids ls
  /\ config st' = config st
  /\ next_id st' = next_id st.
Proof.
  revert st. induction ls as [|l ls IH]; intros st; cbn zeta.
  - cbn. rewrite app_nil_r. repeat split; try done.
    unfold listener_ids. cbn. set_solver.
  - cbn [fold_left]. destruct (IH (unsubscribe l st)) as (Et & Es & Ec & En).
    rewrite Et, Es, Ec, En. cbn. rewrite <- app_assoc.
    repeat split; try done. unfold listener_ids. cbn. set_solver.
Qed.

Lemma subscribe_fold (ls : list MediaQueriesListener) st :
  let st' := fold_left (fun s l => subscribe l s) ls st in
  trace st' = trace st ++ map ESubscribe ls
  /\ subscriptions st' = listener_ids ls ∪ subscriptions st.
Proof.
  revert st. induction ls as [|l ls IH]; intros st; cbn zeta.
  - cbn. rewrite app_nil_r. split; [done|].
    unfold listener_ids. cbn. set_solver.
  - cbn [fold_left]. destruct (IH (subscribe l st)) as (Et & Es).
    rewrite Et, Es. cbn. rewrite <- app_assoc.
    split; [done|]. unfold listener_ids. cbn. set_solver.
Qed.

Lemma clearMediaQueries_spec st :
  let st' := _clearMediaQueries st in
  trace st' = trace st ++ map (fun l => EUnsubscribe (l_id l)) (_listeners st)
  /\ _listeners st' = []
  /\ subscriptions st' = subscriptions st ∖ listener_ids (_listeners st).
Proof.
  cbn zeta. unfold _clearMediaQueries.
  destruct (clear_fold (_listeners st) st) as (Et & Es & _).
  cbn. by rewrite Et, Es.
Qed.

Lemma listenMediaQueries_spec st :
  let st' := _listenMediaQueries st in
  trace st' =
    trace st ++ map (fun l => EUnsubscribe (l_id l)) (_listeners st)
             ++ map ESubscribe (listeners_for st)
  /\ _listeners st' = listeners_for st
  /\ subscriptions st' =
     listener_ids (listeners_for st)
       ∪ (subscriptions st ∖ listener_ids (_listeners st)).
Proof.
  cbn zeta. unfold _listenMediaQueries, listeners_for, _clearMediaQueries.
  destruct (clear_fold (_listeners st) st) as (Et & Es & Ec & En).
  cbn [config set_listeners next_id].
  rewrite Ec, En. destruct (config st) as [cfg|]; cbn.
  - destruct (visibility cfg) as [conditions|]; cbn.
    + set (ls := newListeners _ _ _ _).
      destruct (subscribe_fold ls
                  (set_listeners []
                     (fold_left (fun s l => unsubscribe l s) (_listeners st) st)))
        as (Et' & Es').
      rewrite Et', Es'. cbn. by rewrite Et, Es, <- app_assoc.
    + rewrite Et, Es, app_nil_r. repeat split; try done.
      unfold listener_ids at 1. cbn. set_solver.
  - rewrite Et, Es, app_nil_r. repeat split; try done.
    unfold listener_ids at 1. cbn. set_solver.
Qed.

Lemma keeps_on_element_listening log f : keeps listening (on_element log f).
Proof.
  intros st. unfold on_element. destruct (_element st) as [el|]; [|done].
  by destruct (f (el_card el)).
Qed.

Lemma keeps_assign_element_listening f : keeps listening (assign_element f).
Proof. intros st. unfold assign_element. by destruct (_element st). Qed.

Lemma keeps_setElementVisibility_listening v :
  keeps listening (_setElementVisibility v).
Proof.
  intros st. unfold _setElementVisibility.
  destruct (_element st) as [el|]; [|done]. repeat case_match; done.
Qed.

Lemma keeps_updateVisibility_listening forceVisible :
  keeps listening (_updateVisibility forceVisible).
Proof.
  intros st. unfold _updateVisibility.
  destruct (_element st) as [el|]; [|done]. destruct (hass st); [|done].
  destruct (card_hidden (el_card el)); apply keeps_setElementVisibility_listening.
Qed.

Lemma keeps_pushHass_listening : keeps listening pushHass.
Proof.
  intros st. unfold pushHass.
  destruct (hass st); [apply keeps_on_element_listening | done].
Qed.

Lemma keeps_pushPreview_listening : keeps listening pushPreview.
Proof. apply keeps_seq; intros st; apply keeps_on_element_listening. Qed.

Lemma keeps_loadElement_listening cfg : keeps listening (_loadElement cfg).
Proof.
  unfold _loadElement. repeat apply keeps_seq.
  - done.
  - done.
  - apply keeps_pushHass_listening.
  - intros s. apply keeps_assign_element_listening.
  - intros s. apply keeps_on_element_listening.
  - intros s. apply keeps_on_element_listening.
  - intros s. by destruct (_element s).
  - intros s. cbn. unfold listening, removeAllChildren. cbn.
    by rewrite (fold_emit_frame _listeners), (fold_emit_frame subscriptions).
  - apply keeps_updateVisibility_listening.
Qed.

Lemma keeps_loadErrorCard_listening message :
  keeps listening (loadErrorCard message).
Proof.
  intros st. unfold loadErrorCard. by rewrite keeps_loadElement_listening.
Qed.

Lemma keeps_updateElement_listening cfg : keeps listening (_updateElement cfg).
Proof.
  intros st. unfold _updateElement. destruct (_element st) as [el|] eqn:E; [|done].
  revert st E. change (forall st, _element st = Some el -> ?f st = ?g st)
    with (forall st, _element st = Some el -> f st = g st).
  intros st _.
  apply (keeps_seq listening); [apply keeps_on_element_listening|].
  apply keeps_seq; by intros s.
Qed.

(** [update] neither subscribes nor unsubscribes. *)
Lemma keeps_update_listening (changedProps : ChangedProps) :
  keeps listening (update changedProps).
Proof.
  unfold update. apply keeps_seq.
  - intros st. destruct (_element st) as [el|]; [|done].
    revert st. apply keeps_seq; [|repeat apply keeps_seq].
    + apply keeps_when. intros st.
      destruct (config st) as [cfg|]; [|done].
      destruct (config_differs cfg (_elementConfig st)); [|done].
      destruct (_ || _);
        [apply keeps_loadElement_listening | apply keeps_updateElement_listening].
    + apply keeps_when, keeps_try_catch;
        [apply keeps_pushHass_listening | apply keeps_loadErrorCard_listening].
    + apply keeps_when, keeps_try_catch;
        [apply keeps_pushPreview_listening | apply keeps_loadErrorCard_listening].
    + apply keeps_when. intros s. apply keeps_assign_element_listening.
    + apply keeps_when. intros s. apply keeps_assign_element_listening.
  - apply keeps_when, keeps_updateVisibility_listening.
Qed.

Lemma tracked_keeps c st :
  keeps listening c -> tracked st -> tracked (fst (c st)).
Proof.
  intros Hk Htr. specialize (Hk st). unfold listening in Hk.
  injection Hk as Hl Hs. unfold tracked. by rewrite Hl, Hs.
Qed.

Lemma tracked_listenMediaQueries st :
  tracked st -> tracked (_listenMediaQueries st).
Proof.
  intros Htr. destruct (listenMediaQueries_spec st) as (_ & El & Es).
  unfold tracked in *. rewrite El, Es. set_solver.
Qed.

Lemma tracked_clearMediaQueries st :
  tracked st -> tracked (_clearMediaQueries st).
Proof.
  intros Htr. destruct (clearMediaQueries_spec st) as (_ & El & Es).
  unfold tracked in *. rewrite El, Es. set_solver.
Qed.

Lemma keeps_load_listening : keeps listening load.
Proof.
  intros st. unfold load. destruct (config st) as [cfg|]; [|done].
  apply keeps_loadElement_listening.
Qed.

(** The host holds every registered subscription, whatever happens
    to it. *)
Lemma tracked_entry c st : entry c -> tracked st -> tracked (fst (c st)).
Proof.
  destruct 1; intros Htr.
  - done.
  - done.
  - done.
  - by apply tracked_keeps; [apply keeps_load_listening|].
  - unfold willUpdate. destruct (_element st); [done|].
    by apply tracked_keeps; [apply keeps_load_listening|].
  - by apply tracked_keeps; [apply keeps_update_listening|].
  - unfold connectedCallback, seq. cbn [lift].
    apply tracked_keeps; [apply keeps_updateVisibility_listening|].
    by apply tracked_listenMediaQueries.
  - by apply tracked_clearMediaQueries.
  - by apply tracked_keeps; [apply keeps_updateVisibility_listening|].
  - apply tracked_keeps; [|done]. apply keeps_seq; [apply keeps_pushHass_listening|].
    by intros s.
  - apply tracked_keeps; [|done].
    apply keeps_seq; [apply keeps_loadElement_listening|]. by intros s.
  - by apply tracked_keeps; [apply keeps_updateVisibility_listening|].
  - by apply tracked_keeps; [apply keeps_assign_element_listening|].
Qed.

Lemma tracked_run (cmds : list (@Cmd Hass Card)) st :
  Forall entry cmds -> tracked st -> tracked (fst (run cmds st)).
Proof.
  intros Hentries. revert st.
  induction Hentries as [|c cmds Hc _ IH]; intros st Htr; [done|].
  rewrite run_cons. pose proof (tracked_entry c st Hc Htr) as Htr1.
  destruct (c st) as [st1 [msg|]]; cbn [fst] in *; [done|]. by apply IH.
Qed.

(** C7, as the code has it: the listeners the host holds are all
    unsubscribed, and none is kept, when the host disconnects, and
    they are all unsubscribed before new ones are attached whenever
    [_listenMediaQueries] runs, which it does on connection.  The host
    holds every registered subscription from its construction on,
    whatever happens to it, so none stays registered after a
    disconnect and the ones registered after [_listenMediaQueries] are
    those made for the configuration the host has then.  [update],
    which is what handles a changed configuration, leaves the
    listeners and the registered subscriptions as they are. *)
Theorem listeners_unsubscribed :
  (forall st,
      let st' := fst (disconnectedCallback st) in
      snd (disconnectedCallback st) = None
      /\ trace st' = trace st ++ map (fun l => EUnsubscribe (l_id l)) (_listeners st)
      /\ _listeners st' = []
      /\ (tracked st -> subscriptions st' = ∅))
  /\ (forall st,
        let st' := _listenMediaQueries st in
        trace st' =
          trace st ++ map (fun l => EUnsubscribe (l_id l)) (_listeners st)
                   ++ map ESubscribe (listeners_for st)
        /\ _listeners st' = listeners_for st
        /\ (tracked st -> subscriptions st' = listener_ids (listeners_for st)))
  /\ (tracked (@initial Hass Card)
      /\ forall (cmds : list (@Cmd Hass Card)) st,
          Forall entry cmds -> tracked st -> tracked (fst (run cmds st)))
  /\ (forall (changedProps : ChangedProps) st,
        _listeners (fst (update changedProps st)) = _listeners st
        /\ subscriptions (fst (update changedProps st)) = subscriptions st).
Proof.
  split; [|split; [|split]].
  - intros st. cbn zeta. unfold disconnectedCallback, lift. cbn [fst snd].
    destruct (clearMediaQueries_spec st) as (Et & El & Es).
    repeat split; try done. intros Htr. rewrite Es. unfold tracked in Htr.
    set_solver.
  - intros st. destruct (listenMediaQueries_spec st) as (Et & El & Es).
    repeat split; try done. intros Htr. rewrite Es. unfold tracked in Htr.
    set_solver.
  - split; [done|]. intros cmds st. apply tracked_run.
  - intros changedProps st.
    pose proof (keeps_update_listening changedProps st) as Hk.
    unfold listening in Hk. by injection Hk.
Qed.

(** **** Sequences of evaluations *)

Lemma last_cons_default {A : Type} (v d : A) (vs : list A) :
  List.last (v :: vs) d = List.last vs v.
Proof.
  revert v d. induction vs as [|a vs IH]; intros v d; [done|].
  change (List.last (v :: a :: vs) d) with (List.last (a :: vs) d).
  by rewrite !IH.
Qed.

(** **** What the host announces *)

Lemma last_app_default {A : Type} (l1 l2 : list A) (d : A) :
  List.last (l1 ++ l2) d = List.last l2 (List.last l1 d).
Proof.
  revert d. induction l1 as [|a l1 IH]; intros d; [done|].
  change ((a :: l1) ++ l2) with (a :: (l1 ++ l2)).
  by rewrite !last_cons_default, IH.
Qed.

Lemma changes_app (prev : bool) (l1 l2 : list bool) :
  changes prev (l1 ++ l2) = changes prev l1 ++ changes (List.last l1 prev) l2.
Proof.
  revert prev. induction l1 as [|a l1 IH]; intros prev; [done|].
  rewrite last_cons_default. cbn. rewrite IH.
  by destruct (Bool.eqb a prev).
Qed.

Lemma announces_keeps c : keeps shown c -> announces c.
Proof.
  intros Hk st. specialize (Hk st). unfold shown in Hk.
  injection Hk as Hh Hv. exists []. rewrite app_nil_r. cbn.
  by rewrite Hv, Hh, negb_involutive.
Qed.

Lemma announces_seq c1 c2 : announces c1 -> announces c2 -> announces (seq c1 c2).
Proof.
  intros H1 H2 st. unfold seq.
  destruct (H1 st) as (f1 & E1 & A1 & L1).
  destruct (c1 st) as [st1 [msg|]]; cbn [fst snd] in *; [by exists f1|].
  destruct (H2 st1) as (f2 & E2 & A2 & L2).
  exists (f1 ++ f2). rewrite L1, negb_involutive in A2, L2.
  rewrite E2, E1, <- app_assoc, changes_app, A1, A2, last_app_default.
  by rewrite L2.
Qed.

Lemma announces_try_catch c (handler : string -> @Cmd Hass Card) :
  announces c -> (forall msg, announces (handler msg)) ->
  announces (try_catch c handler).
Proof.
  intros H1 H2 st. unfold try_catch.
  destruct (H1 st) as (f1 & E1 & A1 & L1).
  destruct (c st) as [st1 [msg|]]; cbn [fst snd] in *; [|by exists f1].
  destruct (H2 msg st1) as (f2 & E2 & A2 & L2).
  exists (f1 ++ f2). rewrite L1, negb_involutive in A2, L2.
  rewrite E2, E1, <- app_assoc, changes_app, A1, A2, last_app_default.
  by rewrite L2.
Qed.

Lemma announces_done : announces done.
Proof. by apply announces_keeps. Qed.

Lemma announces_when (b : bool) c : announces c -> announces (when b c).
Proof. destruct b; [done|]. intros _. apply announces_done. Qed.

Lemma announces_setElementVisibility v : announces (_setElementVisibility v).
Proof.
  intros st. destruct (_element st) as [el|] eqn:Eel.
  - exists (if Bool.eqb v (negb (hidden st)) then [] else [v]).
    rewrite (setElementVisibility_events v st el Eel),
      (setElementVisibility_hidden v st el Eel).
    split; [done|]. by destruct v, (hidden st).
  - rewrite setElementVisibility_unloaded by done.
    exists []. rewrite app_nil_r. cbn. by rewrite negb_involutive.
Qed.

Lemma announces_updateVisibility forceVisible :
  announces (_updateVisibility forceVisible).
Proof.
  intros st. unfold _updateVisibility.
  destruct (_element st) as [el|]; [|apply announces_done].
  destruct (hass st); [|apply announces_done].
  destruct (card_hidden (el_card el)); apply announces_setElementVisibility.
Qed.

Lemma shown_emit e st : not_announcement e -> shown (emit e st) = shown st.
Proof.
  intros He. unfold shown, visibility_events. cbn. rewrite omap_app. cbn.
  destruct e as [| | | | | | [] | | | |]; cbn in *; try done; by rewrite app_nil_r.
Qed.

Lemma shown_fold {A : Type} (g : A -> @State Hass Card -> @State Hass Card)
  (xs : list A) st :
  (forall x s, shown (g x s) = shown s) ->
  shown (fold_left (fun s x => g x s) xs st) = shown st.
Proof.
  intros Hg. revert st. induction xs as [|x xs IH]; intros st; cbn; [done|].
  by rewrite IH, Hg.
Qed.

Lemma keeps_on_element_shown (log : nat -> @Effect Hass) f :
  (forall id, not_announcement (log id)) -> keeps shown (on_element log f).
Proof.
  intros Hlog st. unfold on_element. destruct (_element st) as [el|]; [|done].
  destruct (f (el_card el)) as [card' r]. cbn [fst].
  transitivity (shown (emit (log (el_id el)) st)); [done|].
  by apply shown_emit.
Qed.

Lemma keeps_assign_element_shown f : keeps shown (assign_element f).
Proof. intros st. unfold assign_element. by destruct (_element st). Qed.

Lemma announces_pushHass : announces pushHass.
Proof.
  apply announces_keeps. intros st. unfold pushHass.
  destruct (hass st); [by apply keeps_on_element_shown | done].
Qed.

Lemma announces_pushPreview : announces pushPreview.
Proof.
  apply announces_keeps, keeps_seq; intros st; by apply keeps_on_element_shown.
Qed.

Lemma announces_loadElement cfg : announces (_loadElement cfg).
Proof.
  unfold _loadElement. repeat apply announces_seq.
  - apply announces_keeps. intros st. cbn [fst]. by rewrite shown_emit.
  - by apply announces_keeps.
  - apply announces_pushHass.
  - apply announces_keeps. intros st. apply keeps_assign_element_shown.
  - apply announces_keeps. intros st. by apply keeps_on_element_shown.
  - apply announces_keeps. intros st. by apply keeps_on_element_shown.
  - apply announces_keeps. intros st. destruct (_element st) as [el|]; [|done].
    cbn [fst]. by rewrite !shown_emit.
  - apply announces_keeps. intros st. cbn [fst lift]. unfold removeAllChildren.
    transitivity
      (shown (fold_left (fun s i => emit (ERemoveChild i) s) (rev (children st)) st));
      [done|].
    apply (shown_fold (fun i s => emit (ERemoveChild i) s)).
    intros i s0. by apply shown_emit.
  - apply announces_updateVisibility.
Qed.

Lemma announces_loadErrorCard message : announces (loadErrorCard message).
Proof.
  intros st. unfold loadErrorCard.
  apply (announces_loadElement _ (set_next_id (S (next_id st)) st)).
Qed.

Lemma announces_updateElement cfg : announces (_updateElement cfg).
Proof.
  intros st. unfold _updateElement. destruct (_element st) as [el|]; [|apply announces_done].
  revert st. apply announces_keeps. repeat apply keeps_seq.
  - by apply keeps_on_element_shown.
  - done.
  - intros st. by apply shown_emit.
Qed.

Lemma announces_update (changedProps : ChangedProps) :
  announces (update changedProps).
Proof.
  unfold update. apply announces_seq.
  - intros st. destruct (_element st) as [el|]; [|apply announces_done].
    revert st. repeat apply announces_seq.
    + apply announces_when. intros st.
      destruct (config st) as [cfg|]; [|apply announces_done].
      destruct (config_differs cfg (_elementConfig st)); [|apply announces_done].
      destruct (_ || _); [apply announces_loadElement | apply announces_updateElement].
    + apply announces_when, announces_try_catch;
        [apply announces_pushHass | apply announces_loadErrorCard].
    + apply announces_when, announces_try_catch;
        [apply announces_pushPreview | apply announces_loadErrorCard].
    + apply announces_when, announces_keeps. intros st.
      apply keeps_assign_element_shown.
    + apply announces_when, announces_keeps. intros st.
      apply keeps_assign_element_shown.
  - apply announces_when, announces_updateVisibility.
Qed.

Lemma shown_clearMediaQueries st : shown (_clearMediaQueries st) = shown st.
Proof.
  unfold _clearMediaQueries.
  transitivity
    (shown (fold_left (fun s l => unsubscribe l s) (_listeners st) st)); [done|].
  apply (shown_fold unsubscribe). intros l s0. unfold unsubscribe.
  by rewrite shown_emit.
Qed.

Lemma shown_listenMediaQueries st : shown (_listenMediaQueries st) = shown st.
Proof.
  unfold _listenMediaQueries.
  destruct (config (_clearMediaQueries st)) as [cfg|];
    [|apply shown_clearMediaQueries].
  destruct (visibility cfg) as [conditions|]; [|apply shown_clearMediaQueries].
  set (ls := newListeners _ _ _ _).
  transitivity
    (shown (fold_left (fun s l => subscribe l s) ls (_clearMediaQueries st)));
    [done|].
  rewrite (shown_fold subscribe); [apply shown_clearMediaQueries|].
  intros l s0. unfold subscribe. by rewrite shown_emit.
Qed.

(** Every way into the host announces exactly the changes of
    visibility it makes. *)
Lemma announces_entry c : entry c -> announces c.
Proof.
  destruct 1.
  - by apply announces_keeps.
  - by apply announces_keeps.
  - by apply announces_keeps.
  - intros st. unfold load. destruct (config st) as [cfg|];
      [apply announces_loadElement | apply announces_done].
  - intros st. unfold willUpdate. destruct (_element st); [apply announces_done|].
    unfold load. destruct (config st) as [cfg|];
      [apply announces_loadElement | apply announces_done].
  - apply announces_update.
  - apply announces_seq; [|apply announces_updateVisibility].
    apply announces_keeps. intros st. apply shown_listenMediaQueries.
  - apply announces_keeps. intros st. apply shown_clearMediaQueries.
  - apply announces_updateVisibility.
  - apply announces_seq; [apply announces_pushHass|].
    apply announces_keeps. intros st. by apply shown_emit.
  - apply announces_seq; [apply announces_loadElement|].
    apply announces_keeps. intros st. by apply shown_emit.
  - apply announces_updateVisibility.
  - apply announces_keeps, keeps_assign_element_shown.
Qed.

Lemma announces_run (cmds : list (@Cmd Hass Card)) :
  Forall entry cmds -> announces (run cmds).
Proof.
  induction 1 as [|c cmds Hc _ IH]; [apply announces_done|].
  apply announces_seq; [by apply announces_entry | exact IH].
Qed.

(** Over a sequence of evaluations given by the values they compute. *)
Lemma setElementVisibility_sequence (vs : list bool) st el :
  _element st = Some el ->
  let r := run (map _setElementVisibility vs) st in
  snd r = None
  /\ visibility_events (trace (fst r)) =
     visibility_events (trace st) ++ changes (negb (hidden st)) vs
  /\ hidden (fst r) = negb (List.last vs (negb (hidden st)))
  /\ (vs <> [] -> attached (el_id el) (fst r) = List.last vs true).
Proof.
  revert st. induction vs as [|v vs IH]; intros st Eel r; subst r.
  - cbn. rewrite app_nil_r, negb_involutive. done.
  - cbn [map]. rewrite run_cons, !last_cons_default.
    pose proof (setElementVisibility_returns v st) as Hret.
    pose proof (setElementVisibility_hidden v st el Eel) as Hhid.
    pose proof (setElementVisibility_events v st el Eel) as Hev.
    pose proof (setElementVisibility_attached v st el Eel) as Hatt.
    pose proof (setElementVisibility_keeps_element v st) as Hkeep.
    destruct (_setElementVisibility v st) as [st1 r1]. cbn in *. subst r1.
    rewrite Eel in Hkeep.
    destruct (IH st1 Hkeep) as (IHret & IHev & IHhid & IHatt).
    split; [done|]. split; [|split].
    + rewrite IHev, Hev, Hhid, negb_involutive, <- app_assoc.
      by destruct (Bool.eqb v (negb (hidden st))).
    + by rewrite IHhid, Hhid, negb_involutive.
    + intros _. destruct vs as [|v' vs]; [done|].
      rewrite IHatt by done. by rewrite !last_cons_default.
Qed.

(** C3: over any sequence of evaluations of a loaded host, given by
    the visibility values they compute, the [card-visibility-changed]
    events fired are exactly the values that differ from the value
    before them (for the first evaluation: from the visibility the host
    had), one event each, so an evaluation that computes the same value
    again fires nothing; the host ends hidden or shown as the last value
    says, with the child detached from the host when that value is
    hidden and attached when it is visible; no evaluation throws.  And
    over any sequence of entries into the host (property assignments,
    updates, lifecycle callbacks, listeners, the child changing), each
    event fired differs from the visibility before it and the host ends
    as the last event says: an event is fired for every change of the
    host's visibility and for nothing else. *)
Theorem visibility_changed_once_per_change :
  (forall (vs : list bool) st el,
      _element st = Some el ->
      let r := run (map _setElementVisibility vs) st in
      snd r = None
      /\ visibility_events (trace (fst r)) =
         visibility_events (trace st) ++ changes (negb (hidden st)) vs
      /\ hidden (fst r) = negb (List.last vs (negb (hidden st)))
      /\ (vs <> [] -> attached (el_id el) (fst r) = List.last vs true))
  /\ (forall (cmds : list (@Cmd Hass Card)) st,
        Forall entry cmds ->
        exists fired,
          visibility_events (trace (fst (run cmds st))) =
          visibility_events (trace st) ++ fired
          /\ changes (negb (hidden st)) fired = fired
          /\ hidden (fst (run cmds st)) =
             negb (List.last fired (negb (hidden st)))).
Proof.
  split.
  - apply setElementVisibility_sequence.
  - intros cmds st Hentries. by apply announces_run.
Qed.

End Props.

(** In the sample implementation an error card accepts everything. *)
Lemma sample_error_card_loads :
  @error_card_loads Samples.SampleHass Samples.SampleCard Samples.sampleHost.
Proof.
  intros ref message st.
  apply (loadElement_returns
           (fun card => type (Samples.sc_config card) = "error")).
  - reflexivity.
  - intros h card Hty. cbn. by rewrite Hty.
  - by intros l card Hty.
  - by intros b card Hty.
  - by intros b card Hty.
Qed.

(** The connected sample host holds every registered subscription;
    disconnecting it leaves none registered. *)
Lemma listeners_unsubscribed_witness :
  tracked Samples.connectedHost
  /\ subscriptions (fst (disconnectedCallback Samples.connectedHost)) = ∅
  /\ subscriptions (_listenMediaQueries Samples.connectedHost)
     = listener_ids (listeners_for Samples.connectedHost)
  /\ tracked (fst (run [update Samples.onlyConfig; disconnectedCallback]
                     Samples.connectedHost)).
Proof.
  assert (tracked Samples.connectedHost) as Htr.
  { unfold tracked. vm_compute. set_solver. }
  split; [exact Htr|].
  destruct listeners_unsubscribed as (Hdis & Hlisten & [_ Hinv] & _).
  destruct (Hdis Samples.connectedHost) as (_ & _ & _ & Hs).
  destruct (Hlisten Samples.connectedHost) as (_ & _ & Hl).
  split; [exact (Hs Htr)|]. split; [exact (Hl Htr)|].
  apply Hinv; [|exact Htr].
  repeat constructor.
Defined.

(** C7 as stated fails: a listener attached for the [visibility]
    conditions of one configuration stays subscribed after [update]
    has handled a change to a configuration without conditions. *)
Lemma listener_outlives_configuration :
  subscriptions_current Samples.connectedHost
  /\ ~ subscriptions_current
        (fst (update Samples.onlyConfig
                (set_config (Some (Samples.cardConfig 2 "tile" None))
                   Samples.connectedHost))).
Proof.
  split.
  - intros l Hin _. exists (Samples.cardConfig 1 "tile" (Some [Samples.wideScreen])).
    split; [reflexivity|].
    destruct Hin as [<- | []]. reflexivity.
  - intros Hc.
    destruct (Hc {| l_id := 1%nat; l_media_query := "(min-width: 1024px)";
                    l_hasOnlyMediaQuery := true;
                    l_conditions := [Samples.wideScreen] |})
      as (cfg & Ecfg & Evis).
    + left. reflexivity.
    + vm_compute. set_solver.
    + vm_compute in Ecfg. injection Ecfg as <-. discriminate Evis.
Qed.

(** Four evaluations, hidden, hidden, visible, visible, on a host that
    starts visible: two events, and the child ends attached.  And a
    card that hides itself, loaded, updated and connected: what the
    host fires are changes of its visibility. *)
Lemma visibility_changed_once_per_change_witness :
  let st := Samples.loadedHost (Samples.cardConfig 1 "tile" None) (Some true) false in
  let st0 := set_hass (Some true)
               (set_config (Some (Samples.cardConfig 1 "empty" None))
                  (@initial Samples.SampleHass Samples.SampleCard)) in
  _element st = Some {| el_id := 0%nat; el_card := createCardElement (Samples.cardConfig 1 "tile" None) |}
  /\ visibility_events
       (trace (fst (run (map _setElementVisibility [false; false; true; true]) st)))
     = [false; true]
  /\ attached 0 (fst (run (map _setElementVisibility [false; false; true; true]) st))
     = true
  /\ exists fired,
      visibility_events
        (trace (fst (run [load; update Samples.onlyHass; connectedCallback] st0)))
      = fired
      /\ changes true fired = fired.
Proof.
  cbn zeta. split; [reflexivity|].
  destruct (proj1 visibility_changed_once_per_change [false; false; true; true]
              (Samples.loadedHost (Samples.cardConfig 1 "tile" None) (Some true) false)
              _ eq_refl) as (_ & Hev & _ & Hatt).
  split; [exact Hev|]. split; [apply Hatt; discriminate|].
  destruct (proj2 visibility_changed_once_per_change
              [load; update Samples.onlyHass; connectedCallback]
              (set_hass (Some true)
                 (set_config (Some (Samples.cardConfig 1 "empty" None))
                    (@initial Samples.SampleHass Samples.SampleCard))))
    as (fired & Hfired & Hchanges & _).
  { repeat constructor. }
  exists fired. split; [exact Hfired | exact Hchanges].
Defined.

(** With the house empty the card that shows only when it is occupied
    is hidden, unless visibility is forced. *)
Lemma updateVisibility_computed_witness :
  let st := Samples.loadedHost
              (Samples.cardConfig 1 "tile" (Some [Samples.occupied])) (Some false) false in
  hidden (fst (_updateVisibility None st)) = true
  /\ hidden (fst (_updateVisibility (Some true) st)) = false.
Proof.
  cbn zeta.
  pose (st := Samples.loadedHost
                (Samples.cardConfig 1 "tile" (Some [Samples.occupied])) (Some false) false).
  destruct (updateVisibility_computed None st _ false eq_refl eq_refl)
    as (_ & _ & Hn).
  destruct (updateVisibility_computed (Some true) st _ false eq_refl eq_refl)
    as (_ & _ & Hf).
  split.
  - apply not_false_iff_true. intros E. apply (proj1 (Hn eq_refl)) in E.
    destruct E as [E | [E | [E | (cfg & conds & E1 & E2 & E3)]]]; try discriminate.
    + specialize (E _ eq_refl). discriminate.
    + injection E1 as <-. injection E2 as <-. discriminate.
  - apply (Hf eq_refl). by left.
Defined.

End HostProps.

(** *** The tile card *)

Module TileProps.

Import HuiTileCard.

Section Props.

Context `{TileEnv}.

Implicit Types (config : gmap string JsVal) (st : State).

Lemma str_field_Some config key value :
  str_field config key = Some value <-> config !! key = Some (JStr value).
Proof.
  unfold str_field. destruct (config !! key) as [[]|]; split; congruence.
Qed.

(** Object spread over the defaults: the later operand, the user
    configuration, wins on every key it has, and only the two action
    keys can come from the defaults. *)
Lemma stored_other_key config (entityId key : string) :
  key <> "tap_action" -> key <> "icon_tap_action" ->
  (config ∪ defaults entityId) !! key = config !! key.
Proof.
  intros Hk1 Hk2. destruct (config !! key) as [value|] eqn:Ek.
  - by apply lookup_union_Some_l.
  - rewrite lookup_union_r by done. unfold defaults.
    rewrite lookup_insert_ne by done. by apply lookup_singleton_ne.
Qed.

(** The default icon action is "toggle" exactly for the toggleable
    domains and for buttons, input buttons and scenes. *)
Lemma getEntityDefaultTileIconAction_cases (entityId : string) :
  let domain := computeDomain entityId in
  (domain ∈ DOMAINS_TOGGLE \/ In domain ["button"; "input_button"; "scene"] ->
   getEntityDefaultTileIconAction entityId = "toggle")
  /\ (~ (domain ∈ DOMAINS_TOGGLE \/ In domain ["button"; "input_button"; "scene"]) ->
      getEntityDefaultTileIconAction entityId = "more-info").
Proof.
  cbn zeta. unfold getEntityDefaultTileIconAction.
  set (domain := computeDomain entityId).
  destruct (bool_decide (domain ∈ DOMAINS_TOGGLE)) eqn:Et.
  - apply bool_decide_eq_true in Et. split; [done|]. intros Hn. destruct Hn. by left.
  - apply bool_decide_eq_false in Et. cbn [orb].
    destruct (existsb (String.eqb domain) ["button"; "input_button"; "scene"]) eqn:Eb.
    + split; [done|]. intros Hn. destruct Hn. right.
      apply existsb_exists in Eb. destruct Eb as (d & Hin & Heq).
      apply String.eqb_eq in Heq. by subst d.
    + split; [|done]. intros [Ht | Hb]; [done|].
      assert (existsb (String.eqb domain) ["button"; "input_button"; "scene"] = true)
        as Hc; [|congruence].
      apply existsb_exists. exists domain. split; [done|]. apply String.eqb_refl.
Qed.


(** C6, as the code has it: for a light that reports a saturated
    colour and a configuration with a (non-empty) override colour, the
    computed colour is the CSS colour of the override while the entity
    is active and is undefined while it is not; the colour of the light
    is used in neither case. *)
Theorem computeStateColor_override (entity : HassEntity) (color : string) :
  computeDomain (entity_id entity) = "light" ->
  saturated entity ->
  color <> "" ->
  _computeStateColor entity (Some color) =
  if stateActive entity then Some (computeCssColor color) else None.
Proof.
  intros _ _ Hcolor. unfold _computeStateColor. cbn [truthy_str].
  apply String.eqb_neq in Hcolor. by rewrite Hcolor.
Qed.

(** Without an override the colour of a saturated light is the colour
    the light reports, converted unchanged. *)
Lemma computeStateColor_light (entity : HassEntity) rgb :
  computeDomain (entity_id entity) = "light" ->
  rgb_color (attributes entity) = Some rgb ->
  PrimFloat.ltb (snd (fst (rgb2hsv rgb))) 0.4%float = false ->
  _computeStateColor entity None = Some (rgb2hex (hsv2rgb (rgb2hsv rgb))).
Proof.
  intros Hd Hrgb Hsat. unfold _computeStateColor. cbn [truthy_str].
  rewrite Hd, Hrgb. cbn.
  destruct (rgb2hsv rgb) as [[hue sat] val]. cbn in Hsat. by rewrite Hsat.
Qed.

(** X29: when the configured entity has no entry in the states of the
    live state, and does not name a member the states object inherits
    either, [render] returns a template (it does not throw, and it is
    not [nothing]) that holds the help icon, the "not-found" badge
    with the exclamation icon, and the entity id with the localized
    not-found label, and in which no element has an event listener, an
    action handler, a [role] or a [tabindex]. *)
Theorem render_not_found st config (h : HomeAssistant) :
  _config st = Some config ->
  hass st = Some h ->
  (forall entityId, config !! "entity" = Some (JStr entityId) ->
     states h !! entityId = None /\ entityId ∉ states_inherited h) ->
  exists template,
    render st = Template template
    /\ template <> Nothing
    /\ In (Element "ha-tile-icon" []
             [Element "ha-svg-icon" [Property "path" (PStr mdiHelp)] []])
          (subtemplates template)
    /\ In (Element "ha-tile-badge" [Attribute "class" "not-found"]
             [Element "ha-svg-icon" [Property "path" (PStr mdiExclamationThick)] []])
          (subtemplates template)
    /\ In (Element "ha-tile-info"
             [Property "primary" (PJs (field config "entity"));
              Attribute "secondary" (localize h "ui.card.tile.not_found")]
             [])
          (subtemplates template)
    /\ has_affordance template = false.
Proof.
  intros Ec Eh Hmissing. unfold render. rewrite Ec, Eh. cbn zeta.
  assert (match str_field config "entity" with
          | Some id => if String.eqb id "" then None else states_read h id
          | None => None
          end = None) as ->.
  { destruct (str_field config "entity") as [id|] eqn:Ee; [|done].
    apply str_field_Some in Ee. destruct (Hmissing id Ee) as [Hown Hinh].
    unfold states_read. rewrite Hown, (bool_decide_eq_false_2 _ Hinh).
    by destruct (String.eqb id ""). }
  eexists. split; [reflexivity|].
  split; [done|]. cbn. repeat split; auto 10.
Qed.

(** By contrast, the template of an entity the live state knows
    always carries affordances: the action listeners of the background
    and of the icon. *)
Lemma render_found_has_affordance st config (h : HomeAssistant)
  (entityId : string) (stateObj : HassEntity) :
  _config st = Some config ->
  hass st = Some h ->
  has_entity_id config entityId ->
  states h !! entityId = Some stateObj ->
  exists template,
    render st = Template template /\ has_affordance template = true.
Proof.
  intros Ec Eh [Ee Hne] Es. unfold render. rewrite Ec, Eh.
  apply str_field_Some in Ee. rewrite Ee.
  apply String.eqb_neq in Hne. rewrite Hne. unfold states_read. rewrite Es.
  eexists. split; reflexivity.
Qed.

End Props.


(** A red light that is on shows the override colour. *)
Lemma computeStateColor_override_witness :
  _computeStateColor Samples.redLightOn (Some "amber") = Some "var(--amber-color)".
Proof.
  rewrite (computeStateColor_override Samples.redLightOn "amber").
  - reflexivity.
  - reflexivity.
  - exists (255%float, 0%float, 0%float). split; reflexivity.
  - discriminate.
Defined.

(** C6 as stated fails: a light that is off, still reporting a
    saturated colour, gets no colour at all under an override. *)
Lemma override_color_inactive_light :
  computeDomain (entity_id Samples.redLightOff) = "light"
  /\ saturated Samples.redLightOff
  /\ _computeStateColor Samples.redLightOff (Some "amber") = None
  /\ _computeStateColor Samples.redLightOff (Some "amber")
     <> Some (computeCssColor "amber").
Proof.
  split; [reflexivity|]. split.
  - exists (255%float, 0%float, 0%float). split; reflexivity.
  - split; [reflexivity | discriminate].
Qed.

(** A tile for an entity the live state does not know. *)
Lemma render_not_found_witness :
  exists template,
    render {| hass := Some (Samples.sampleHomeAssistant [Samples.redLightOn]);
              _config := Some {[ "entity" := JStr "light.attic" ]} |}
    = Template template
    /\ has_affordance template = false.
Proof.
  destruct (render_not_found
              {| hass := Some (Samples.sampleHomeAssistant [Samples.redLightOn]);
                 _config := Some {[ "entity" := JStr "light.attic" ]} |}
              {[ "entity" := JStr "light.attic" ]}
              (Samples.sampleHomeAssistant [Samples.redLightOn])
              eq_refl eq_refl) as (template & Hr & _ & _ & _ & _ & Ha).
  - intros entityId He. rewrite lookup_singleton_eq in He. injection He as <-.
    split; [reflexivity|]. vm_compute. set_solver.
  - exists template. split; [exact Hr | exact Ha].
Defined.

(** C8: the claim fails for an entity id that names a member every
    ordinary object inherits.  The live state has no entry for the
    entity "constructor", which [setConfig] accepts, but on a states
    object that is an ordinary object the member read finds the
    inherited constructor; [render] takes the branch of an entity that
    was found and throws on reading its attributes, so there is no
    placeholder. *)
Theorem inherited_member_is_not_placeholder :
  snd (setConfig {[ "type" := JStr "tile"; "entity" := JStr "constructor" ]}
         Samples.emptyTile) = None
  /\ _config Samples.constructorCard
     = _config (fst (setConfig {[ "type" := JStr "tile";
                                 "entity" := JStr "constructor" ]}
                      Samples.emptyTile))
  /\ (exists h, hass Samples.constructorCard = Some h
                /\ states h !! "constructor" = None)
  /\ render Samples.constructorCard
     = Throws "TypeError: stateObj.attributes is undefined"
  /\ (forall template, render Samples.constructorCard <> Template template).
Proof.
  split; [reflexivity|]. split; [reflexivity|]. split.
  - eexists. split; reflexivity.
  - assert (render Samples.constructorCard
            = Throws "TypeError: stateObj.attributes is undefined") as ->
      by reflexivity.
    split; [reflexivity | discriminate].
Qed.

End TileProps.

(** *** Size and layout hints *)

Module SizeHints.

Section Hints.

Context {Hass Card : Type} `{HuiCard.HostEnv Hass Card} `{HuiTileCard.TileEnv}.

(** Object spread: the later operand wins on every key it has, the
    earlier one supplies the others. *)
Lemma union_lookup_spread (later earlier : gmap string JsVal) (k : string) :
  (later ∪ earlier) !! k =
  match later !! k with
  | Some v => Some v
  | None => earlier !! k
  end.
Proof.
  destruct (later !! k) as [v|] eqn:E.
  - by apply lookup_union_Some_l.
  - by rewrite lookup_union_r.
Qed.

(** C9: with a loaded child, [getLayoutOptions] returns the child's
    reported layout options overridden key by key by the
    configuration's [layout_options]: a key present in the
    configuration's options has the configuration's value, every other
    key has the value the child reports (if any). *)
Theorem getLayoutOptions_config_overrides_card
  (st : HuiCard.State) (el : HuiCard.Element) (k : string) :
  HuiCard._element st = Some el ->
  HuiCard.getLayoutOptions st !! k =
  match HuiCard.configOptions st !! k with
  | Some v => Some v
  | None => default ∅ (HuiCard.card_getLayoutOptions (HuiCard.el_card el)) !! k
  end.
Proof.
  intros Hel. unfold HuiCard.getLayoutOptions. rewrite Hel.
  apply union_lookup_spread.
Qed.

(** C10: a host without a child reports size 1 (with a child it
    reports what [computeCardSize] says of the child); a tile card
    reports 1, plus 1 when [vertical] is set, plus the number of
    configured features, for the configuration it holds and so for
    the configuration [setConfig] was given; without a configuration
    it reports 1; the size is at least 1 in every case. *)
Theorem getCardSize_hints :
  (forall st : HuiCard.State,
      HuiCard.getCardSize st =
      match HuiCard._element st with
      | None => HuiCard.SizeNow 1
      | Some el => HuiCard.computeCardSize (HuiCard.el_card el)
      end)
  /\ (forall st : HuiTileCard.State,
        HuiTileCard.getCardSize st =
        match HuiTileCard._config st with
        | Some stored => HuiTileCard.tile_size stored
        | None => 1
        end)
  /\ (forall (config : gmap string JsVal) (st : HuiTileCard.State),
        snd (HuiTileCard.setConfig config st) = None ->
        HuiTileCard.getCardSize (fst (HuiTileCard.setConfig config st))
        = HuiTileCard.tile_size config)
  /\ (forall st : HuiTileCard.State, 1 <= HuiTileCard.getCardSize st).
Proof.
  assert (forall st : HuiTileCard.State,
             HuiTileCard.getCardSize st =
             match HuiTileCard._config st with
             | Some stored => HuiTileCard.tile_size stored
             | None => 1
             end) as Hsize.
  { intros st. unfold HuiTileCard.getCardSize, HuiTileCard.vertical,
      HuiTileCard.features_length, HuiTileCard.tile_size.
    destruct (HuiTileCard._config st) as [stored|]; [|done].
    by destruct (stored !! "features") as [[]|]. }
  split; [|split; [|split]].
  - intros st. unfold HuiCard.getCardSize. by destruct (HuiCard._element st).
  - exact Hsize.
  - intros config st. rewrite Hsize. unfold HuiTileCard.setConfig.
    destruct (HuiTileCard.str_field config "entity") as [entityId|]; [|done].
    destruct (String.eqb entityId ""); [done|]. intros _. cbn [fst HuiTileCard._config].
    unfold HuiTileCard.tile_size, HuiTileCard.field.
    by rewrite !TileProps.stored_other_key.
  - intros st. rewrite Hsize. destruct (HuiTileCard._config st) as [stored|]; [|lia].
    unfold HuiTileCard.tile_size. destruct (truthy _); destruct (stored !! "features") as [[]|]; lia.
Qed.

End Hints.

(** The configuration's [grid_rows] replaces the child's, the child's
    [grid_columns] is kept. *)
Lemma getLayoutOptions_config_overrides_card_witness :
  HuiCard._element Samples.layoutHost = Some Samples.layoutElement
  /\ HuiCard.getLayoutOptions Samples.layoutHost !! "grid_rows" = Some (JNum 3)
  /\ HuiCard.getLayoutOptions Samples.layoutHost !! "grid_columns" = Some (JNum 2).
Proof.
  split; [reflexivity|]. split.
  - rewrite (getLayoutOptions_config_overrides_card
               Samples.layoutHost Samples.layoutElement "grid_rows" eq_refl).
    reflexivity.
  - rewrite (getLayoutOptions_config_overrides_card
               Samples.layoutHost Samples.layoutElement "grid_columns" eq_refl).
    reflexivity.
Defined.

(** A vertical tile with two features has size 4. *)
Lemma getCardSize_hints_witness :
  HuiTileCard.getCardSize
    (fst (HuiTileCard.setConfig
            {[ "entity" := JStr "light.bed"; "vertical" := JBool true;
               "features" := JArr [JObj [("type", JStr "light-brightness")];
                                   JObj [("type", JStr "light-color-temp")]] ]}
            Samples.emptyTile))
  = 4.
Proof.
  destruct getCardSize_hints as (_ & _ & Hset & _).
  rewrite Hset; reflexivity.
Defined.

End SizeHints.

(** *** The card host: loading, lifecycle and the render tree *)

Module HostMore.

Import HuiCard.

Local Open Scope list_scope.

Section Props.

Context {Hass Card : Type} `{HostEnv Hass Card}.

Implicit Types (st : @State Hass Card) (c : @Cmd Hass Card)
  (e : @Effect Hass) (el : @Element Card) (cfg : LovelaceCardConfig).

Local Abbreviation keeps := (@HuiCard.keeps Hass Card _).
Local Abbreviation triple := (@HuiCard.triple Hass Card).
Local Abbreviation stays := (@HuiCard.stays Hass Card).
Local Abbreviation preserves := (@HuiCard.preserves Hass Card).
Local Abbreviation done := (@HuiCard.done Hass Card).
Local Abbreviation lift := (@HuiCard.lift Hass Card).

(** **** Commands that return *)

Lemma triple_weaken (P P' Q Q' : @State Hass Card -> Prop) c :
  (forall st, P' st -> P st) -> (forall st, Q st -> Q' st) ->
  triple P c Q -> triple P' c Q'.
Proof. intros HP HQ Hc st HP' Hr. by apply HQ, Hc; [apply HP|]. Qed.

Lemma triple_done (P : @State Hass Card -> Prop) : triple P done P.
Proof. by intros st HP _. Qed.

Lemma triple_seq (P R Q : @State Hass Card -> Prop) c1 c2 :
  triple P c1 R -> triple R c2 Q -> triple P (seq c1 c2) Q.
Proof.
  intros H1 H2 st HP. unfold seq. specialize (H1 st HP).
  destruct (c1 st) as [st1 [msg|]]; cbn [fst snd] in *; [done|].
  intros Hr. by apply H2; [apply H1|].
Qed.

Lemma triple_when (P : @State Hass Card -> Prop) (b : bool) c :
  triple P c P -> triple P (when b c) P.
Proof. destruct b; [done|]. intros _. apply triple_done. Qed.

Lemma triple_try_catch (P Q : @State Hass Card -> Prop) c
  (handler : string -> @Cmd Hass Card) :
  triple P c Q ->
  (forall msg, triple (fun _ => True) (handler msg) Q) ->
  triple P (try_catch c handler) Q.
Proof.
  intros H1 H2 st HP. unfold try_catch. specialize (H1 st HP).
  destruct (c st) as [st1 [msg|]]; cbn [fst snd] in *.
  - by apply H2.
  - intros _. by apply H1.
Qed.

Lemma triple_keeps {A : Type} (f : @State Hass Card -> A) (R : A -> Prop) c :
  keeps f c -> triple (fun st => R (f st)) c (fun st => R (f st)).
Proof. intros Hk st HR _. by rewrite Hk. Qed.

(** **** What the commands leave alone *)

Lemma keeps_on_element_placed log f : keeps placed (on_element log f).
Proof.
  intros st. unfold on_element, placed.
  destruct (_element st) as [el|] eqn:E; cbn; [|by rewrite ?E].
  by destruct (f (el_card el)).
Qed.

Lemma keeps_assign_element_placed f : keeps placed (assign_element f).
Proof.
  intros st. unfold assign_element, placed.
  destruct (_element st) as [el|] eqn:E; cbn; by rewrite ?E.
Qed.

Lemma keeps_pushHass_placed : keeps placed pushHass.
Proof.
  intros st. unfold pushHass.
  destruct (hass st); [apply keeps_on_element_placed | done].
Qed.

Lemma keeps_pushPreview_placed : keeps placed pushPreview.
Proof. apply HostProps.keeps_seq; intros st; apply keeps_on_element_placed. Qed.

Lemma keeps_updateElement_placed cfg : keeps placed (_updateElement cfg).
Proof.
  intros st. unfold _updateElement. destruct (_element st) as [el|] eqn:E; [|done].
  revert st E. intros st _.
  apply (HostProps.keeps_seq placed); [apply keeps_on_element_placed|].
  apply HostProps.keeps_seq; by intros s.
Qed.

Lemma keeps_on_element_inputs log f : keeps inputs (on_element log f).
Proof.
  intros st. unfold on_element. destruct (_element st) as [el|]; [|done].
  by destruct (f (el_card el)).
Qed.

Lemma keeps_assign_element_inputs f : keeps inputs (assign_element f).
Proof. intros st. unfold assign_element. by destruct (_element st). Qed.

Lemma keeps_setElementVisibility_inputs v : keeps inputs (_setElementVisibility v).
Proof.
  intros st. unfold _setElementVisibility.
  destruct (_element st) as [el|]; [|done]. repeat case_match; done.
Qed.

Lemma keeps_updateVisibility_inputs forceVisible :
  keeps inputs (_updateVisibility forceVisible).
Proof.
  intros st. unfold _updateVisibility.
  destruct (_element st) as [el|]; [|done]. destruct (hass st); [|done].
  destruct (card_hidden (el_card el)); apply keeps_setElementVisibility_inputs.
Qed.

Lemma keeps_pushHass_inputs : keeps inputs pushHass.
Proof.
  intros st. unfold pushHass.
  destruct (hass st); [apply keeps_on_element_inputs | done].
Qed.

Lemma keeps_pushPreview_inputs : keeps inputs pushPreview.
Proof. apply HostProps.keeps_seq; intros st; apply keeps_on_element_inputs. Qed.

Lemma keeps_loadElement_inputs cfg : keeps inputs (_loadElement cfg).
Proof.
  unfold _loadElement. repeat apply HostProps.keeps_seq.
  - done.
  - done.
  - apply keeps_pushHass_inputs.
  - intros s. apply keeps_assign_element_inputs.
  - intros s. apply keeps_on_element_inputs.
  - intros s. apply keeps_on_element_inputs.
  - intros s. by destruct (_element s).
  - intros s. cbn. unfold inputs, removeAllChildren. cbn.
    by rewrite (HostProps.fold_emit_frame preview),
      (HostProps.fold_emit_frame hass), (HostProps.fold_emit_frame config).
  - apply keeps_updateVisibility_inputs.
Qed.

Lemma keeps_loadErrorCard_inputs message : keeps inputs (loadErrorCard message).
Proof.
  intros st. unfold loadErrorCard. by rewrite keeps_loadElement_inputs.
Qed.

Lemma keeps_updateElement_inputs cfg : keeps inputs (_updateElement cfg).
Proof.
  intros st. unfold _updateElement. destruct (_element st) as [el|] eqn:E; [|done].
  revert st E. intros st _.
  apply (HostProps.keeps_seq inputs); [apply keeps_on_element_inputs|].
  apply HostProps.keeps_seq; by intros s.
Qed.

Lemma keeps_pair {A B : Type} (f : @State Hass Card -> A)
  (g : @State Hass Card -> B) c :
  keeps f c -> keeps g c -> keeps (fun st => (f st, g st)) c.
Proof. intros Hf Hg st. by rewrite Hf, Hg. Qed.

Lemma keeps_pushHass_shown : keeps shown pushHass.
Proof.
  intros st. unfold pushHass.
  destruct (hass st); [by apply HostProps.keeps_on_element_shown | done].
Qed.

Lemma keeps_pushPreview_shown : keeps shown pushPreview.
Proof.
  apply HostProps.keeps_seq; intros st; by apply HostProps.keeps_on_element_shown.
Qed.

Lemma seq_ext (c a b : @Cmd Hass Card) :
  (forall s, a s = b s) -> forall s, seq c a s = seq c b s.
Proof. intros Hab s. unfold seq. destruct (c s) as [s1 [msg|]]; [done|apply Hab]. Qed.

Lemma seq_returned (c1 c2 : @Cmd Hass Card) st s1 :
  c1 st = (s1, None) -> seq c1 c2 st = c2 s1.
Proof. intros E. unfold seq. by rewrite E. Qed.

Lemma seq_thrown (c1 c2 : @Cmd Hass Card) st s1 msg :
  c1 st = (s1, Some msg) -> seq c1 c2 st = (s1, Some msg).
Proof. intros E. unfold seq. by rewrite E. Qed.

(** **** Loading *)

Lemma setElementVisibility_on_empty_tree v st el :
  _element st = Some el -> children st = [] ->
  children (fst (_setElementVisibility v st)) = if v then [el_id el] else [].
Proof.
  intros Eel Ech. unfold _setElementVisibility. rewrite Eel.
  set (st1 := if negb (Bool.eqb (hidden st) (negb v)) then _ else st).
  assert (children st1 = []) as Ech1.
  { subst st1. by destruct (negb (Bool.eqb (hidden st) (negb v))). }
  assert (attached (el_id el) st1 = false) as ->.
  { apply HostProps.attached_false. rewrite Ech1. apply not_elem_of_nil. }
  destruct v; cbn; by rewrite Ech1.
Qed.

Lemma updateVisibility_on_empty_tree forceVisible st el :
  _element st = Some el -> children st = [] ->
  let st' := fst (_updateVisibility forceVisible st) in
  children st' =
    match hass st with
    | None => []
    | Some _ => if hidden st' then [] else [el_id el]
    end
  /\ (hass st = None -> st' = st).
Proof.
  intros Eel Ech. cbn zeta. unfold _updateVisibility. rewrite Eel.
  destruct (hass st) as [h|]; [|done]. split; [|done].
  destruct (card_hidden (el_card el)).
  - rewrite (HostProps.setElementVisibility_hidden false st el Eel).
    by rewrite (setElementVisibility_on_empty_tree false st el).
  - rewrite (HostProps.setElementVisibility_hidden _ st el Eel).
    rewrite (setElementVisibility_on_empty_tree _ st el) by done.
    by destruct (_ || _).
Qed.

(** What [_loadElement] has done by the time it re-evaluates the
    visibility: the host holds the new element, the render tree is
    empty, and neither the reactive properties nor the visibility of
    the host have changed. *)
Lemma loadElement_before_visibility cfg st :
  exists before : @Cmd Hass Card,
    (forall s, _loadElement cfg s = seq before (_updateVisibility None) s)
    /\ (snd (before st) = None ->
        placed (fst (before st)) = ([], Some (next_id st))
        /\ inputs (fst (before st)) = inputs st
        /\ shown (fst (before st)) = shown st).
Proof.
  unfold _loadElement.
  match goal with
  | |- context [seq ?c0 (seq ?c1 (seq ?c2 (seq ?c3 (seq ?c4 (seq ?c6 (seq ?c7 ?c8))))))] =>
      exists (seq c0 (seq (seq c1 (seq c2 (seq c3 (seq c4 c6)))) c7));
      assert (keeps (fun s => ((placed s, inputs s), shown s))
                (seq c1 (seq c2 (seq c3 (seq c4 c6))))) as Hmid
  end.
  { repeat apply HostProps.keeps_seq.
    - done.
    - apply keeps_pair; [apply keeps_pair|];
        [apply keeps_pushHass_placed | apply keeps_pushHass_inputs
        | apply keeps_pushHass_shown].
    - intros s. f_equal; [f_equal|];
        [apply keeps_assign_element_placed | apply keeps_assign_element_inputs
        | apply HostProps.keeps_assign_element_shown].
    - intros s. f_equal; [f_equal|];
        [apply keeps_on_element_placed | apply keeps_on_element_inputs
        | by apply HostProps.keeps_on_element_shown].
    - intros s. f_equal; [f_equal|];
        [apply keeps_on_element_placed | apply keeps_on_element_inputs
        | by apply HostProps.keeps_on_element_shown].
    - intros s. destruct (_element s) as [el|] eqn:E; [|done]. cbn [fst].
      rewrite !HostProps.shown_emit by done. unfold placed. cbn. by rewrite E. }
  split.
  - intros s.
    repeat first [rewrite HostProps.seq_assoc | apply seq_ext; intros ?].
    reflexivity.
  - erewrite seq_returned by reflexivity.
    set (s0 := emit _ _).
    specialize (Hmid s0).
    destruct (seq _ _ s0) as [s1 [msg|]] eqn:Emid; cbn [fst snd] in *;
      [by rewrite (seq_thrown _ _ _ _ _ Emid)|].
    rewrite (seq_returned _ _ _ _ Emid).
    intros _. injection Hmid as Hc He Hp Hh Hcf Hhid Hv.
    unfold lift. cbn [fst]. unfold placed, inputs, shown, removeAllChildren.
    cbn [children _element preview hass config hidden trace set_children].
    rewrite !(HostProps.fold_emit_frame _element),
      !(HostProps.fold_emit_frame preview), !(HostProps.fold_emit_frame hass),
      !(HostProps.fold_emit_frame config), !(HostProps.fold_emit_frame hidden)
      by done.
    rewrite He, Hp, Hh, Hcf, Hhid. split; [done|]. split; [done|]. f_equal.
    rewrite (HostProps.trace_fold_emit ERemoveChild).
    unfold visibility_events in *. rewrite omap_app, Hv, omap_app.
    cbn. rewrite app_nil_r.
    clear. induction (rev (children s1)) as [|i l IH]; [by rewrite app_nil_r|].
    cbn. exact IH.
Qed.

(** **** The render tree *)

Lemma fold_frame {A B : Type} (obs : @State Hass Card -> B)
  (g : A -> @State Hass Card -> @State Hass Card) (xs : list A) st :
  (forall x s, obs (g x s) = obs s) ->
  obs (fold_left (fun s x => g x s) xs st) = obs st.
Proof.
  intros Hg. revert st. induction xs as [|x xs IH]; intros st; cbn; [done|].
  by rewrite IH, Hg.
Qed.

Lemma placed_clearMediaQueries st : placed (_clearMediaQueries st) = placed st.
Proof.
  unfold _clearMediaQueries.
  change (placed (set_listeners [] ?s)) with (placed s).
  by apply (fold_frame placed (fun l s => unsubscribe l s)).
Qed.

Lemma placed_listenMediaQueries st : placed (_listenMediaQueries st) = placed st.
Proof.
  unfold _listenMediaQueries. rewrite <- (placed_clearMediaQueries st).
  destruct (config (_clearMediaQueries st)) as [c|]; [|done].
  destruct (visibility c) as [conditions|]; [|done].
  change (placed (set_listeners ?l (set_next_id ?n ?s))) with (placed s).
  by apply (fold_frame placed (fun l s => subscribe l s)).
Qed.

Lemma single_child_keeps c :
  keeps placed c -> triple single_child c single_child.
Proof.
  intros Hk st Hs _. specialize (Hk st). unfold placed in Hk.
  injection Hk as Hc He. unfold single_child. by rewrite Hc, He.
Qed.

Lemma single_child_setElementVisibility v :
  triple single_child (_setElementVisibility v) single_child.
Proof.
  intros st Hs _. unfold _setElementVisibility.
  destruct (_element st) as [el|] eqn:Eel; [|done].
  set (st1 := if negb (Bool.eqb (hidden st) (negb v)) then _ else st).
  assert (placed st1 = placed st) as Hp.
  { subst st1. destruct (negb (Bool.eqb (hidden st) (negb v))); [|done].
    unfold placed. cbn. by rewrite Eel. }
  unfold placed in Hp. injection Hp as Hc He. rewrite Eel in He.
  unfold single_child in Hs. rewrite Eel in Hs. cbn in Hs.
  destruct (children st) as [|c [|c' rest]] eqn:Ech; [| |done].
  - assert (attached (el_id el) st1 = false) as ->.
    { apply HostProps.attached_false. rewrite Hc. apply not_elem_of_nil. }
    destruct v; cbn [negb andb fst].
    + unfold single_child, appendChild. cbn. by rewrite Hc, He.
    + unfold single_child. by rewrite Hc.
  - injection Hs as <-.
    assert (attached (el_id el) st1 = true) as ->.
    { apply HostProps.attached_true. rewrite Hc. apply list_elem_of_here. }
    destruct v; cbn [negb andb fst].
    + unfold single_child. by rewrite Hc, He.
    + unfold single_child, removeChild. cbn. rewrite Hc. cbn.
      by destruct (decide (el_id el <> el_id el)).
Qed.

Lemma single_child_updateVisibility forceVisible :
  triple single_child (_updateVisibility forceVisible) single_child.
Proof.
  intros st Hs. unfold _updateVisibility.
  destruct (_element st) as [el|]; [|done].
  destruct (hass st) as [h|]; [|done].
  destruct (card_hidden (el_card el));
    by apply single_child_setElementVisibility.
Qed.

Lemma single_child_loadElement cfg :
  triple (fun _ => True) (_loadElement cfg) single_child.
Proof.
  intros st _.
  destruct (loadElement_before_visibility cfg st) as (before & Heq & Hb).
  rewrite Heq. destruct (before st) as [s1 [msg|]] eqn:E.
  { by rewrite (seq_thrown _ _ _ _ _ E). }
  rewrite (seq_returned _ _ _ _ E).
  destruct (Hb eq_refl) as (Hp & _ & _). cbn [fst] in Hp.
  apply single_child_updateVisibility.
  unfold placed in Hp. injection Hp as Hc _.
  unfold single_child. by rewrite Hc.
Qed.

Lemma single_child_loadErrorCard message :
  triple (fun _ => True) (loadErrorCard message) single_child.
Proof. intros st _. unfold loadErrorCard. by apply single_child_loadElement. Qed.

Lemma triple_guarded (P : @State Hass Card -> Prop) (c : @Cmd Hass Card) :
  triple P c P ->
  triple P (fun st => match _element st with
                      | None => (st, None)
                      | Some _ => c st
                      end) P.
Proof.
  intros Hc st HP. cbn beta. destruct (_element st); [by apply Hc | done].
Qed.

Lemma single_child_update (changedProps : ChangedProps) :
  triple single_child (update changedProps) single_child.
Proof.
  unfold update. apply triple_seq with single_child;
    [|apply triple_when, single_child_updateVisibility].
  apply triple_guarded.
  repeat (apply triple_seq with single_child); try apply triple_when.
  - intros st Hs. cbn zeta. destruct (config st) as [c|]; [|done].
    destruct (config_differs c (_elementConfig st)); [|done].
    destruct (_ || _).
    + by apply single_child_loadElement.
    + by apply single_child_keeps; [apply keeps_updateElement_placed|].
  - apply triple_try_catch;
      [apply single_child_keeps, keeps_pushHass_placed
      | apply single_child_loadErrorCard].
  - apply triple_try_catch;
      [apply single_child_keeps, keeps_pushPreview_placed
      | apply single_child_loadErrorCard].
  - intros st Hs.
    by apply (single_child_keeps _ (keeps_assign_element_placed _)).
  - intros st Hs.
    by apply (single_child_keeps _ (keeps_assign_element_placed _)).
Qed.

Lemma single_child_load : triple single_child load single_child.
Proof.
  intros st _. unfold load. destruct (config st) as [cfg|]; [|done].
  by apply single_child_loadElement.
Qed.

Lemma single_child_entry c : entry c -> triple single_child c single_child.
Proof.
  destruct 1.
  - by apply single_child_keeps.
  - by apply single_child_keeps.
  - by apply single_child_keeps.
  - apply single_child_load.
  - intros st Hs. unfold willUpdate. destruct (_element st); [done|].
    by apply single_child_load.
  - apply single_child_update.
  - apply triple_seq with single_child;
      [|apply single_child_updateVisibility].
    apply single_child_keeps. intros st. apply placed_listenMediaQueries.
  - apply single_child_keeps. intros st. apply placed_clearMediaQueries.
  - apply single_child_updateVisibility.
  - apply triple_seq with single_child;
      [apply single_child_keeps, keeps_pushHass_placed
      | by apply single_child_keeps].
  - apply triple_seq with single_child; [|by apply single_child_keeps].
    apply triple_weaken with (fun _ => True) single_child;
      [done | done | apply single_child_loadElement].
  - apply single_child_updateVisibility.
  - apply single_child_keeps, keeps_assign_element_placed.
Qed.

Lemma render_tree_run (cmds : list (@Cmd Hass Card)) :
  Forall entry cmds -> triple single_child (run cmds) single_child.
Proof.
  induction 1 as [|c cs Hc _ IH]; [apply triple_done|].
  cbn [run]. apply triple_seq with single_child; [by apply single_child_entry|done].
Qed.

(** **** The update cycle *)

Lemma update_unloaded (changedProps : ChangedProps) st :
  _element st = None -> update changedProps st = (st, None).
Proof.
  intros E. unfold update, seq. rewrite E.
  destruct (has_hass changedProps || has_preview changedProps); [|done].
  cbn. unfold _updateVisibility. by rewrite E.
Qed.

Lemma stays_seq (c1 c2 : @Cmd Hass Card) : stays c1 -> stays c2 -> stays (seq c1 c2).
Proof.
  intros H1 H2 st Hst. unfold seq. specialize (H1 st Hst).
  destruct (c1 st) as [st1 [msg|]]; cbn [fst] in *; [done|by apply H2].
Qed.

Lemma stays_when (b : bool) (c : @Cmd Hass Card) : stays c -> stays (when b c).
Proof. destruct b; [done|]. by intros _ st Hst. Qed.

Lemma stays_try_catch (c : @Cmd Hass Card) (handler : string -> @Cmd Hass Card) :
  (forall msg st, _element (fst (handler msg st)) <> None) ->
  stays c -> stays (try_catch c handler).
Proof.
  intros Hh Hc st Hst. unfold try_catch. specialize (Hc st Hst).
  destruct (c st) as [st1 [msg|]]; cbn [fst] in *; [apply Hh|done].
Qed.

Lemma keeps_placed_stays (c : @Cmd Hass Card) : keeps placed c -> stays c.
Proof.
  intros Hk st Hl. specialize (Hk st). unfold placed in Hk.
  injection Hk as _ Hk. destruct (_element (fst (c st))), (_element st); done.
Qed.

Lemma loadElement_loaded cfg st : _element (fst (_loadElement cfg st)) <> None.
Proof.
  pose proof (HostProps.loadElement_held cfg st) as Hh.
  unfold held in Hh. injection Hh as Hh _.
  by destruct (_element (fst (_loadElement cfg st))).
Qed.

Lemma update_then_visibility (changedProps : ChangedProps) :
  exists stages : @Cmd Hass Card,
    (forall st, update changedProps st =
                seq stages
                  (when (has_hass changedProps || has_preview changedProps)
                     (_updateVisibility None)) st)
    /\ keeps inputs stages /\ stays stages.
Proof.
  unfold update.
  match goal with |- context [seq ?b (when _ _)] => exists b end.
  split; [done|]. split.
  - intros st. cbn beta. destruct (_element st); [|done].
    revert st. repeat apply HostProps.keeps_seq; try apply HostProps.keeps_when.
    + intros st. cbn zeta. destruct (config st) as [c|]; [|done].
      destruct (config_differs c (_elementConfig st)); [|done].
      destruct (_ || _);
        [apply keeps_loadElement_inputs | apply keeps_updateElement_inputs].
    + apply HostProps.keeps_try_catch;
        [apply keeps_pushHass_inputs | apply keeps_loadErrorCard_inputs].
    + apply HostProps.keeps_try_catch;
        [apply keeps_pushPreview_inputs | apply keeps_loadErrorCard_inputs].
    + intros st. apply keeps_assign_element_inputs.
    + intros st. apply keeps_assign_element_inputs.
  - intros st Hst. cbn beta. destruct (_element st) eqn:E; [|done].
    assert (_element st <> None) as Hst' by by rewrite E.
    clear E Hst. revert st Hst'.
    repeat apply stays_seq; try apply stays_when.
    + intros st Hst. cbn zeta. destruct (config st) as [c|]; [|done].
      destruct (config_differs c (_elementConfig st)); [|done].
      destruct (_ || _); [apply loadElement_loaded|].
      by apply (keeps_placed_stays _ (keeps_updateElement_placed c)).
    + apply stays_try_catch;
        [intros msg st; apply loadElement_loaded
        | apply HostProps.keeps_held_stays, HostProps.keeps_pushHass_held].
    + apply stays_try_catch;
        [intros msg st; apply loadElement_loaded
        | apply HostProps.keeps_held_stays, HostProps.keeps_pushPreview_held].
    + intros st. apply (HostProps.keeps_held_stays _
                          (HostProps.keeps_assign_element_held _)).
    + intros st. apply (HostProps.keeps_held_stays _
                          (HostProps.keeps_assign_element_held _)).
Qed.

(** **** Visibility *)

Lemma setElementVisibility_idempotent v st :
  _setElementVisibility v (fst (_setElementVisibility v st))
  = (fst (_setElementVisibility v st), None).
Proof.
  destruct (_element st) as [el|] eqn:Eel.
  - pose proof (HostProps.setElementVisibility_hidden v st el Eel) as Hh.
    pose proof (HostProps.setElementVisibility_attached v st el Eel) as Ha.
    pose proof (HostProps.setElementVisibility_keeps_element v st) as He.
    rewrite Eel in He.
    unfold _setElementVisibility at 1. rewrite He, Hh, Bool.eqb_reflx.
    cbn [negb]. rewrite Ha. by destruct v.
  - rewrite (HostProps.setElementVisibility_unloaded v st Eel). cbn [fst].
    by rewrite (HostProps.setElementVisibility_unloaded v st Eel).
Qed.

Lemma visibleFor_inputs card (a b : @State Hass Card) h :
  inputs a = inputs b -> visibleFor card a h = visibleFor card b h.
Proof.
  unfold inputs. intros Hi. injection Hi as Hp _ Hc.
  unfold visibleFor, conditionsAllow. by rewrite Hp, Hc.
Qed.

Lemma updateVisibility_result st el h :
  _element st = Some el -> hass st = Some h ->
  let st' := fst (_updateVisibility None st) in
  _element st' = Some el
  /\ hidden st' = negb (visibleFor (el_card el) st h)
  /\ attached (el_id el) st' = visibleFor (el_card el) st h.
Proof.
  intros Eel Eh. cbn zeta.
  split; [by rewrite HostProps.keeps_updateVisibility_element|].
  unfold _updateVisibility, visibleFor. rewrite Eel, Eh.
  destruct (card_hidden (el_card el)); cbn [negb andb orb].
  - by rewrite (HostProps.setElementVisibility_hidden _ st el),
      (HostProps.setElementVisibility_attached _ st el).
  - by rewrite (HostProps.setElementVisibility_hidden _ st el),
      (HostProps.setElementVisibility_attached _ st el).
Qed.

(** X1: when [_loadElement] returns, the host holds the element it has
    just created, and the render tree holds that element alone if the
    host has a state and ends up shown, and nothing otherwise.  In
    particular a host without a state does not place the new child,
    and neither hides or shows itself nor announces anything. *)
Theorem loadElement_render_tree cfg st :
  snd (_loadElement cfg st) = None ->
  let st' := fst (_loadElement cfg st) in
  option_map el_id (_element st') = Some (next_id st)
  /\ children st' =
     match hass st with
     | None => []
     | Some _ => if hidden st' then [] else [next_id st]
     end
  /\ (hass st = None -> shown st' = shown st).
Proof.
  destruct (loadElement_before_visibility cfg st) as (before & Heq & Hb).
  rewrite Heq. destruct (before st) as [s1 [msg|]] eqn:E.
  { by rewrite (seq_thrown _ _ _ _ _ E). }
  rewrite (seq_returned _ _ _ _ E). intros _. cbn zeta.
  destruct (Hb eq_refl) as (Hp & Hi & Hs). cbn [fst] in *.
  unfold placed in Hp. injection Hp as Hc He.
  unfold inputs in Hi. injection Hi as _ Hh _.
  destruct (_element s1) as [el|] eqn:Eel; [|done]. injection He as He.
  split.
  { pose proof (HostProps.keeps_updateVisibility_held None s1) as Hk.
    unfold held in Hk. injection Hk as Hk _. by rewrite Hk, Eel, <- He. }
  destruct (updateVisibility_on_empty_tree None s1 el Eel Hc) as (Ht & Hn).
  cbn zeta in Ht. rewrite Hh, He in Ht. split; [exact Ht|].
  intros Hnone. rewrite Hn by by rewrite Hh. exact Hs.
Qed.

(** X2: [load] on a host without a configuration throws and changes
    nothing; with a configuration it creates one element from it, which
    the host then holds under that configuration, and leaves the
    reactive properties as they were. *)
Theorem load_builds_from_config st :
  match config st with
  | None => load st = (st, Some "Cannot build card without config")
  | Some cfg =>
      let st' := fst (load st) in
      held st' = (Some (next_id st), Some cfg)
      /\ inputs st' = inputs st
      /\ exists tl,
          trace st' = trace st ++ ECreate (next_id st) cfg :: tl
          /\ creations tl = [] /\ reconfigurations tl = []
  end.
Proof.
  unfold load. destruct (config st) as [cfg|] eqn:E; [|done]. cbn zeta.
  split; [apply HostProps.loadElement_held|].
  split; [apply keeps_loadElement_inputs|].
  destruct (HostProps.loadElement_trace cfg st) as (tl & Ht & Hs).
  exists tl. split; [exact Ht|].
  destruct (HostProps.setup_effects tl Hs) as [Hr Hc]. by split.
Qed.

(** X3: once [willUpdate] has run on a configured host, the host holds
    an element, whether or not loading it threw, and a further
    [willUpdate] does nothing. *)
Theorem willUpdate_loads_once (changedProps changedProps' : ChangedProps) st :
  config st <> None ->
  let st1 := fst (willUpdate changedProps st) in
  _element st1 <> None
  /\ willUpdate changedProps' st1 = (st1, None).
Proof.
  intros Hcfg. cbn zeta.
  assert (_element (fst (willUpdate changedProps st)) <> None) as Hel.
  { unfold willUpdate. destruct (_element st) as [el|] eqn:Eel.
    - cbn. by rewrite Eel.
    - unfold load. destruct (config st) as [cfg|]; [|done].
      pose proof (HostProps.loadElement_held cfg st) as Hh.
      unfold held in Hh. injection Hh as Hh _.
      by destruct (_element (fst (_loadElement cfg st))). }
  split; [exact Hel|].
  unfold willUpdate at 1.
  by destruct (_element (fst (willUpdate changedProps st))).
Qed.

(** X4: [update] on a host that holds no element does nothing and
    does not throw, whatever has changed. *)
Theorem update_before_load (changedProps : ChangedProps) st :
  _element st = None -> update changedProps st = (st, None).
Proof.
  intros E. unfold update, seq. rewrite E.
  destruct (has_hass changedProps || has_preview changedProps); [|done].
  cbn. unfold _updateVisibility. by rewrite E.
Qed.

(** X5: the render tree of the host never holds anything but the one
    element the host holds: this is so of a new host, and every way of
    entering the host that returns normally keeps it so. *)
Theorem render_tree_single_child :
  single_child (@initial Hass Card)
  /\ forall (cmds : list (@Cmd Hass Card)) st,
      Forall entry cmds -> single_child st ->
      snd (run cmds st) = None -> single_child (fst (run cmds st)).
Proof.
  split; [done|]. intros cmds st Hc Hs Hr. by apply (render_tree_run cmds Hc).
Qed.


(** X7: an [update] for a changed state or preview flag that returns
    on a loaded host with a state ends with the visibility evaluated
    afresh: the host is hidden, and its element out of the render
    tree, exactly when the element hides itself or, outside preview,
    the visibility conditions fail for the state. *)
Theorem update_evaluates_visibility (changedProps : ChangedProps) st h :
  has_hass changedProps || has_preview changedProps = true ->
  _element st <> None ->
  hass st = Some h ->
  snd (update changedProps st) = None ->
  let st' := fst (update changedProps st) in
  exists el,
    _element st' = Some el
    /\ hidden st' = negb (visibleFor (el_card el) st' h)
    /\ attached (el_id el) st' = visibleFor (el_card el) st' h.
Proof.
  intros Hb Hl Hh. cbn zeta.
  destruct (update_then_visibility changedProps) as (stages & Heq & Hk & Hs).
  rewrite Heq, Hb. specialize (Hk st). specialize (Hs st Hl).
  destruct (stages st) as [s1 [msg|]] eqn:E; cbn [fst] in *.
  { by rewrite (seq_thrown _ _ _ _ _ E). }
  rewrite (seq_returned _ _ _ _ E). intros _. cbn [when].
  destruct (_element s1) as [el|] eqn:Eel; [|done].
  assert (hass s1 = Some h) as Hh1.
  { unfold inputs in Hk. injection Hk as _ Hk _. by rewrite Hk. }
  destruct (updateVisibility_result s1 el h Eel Hh1) as (He & Hhid & Hat).
  exists el. split; [exact He|].
  rewrite (visibleFor_inputs (el_card el) _ s1 h)
    by apply keeps_updateVisibility_inputs.
  by split.
Qed.

(** X8: evaluating the visibility twice in a row is the same as
    evaluating it once: the second evaluation changes nothing and
    fires nothing. *)
Theorem updateVisibility_idempotent forceVisible st :
  _updateVisibility forceVisible (fst (_updateVisibility forceVisible st))
  = (fst (_updateVisibility forceVisible st), None).
Proof.
  pose proof (keeps_updateVisibility_inputs forceVisible st) as Hi.
  pose proof (HostProps.keeps_updateVisibility_element forceVisible st) as He.
  unfold inputs in Hi. injection Hi as Hp Hh Hc.
  unfold _updateVisibility at 1. rewrite He, Hh, Hp.
  unfold conditionsAllow. rewrite Hc.
  unfold _updateVisibility, conditionsAllow.
  destruct (_element st) as [el|]; [|done].
  destruct (hass st) as [h|]; [|done].
  destruct (card_hidden (el_card el)); apply setElementVisibility_idempotent.
Qed.

(** X9: [connectedCallback] never throws.  On a host whose
    subscriptions are all held, it leaves the host holding exactly the
    listeners of its current configuration, each subscribed, and a
    following [disconnectedCallback] leaves no listener and no
    subscription. *)
Theorem connectedCallback_resubscribes st :
  tracked st ->
  let st1 := fst (connectedCallback st) in
  snd (connectedCallback st) = None
  /\ listening st1 = (listeners_for st, listener_ids (listeners_for st))
  /\ listening (fst (disconnectedCallback st1)) = ([], ∅).
Proof.
  intros Ht. cbn zeta. unfold connectedCallback, seq, lift.
  pose proof (HostProps.updateVisibility_returns None (_listenMediaQueries st)) as Hr.
  pose proof (HostProps.keeps_updateVisibility_listening None
                (_listenMediaQueries st)) as Hk.
  destruct (_updateVisibility None (_listenMediaQueries st)) as [st1 r].
  cbn [fst snd] in *. split; [exact Hr|].
  destruct (HostProps.listenMediaQueries_spec st) as (_ & Hl & Hs).
  cbn zeta in *. unfold listening in *. injection Hk as Hk1 Hk2.
  assert (subscriptions st1 = listener_ids (listeners_for st)) as Hsub.
  { rewrite Hk2, Hs. unfold tracked in Ht. set_solver. }
  split; [by rewrite Hk1, Hl, Hsub|].
  unfold disconnectedCallback, HuiCard.lift. cbn [fst].
  destruct (HostProps.clearMediaQueries_spec st1) as (_ & Hl' & Hs').
  cbn zeta in *. rewrite Hl', Hs', Hsub, Hk1, Hl. f_equal. set_solver.
Qed.

Lemma hasOnlyMediaQuery_true (conditions : list Condition) :
  hasOnlyMediaQuery conditions = true <->
  exists single query,
    conditions = [single] /\ condition single = "screen"
    /\ media_query single = Some query /\ query <> "".
Proof.
  unfold hasOnlyMediaQuery, truthy_str. split.
  - destruct conditions as [|single [|second rest]]; [done| |done].
    intros [Hs Hq]%andb_true_iff. apply String.eqb_eq in Hs.
    destruct (media_query single) as [query|] eqn:Em; [|done].
    exists single, query. split; [done|]. split; [done|]. split; [done|].
    intros ->. done.
  - intros (single & query & -> & Hs & Hq & Hne).
    rewrite Hs, Hq. apply String.eqb_neq in Hne. by rewrite Hne.
Qed.

Lemma listeners_for_closure st (l : MediaQueriesListener) :
  In l (listeners_for st) ->
  l_hasOnlyMediaQuery l = hasOnlyMediaQuery (l_conditions l)
  /\ exists cfg, config st = Some cfg /\ visibility cfg = Some (l_conditions l).
Proof.
  unfold listeners_for. destruct (config st) as [cfg|]; [|done].
  destruct (visibility cfg) as [conditions|] eqn:Ev; [|done].
  intros [Ho Hc]%HostProps.newListeners_closure. rewrite Hc. split; [done|].
  exists cfg. by rewrite Ev.
Qed.

(** X10: a listener that [_listenMediaQueries] attaches closes over
    the visibility conditions of the configuration the host has at
    that moment.  Whatever the host's configuration is when the query
    changes, its callback forces the card visible exactly when those
    conditions are a single "screen" condition with a non-empty media
    query and the query matches; in every other case it is an ordinary
    evaluation of the visibility. *)
Theorem media_query_forces_visible st (l : MediaQueriesListener) (matches : bool) :
  In l (_listeners (_listenMediaQueries st)) ->
  let forces :=
    matches = true
    /\ exists single query,
        l_conditions l = [single] /\ condition single = "screen"
        /\ media_query single = Some query /\ query <> "" in
  (exists cfg, config st = Some cfg /\ visibility cfg = Some (l_conditions l))
  /\ (forces -> forall s, on_media_query l matches s = _updateVisibility (Some true) s)
  /\ (~ forces -> forall s, on_media_query l matches s = _updateVisibility None s).
Proof.
  intros Hin. cbn zeta.
  destruct (HostProps.listenMediaQueries_spec st) as (_ & Hl & _).
  cbn zeta in Hl. rewrite Hl in Hin.
  destruct (listeners_for_closure st l Hin) as [Ho Hcfg].
  split; [exact Hcfg|]. unfold on_media_query. rewrite Ho. split.
  - intros [-> Hsingle] s. apply hasOnlyMediaQuery_true in Hsingle.
    by rewrite Hsingle.
  - intros Hnot s.
    assert (hasOnlyMediaQuery (l_conditions l) && matches = false) as ->.
    { destruct (hasOnlyMediaQuery (l_conditions l)) eqn:Eh; [|done].
      destruct matches; [|done]. exfalso. apply Hnot.
      split; [done|]. by apply hasOnlyMediaQuery_true. }
    unfold _updateVisibility. destruct (_element s); [|done].
    by destruct (hass s).
Qed.

(** X11: the [ll-rebuild] listener rebuilds the element from the
    configuration it was registered with, whatever the host's
    configuration is by then, and fires [card-updated] last, and only
    if the rebuild did not throw. *)
Theorem ll_rebuild_reloads cfg st :
  let r := on_ll_rebuild cfg st in
  held (fst r) = (Some (next_id st), Some cfg)
  /\ exists tl,
      trace (fst r) =
        trace st ++ ECreate (next_id st) cfg :: tl
          ++ (match snd r with None => [EFire CardUpdated] | Some _ => [] end)
      /\ Forall is_setup tl.
Proof.
  cbn zeta. unfold on_ll_rebuild, seq, lift.
  pose proof (HostProps.loadElement_held cfg st) as Hh.
  destruct (HostProps.loadElement_trace cfg st) as (tl & Ht & Hs).
  destruct (_loadElement cfg st) as [st1 [msg|]]; cbn [fst snd] in *.
  - split; [exact Hh|]. exists tl. by rewrite app_nil_r.
  - split; [exact Hh|]. exists tl. split; [|exact Hs].
    cbn. rewrite Ht. by rewrite <- app_assoc.
Qed.

(** X12: the [ll-upgrade] listener hands the host's state, if it has
    one, to the element and then fires [card-updated]; if the element
    rejects the state the error propagates and nothing is fired.  The
    host keeps the element it holds. *)
Theorem ll_upgrade_pushes_state st el :
  _element st = Some el ->
  let r := on_ll_upgrade st in
  snd r = match hass st with
          | Some h => snd (card_set_hass h (el_card el))
          | None => None
          end
  /\ trace (fst r) =
     trace st
       ++ match hass st with Some h => [ESetHass (el_id el) h] | None => [] end
       ++ match snd r with None => [EFire CardUpdated] | Some _ => [] end
  /\ held (fst r) = held st.
Proof.
  intros Eel. cbn zeta. unfold on_ll_upgrade, seq, lift, pushHass, on_element.
  rewrite Eel. unfold held.
  destruct (hass st) as [h|].
  - destruct (card_set_hass h (el_card el)) as [card' [msg|]]; cbn;
      rewrite ?Eel, ?app_nil_r; cbn; by rewrite <- ?app_assoc.
  - cbn. by rewrite Eel.
Qed.

(** X13: for any host, loaded or not, the layout options are the
    element's own options overridden by the configuration's; without
    an element the element's options are empty, and without
    [layout_options] in the configuration the host reports the
    element's options unchanged. *)
Theorem getLayoutOptions_of_element st :
  getLayoutOptions st = configOptions st ∪ getElementLayoutOptions st
  /\ (_element st = None -> getElementLayoutOptions st = ∅)
  /\ (configOptions st = ∅ -> getLayoutOptions st = getElementLayoutOptions st).
Proof.
  unfold getLayoutOptions, getElementLayoutOptions.
  destruct (_element st) as [el|].
  - split; [done|]. split; [done|]. intros ->. apply (left_id_L ∅ (∪)).
  - split; [by rewrite (right_id_L ∅ (∪))|]. split; [done|]. by intros ->.
Qed.

Lemma total_guarded (c : @Cmd Hass Card) :
  HuiCard.total c ->
  HuiCard.total (fun st => match _element st with
                           | None => (st, None)
                           | Some _ => c st
                           end).
Proof.
  intros Hc st Hl. cbn beta. destruct (_element st) eqn:E; [|done].
  apply Hc. by rewrite E.
Qed.


(** X25: a new configuration of the same type that the element
    rejects is not contained: the error leaves [update], no error card
    is built, no later stage runs, and the host keeps the element, the
    configuration it was built from, the render tree and its
    visibility. *)
Theorem update_config_rejected (changedProps : ChangedProps) st el cfg message :
  _element st = Some el ->
  config st = Some cfg ->
  has_config changedProps = true ->
  config_differs cfg (_elementConfig st) = true ->
  type_differs cfg (_elementConfig st) || preview st = false ->
  snd (card_setConfig cfg (el_card el)) = Some message ->
  let st' := fst (update changedProps st) in
  snd (update changedProps st) = Some message
  /\ trace st' = trace st ++ [ESetConfig (el_id el) cfg]
  /\ _elementConfig st' = _elementConfig st
  /\ placed st' = placed st
  /\ hidden st' = hidden st.
Proof.
  intros Eel Ecfg Hc Hd Ht Hrej. cbn zeta.
  destruct (HostProps.update_stages changedProps st el cfg Eel Ecfg Hc Hd)
    as (later & Heq & _).
  rewrite Heq, Ht.
  assert (exists st1, _updateElement cfg st = (st1, Some message)
                      /\ trace st1 = trace st ++ [ESetConfig (el_id el) cfg]
                      /\ _elementConfig st1 = _elementConfig st
                      /\ placed st1 = placed st
                      /\ hidden st1 = hidden st) as (st1 & E1 & Hst1).
  { unfold _updateElement. rewrite Eel. unfold seq at 1, on_element.
    rewrite Eel. destruct (card_setConfig cfg (el_card el)) as [card' r].
    cbn in Hrej. subst r. eexists. split; [reflexivity|].
    unfold placed. cbn. by rewrite Eel. }
  by rewrite (seq_thrown _ _ _ _ _ E1).
Qed.

(** **** Which element the host holds, and since when *)

Lemma preserves_done (P : @State Hass Card -> Prop) : preserves P done.
Proof. by intros st HP. Qed.

Lemma preserves_seq (P : @State Hass Card -> Prop) c1 c2 :
  preserves P c1 -> preserves P c2 -> preserves P (seq c1 c2).
Proof.
  intros H1 H2 st HP. unfold seq. specialize (H1 st HP).
  destruct (c1 st) as [st1 [msg|]]; cbn [fst] in *; [done|by apply H2].
Qed.

Lemma preserves_when (P : @State Hass Card -> Prop) (b : bool) c :
  preserves P c -> preserves P (when b c).
Proof. destruct b; [done|]. intros _. apply preserves_done. Qed.

Lemma preserves_try_catch (P Q : @State Hass Card -> Prop) c
  (handler : string -> @Cmd Hass Card) :
  preserves (fun st => P st \/ Q st) c ->
  (forall msg st, Q (fst (handler msg st))) ->
  preserves (fun st => P st \/ Q st) (try_catch c handler).
Proof.
  intros Hc Hh st HP. unfold try_catch. specialize (Hc st HP).
  destruct (c st) as [st1 [msg|]]; cbn [fst] in *; [right; apply Hh | done].
Qed.

Lemma preserves_keeps {A : Type} (f : @State Hass Card -> A) (R : A -> Prop) c :
  keeps f c -> preserves (fun st => R (f st)) c.
Proof. intros Hk st HR. by rewrite Hk. Qed.

Lemma triple_try_catch_from (P R Q : @State Hass Card -> Prop) c
  (handler : string -> @Cmd Hass Card) :
  triple P c Q ->
  (forall st, P st -> R (fst (c st))) ->
  (forall msg, triple R (handler msg) Q) ->
  triple P (try_catch c handler) Q.
Proof.
  intros H1 HR H2 st HP. unfold try_catch.
  specialize (H1 st HP). specialize (HR st HP).
  destruct (c st) as [st1 [msg|]]; cbn [fst snd] in *.
  - by apply H2.
  - intros _. by apply H1.
Qed.

Lemma keeps_on_element_next_id log f : keeps next_id (on_element log f).
Proof.
  intros st. unfold on_element. destruct (_element st) as [el|]; [|done].
  by destruct (f (el_card el)).
Qed.

Lemma keeps_assign_element_next_id f : keeps next_id (assign_element f).
Proof. intros st. unfold assign_element. by destruct (_element st). Qed.

Lemma keeps_pushHass_next_id : keeps next_id pushHass.
Proof.
  intros st. unfold pushHass.
  destruct (hass st); [apply keeps_on_element_next_id | done].
Qed.

Lemma keeps_pushPreview_next_id : keeps next_id pushPreview.
Proof.
  apply HostProps.keeps_seq; intros st; apply keeps_on_element_next_id.
Qed.

Lemma keeps_setElementVisibility_next_id v :
  keeps next_id (_setElementVisibility v).
Proof.
  intros st. unfold _setElementVisibility.
  destruct (_element st) as [el|]; [|done]. repeat case_match; done.
Qed.

Lemma keeps_updateVisibility_next_id forceVisible :
  keeps next_id (_updateVisibility forceVisible).
Proof.
  intros st. unfold _updateVisibility.
  destruct (_element st) as [el|]; [|done]. destruct (hass st); [|done].
  destruct (card_hidden (el_card el)); apply keeps_setElementVisibility_next_id.
Qed.

Lemma keeps_updateElement_next_id cfg : keeps next_id (_updateElement cfg).
Proof.
  intros st. unfold _updateElement. destruct (_element st) as [el|] eqn:E; [|done].
  revert st E. intros st _.
  apply (HostProps.keeps_seq next_id); [apply keeps_on_element_next_id|].
  apply HostProps.keeps_seq; by intros s.
Qed.

Lemma loadElement_next_id cfg st :
  next_id (fst (_loadElement cfg st)) = S (next_id st).
Proof.
  unfold _loadElement. erewrite seq_returned by reflexivity.
  match goal with
  | |- next_id (fst (?c ?s0)) = _ =>
      assert (keeps next_id c) as Hk; [|by rewrite Hk]
  end.
  repeat apply HostProps.keeps_seq.
  - done.
  - apply keeps_pushHass_next_id.
  - intros s. apply keeps_assign_element_next_id.
  - intros s. apply keeps_on_element_next_id.
  - intros s. apply keeps_on_element_next_id.
  - intros s. by destruct (_element s).
  - intros s. cbn. unfold removeAllChildren. cbn.
    by rewrite (HostProps.fold_emit_frame next_id).
  - apply keeps_updateVisibility_next_id.
Qed.

Lemma created_since_keeps n0 c :
  keeps placed c -> keeps next_id c ->
  triple (created_since n0) c (created_since n0).
Proof.
  intros Hp Hn st (Hs & Hc & He) _. specialize (Hp st). specialize (Hn st).
  unfold placed in Hp. injection Hp as Hch Hel.
  split; [|split].
  - unfold single_child. by rewrite Hch, Hel.
  - by rewrite Hn.
  - intros el' E'. rewrite E' in Hel.
    destruct (_element st) as [el0|]; [|done]. injection Hel as Hel.
    rewrite Hel. by apply He.
Qed.

Lemma created_since_updateVisibility n0 forceVisible :
  triple (created_since n0) (_updateVisibility forceVisible) (created_since n0).
Proof.
  intros st (Hs & Hc & He) Hr. split; [|split].
  - by apply single_child_updateVisibility.
  - by rewrite keeps_updateVisibility_next_id.
  - rewrite HostProps.keeps_updateVisibility_element. exact He.
Qed.

Lemma created_since_loadElement n0 cfg :
  triple (fun st => (n0 <= next_id st)%nat) (_loadElement cfg) (created_since n0).
Proof.
  intros st Hn Hr. split; [|split].
  - by apply single_child_loadElement.
  - rewrite loadElement_next_id. lia.
  - intros el' E'. pose proof (HostProps.loadElement_held cfg st) as Hh.
    unfold held in Hh. rewrite E' in Hh. by injection Hh as ->.
Qed.

Lemma created_since_loadErrorCard n0 message :
  triple (fun st => (n0 <= next_id st)%nat) (loadErrorCard message)
    (created_since n0).
Proof.
  intros st Hn. unfold loadErrorCard. apply created_since_loadElement. cbn. lia.
Qed.

Lemma created_since_pushes n0 c :
  keeps placed c -> keeps next_id c ->
  triple (created_since n0) (try_catch c loadErrorCard) (created_since n0).
Proof.
  intros Hp Hn.
  apply triple_try_catch_from with (fun st => (n0 <= next_id st)%nat).
  - by apply created_since_keeps.
  - intros st (_ & Hc & _). by rewrite Hn.
  - intros msg. apply created_since_loadErrorCard.
Qed.

Lemma created_since_children n0 st :
  created_since n0 st -> forall id, id ∈ children st -> (n0 <= id)%nat.
Proof.
  intros (Hs & _ & He) id Hin. unfold single_child in Hs.
  destruct (children st) as [|child [|second rest]]; [| |done].
  - by apply not_elem_of_nil in Hin.
  - apply list_elem_of_singleton in Hin. subst child.
    destruct (_element st) as [el|]; [|done]. injection Hs as <-. by apply He.
Qed.

Lemma holds_from_on_element id base log f :
  (forall card, assigned base card -> assigned base (fst (f card))) ->
  preserves (holds_from id base) (on_element log f).
Proof.
  intros Hf st (card & E & Ha). unfold on_element. rewrite E. cbn [el_card el_id].
  specialize (Hf card Ha). destruct (f card) as [card' r]. cbn [fst] in *.
  by exists card'.
Qed.

Lemma holds_from_assign_element id base f :
  (forall card, assigned base card -> assigned base (f card)) ->
  preserves (holds_from id base) (assign_element f).
Proof.
  intros Hf st (card & E & Ha). unfold assign_element. rewrite E.
  exists (f card). split; [done|]. by apply Hf.
Qed.

Lemma holds_from_pushHass id base : preserves (holds_from id base) pushHass.
Proof.
  intros st Hst. unfold pushHass. destruct (hass st) as [h|]; [|done].
  apply holds_from_on_element; [|done]. intros card. apply assigned_hass.
Qed.

Lemma holds_from_pushPreview id base : preserves (holds_from id base) pushPreview.
Proof.
  apply preserves_seq; intros st; apply holds_from_on_element; intros card.
  - apply assigned_preview.
  - apply assigned_editMode.
Qed.

Lemma holds_from_keeps_element id base c :
  keeps _element c -> preserves (holds_from id base) c.
Proof. intros Hk st Hst. unfold holds_from. by rewrite Hk. Qed.

Lemma holds_from_updateVisibility id base forceVisible :
  preserves (holds_from id base) (_updateVisibility forceVisible).
Proof.
  apply holds_from_keeps_element, HostProps.keeps_updateVisibility_element.
Qed.

Lemma loadElement_holds_from cfg st :
  holds_from (next_id st) (createCardElement cfg) (fst (_loadElement cfg st)).
Proof.
  unfold _loadElement. erewrite seq_returned by reflexivity.
  match goal with
  | |- holds_from ?id ?base (fst (?c ?s0)) =>
      assert (preserves (holds_from id base) c) as Hk;
        [|apply Hk; eexists; split; [reflexivity | apply assigned_base]]
  end.
  repeat apply preserves_seq.
  - by apply holds_from_keeps_element.
  - apply holds_from_pushHass.
  - intros s. apply holds_from_assign_element. intros card. apply assigned_layout.
  - intros s. apply holds_from_on_element. intros card. apply assigned_preview.
  - intros s. apply holds_from_on_element. intros card. apply assigned_editMode.
  - apply holds_from_keeps_element. intros s.
    destruct (_element s) as [el0|] eqn:E0; cbn; by rewrite ?E0.
  - apply holds_from_keeps_element. intros s. cbn. unfold removeAllChildren. cbn.
    by rewrite (HostProps.fold_emit_frame _element).
  - apply holds_from_updateVisibility.
Qed.

Lemma loadErrorCard_holds_error_card message st :
  holds_error_card (fst (loadErrorCard message st)).
Proof.
  unfold loadErrorCard. eexists _, _. split; [|apply loadElement_holds_from].
  by rewrite HostProps.error_message_createErrorCardConfig.
Qed.

Lemma updateElement_holds_from cfg st el :
  _element st = Some el ->
  holds_from (el_id el) (fst (card_setConfig cfg (el_card el)))
    (fst (_updateElement cfg st)).
Proof.
  intros E. unfold _updateElement. rewrite E. unfold seq at 1, on_element.
  rewrite E. destruct (card_setConfig cfg (el_card el)) as [card' [msg|]];
    cbn; eexists; (split; [reflexivity | apply assigned_base]).
Qed.

Lemma holds_or_error (c : @Cmd Hass Card) :
  (forall id base, preserves (holds_from id base) c) ->
  forall id base,
    preserves (fun st => holds_from id base st \/ holds_error_card st) c.
Proof.
  intros Hc id base st [Hst | (id' & cfg' & Herr & Hst)].
  - left. by apply Hc.
  - right. exists id', cfg'. split; [done|]. by apply Hc.
Qed.

Lemma holds_or_error_pushes (c : @Cmd Hass Card) :
  (forall id base, preserves (holds_from id base) c) ->
  forall id base,
    preserves (fun st => holds_from id base st \/ holds_error_card st)
      (try_catch c loadErrorCard).
Proof.
  intros Hc id base. apply preserves_try_catch.
  - by apply holds_or_error.
  - intros msg st. apply loadErrorCard_holds_error_card.
Qed.

Lemma update_after_config (changedProps : ChangedProps) st el cfg :
  _element st = Some el ->
  config st = Some cfg ->
  has_config changedProps = true ->
  config_differs cfg (_elementConfig st) = true ->
  exists later : @Cmd Hass Card,
    update changedProps st =
    seq (if type_differs cfg (_elementConfig st) || preview st
         then _loadElement cfg else _updateElement cfg) later st
    /\ (forall n0, triple (created_since n0) later (created_since n0))
    /\ (forall id base,
          preserves (fun s => holds_from id base s \/ holds_error_card s) later)
    /\ (has_hass changedProps = false -> has_preview changedProps = false ->
        (forall id base, preserves (holds_from id base) later)
        /\ keeps placed later).
Proof.
  intros Eel Ecfg Hcp Hdiff. unfold update.
  rewrite (HostProps.seq_guarded _ _ st el Eel), HostProps.seq_assoc, Hcp.
  eexists. split; [|split; [|split]].
  - unfold seq at 1. unfold when at 1. rewrite Ecfg, Hdiff.
    destruct (type_differs cfg (_elementConfig st)), (preview st); reflexivity.
  - intros n0. repeat (apply triple_seq with (created_since n0));
      try apply triple_when.
    + apply created_since_pushes;
        [apply keeps_pushHass_placed | apply keeps_pushHass_next_id].
    + apply created_since_pushes;
        [apply keeps_pushPreview_placed | apply keeps_pushPreview_next_id].
    + intros s Hs. by apply (created_since_keeps n0 _
                               (keeps_assign_element_placed _)
                               (keeps_assign_element_next_id _)).
    + intros s Hs. by apply (created_since_keeps n0 _
                               (keeps_assign_element_placed _)
                               (keeps_assign_element_next_id _)).
    + apply created_since_updateVisibility.
  - intros id base. repeat apply preserves_seq; try apply preserves_when.
    + apply holds_or_error_pushes. intros id' base'. apply holds_from_pushHass.
    + apply holds_or_error_pushes. intros id' base'. apply holds_from_pushPreview.
    + intros s. apply (holds_or_error (assign_element _)). intros id' base'.
      apply holds_from_assign_element. intros card. apply assigned_isPanel.
    + intros s. apply (holds_or_error (assign_element _)). intros id' base'.
      apply holds_from_assign_element. intros card. apply assigned_layout.
    + apply holds_or_error. intros id' base'. apply holds_from_updateVisibility.
  - intros -> ->. cbn [orb when]. split.
    + intros id base. repeat apply preserves_seq; try apply preserves_done;
        apply preserves_when; intros s; apply holds_from_assign_element;
        intros card; [apply assigned_isPanel | apply assigned_layout].
    + repeat apply HostProps.keeps_seq; try apply HostProps.keeps_done;
        apply HostProps.keeps_when; intros s; apply keeps_assign_element_placed.
Qed.

Lemma update_after_hass (changedProps : ChangedProps) st el :
  _element st = Some el ->
  has_config changedProps = false ->
  has_hass changedProps = true ->
  exists later : @Cmd Hass Card,
    update changedProps st = seq (try_catch pushHass loadErrorCard) later st
    /\ (forall n0, triple (created_since n0) later (created_since n0))
    /\ (forall id base,
          preserves (fun s => holds_from id base s \/ holds_error_card s) later)
    /\ (has_preview changedProps = false ->
        forall id base, preserves (holds_from id base) later).
Proof.
  intros Eel Hc Hh. unfold update.
  rewrite (HostProps.seq_guarded _ _ st el Eel), HostProps.seq_assoc, Hc, Hh.
  unfold seq at 1. unfold when at 1. cbn [HuiCard.done]. rewrite HostProps.seq_assoc.
  unfold when at 1.
  eexists. split; [reflexivity|]. split; [|split].
  - intros n0. repeat (apply triple_seq with (created_since n0));
      try apply triple_when.
    + apply created_since_pushes;
        [apply keeps_pushPreview_placed | apply keeps_pushPreview_next_id].
    + intros s Hs. by apply (created_since_keeps n0 _
                               (keeps_assign_element_placed _)
                               (keeps_assign_element_next_id _)).
    + intros s Hs. by apply (created_since_keeps n0 _
                               (keeps_assign_element_placed _)
                               (keeps_assign_element_next_id _)).
    + apply created_since_updateVisibility.
  - intros id base. repeat apply preserves_seq; try apply preserves_when.
    + apply holds_or_error_pushes. intros id' base'. apply holds_from_pushPreview.
    + intros s. apply (holds_or_error (assign_element _)). intros id' base'.
      apply holds_from_assign_element. intros card. apply assigned_isPanel.
    + intros s. apply (holds_or_error (assign_element _)). intros id' base'.
      apply holds_from_assign_element. intros card. apply assigned_layout.
    + apply holds_or_error. intros id' base'. apply holds_from_updateVisibility.
  - intros -> id base. cbn [orb when].
    repeat apply preserves_seq; try apply preserves_done.
    + apply preserves_when. intros s. apply holds_from_assign_element.
      intros card. apply assigned_isPanel.
    + apply preserves_when. intros s. apply holds_from_assign_element.
      intros card. apply assigned_layout.
    + apply holds_from_updateVisibility.
Qed.

(** X27: with a loaded child, when the configuration has changed to
    a new configuration object: if its [type] differs from that of the
    loaded configuration, or the host is in preview, the first thing
    the host does is create a new element from the new configuration;
    otherwise the first thing it does is call [setConfig] with the new
    configuration on the element it has.  The only elements created
    afterwards in the same update are error cards.  The element the
    host holds in the end is the new element after property
    assignments (after a rebuild), or the old element as [setConfig]
    left it, after property assignments (otherwise), unless a later
    stage replaced it by an error card, which cannot happen when
    neither the state nor the preview flag changed.  When the update
    returns after a rebuild, the render tree holds nothing but the
    element the host holds, and no element older than this update; an
    update of the configuration alone that does not rebuild leaves
    the render tree as it was. *)
Theorem config_change_rebuilds_or_reconfigures
  (changedProps : ChangedProps) st el cfg :
  _element st = Some el ->
  config st = Some cfg ->
  has_config changedProps = true ->
  config_differs cfg (_elementConfig st) = true ->
  let rebuild := type_differs cfg (_elementConfig st) || preview st in
  let st' := fst (update changedProps st) in
  let id := if rebuild then next_id st else el_id el in
  let base := if rebuild then createCardElement cfg
              else fst (card_setConfig cfg (el_card el)) in
  (exists tl,
      trace st' =
        trace st ++ (if rebuild then ECreate (next_id st) cfg
                     else ESetConfig (el_id el) cfg) :: tl
      /\ reconfigurations tl = []
      /\ Forall (fun cfg' => error_message cfg' <> None) (creations tl)
      /\ (has_hass changedProps = false -> has_preview changedProps = false ->
          creations tl = []
          /\ _elementConfig st' =
             if rebuild then Some cfg
             else match snd (card_setConfig cfg (el_card el)) with
                  | None => Some cfg
                  | Some _ => _elementConfig st
                  end))
  /\ (holds_from id base st' \/ holds_error_card st')
  /\ (has_hass changedProps = false -> has_preview changedProps = false ->
      holds_from id base st')
  /\ (rebuild = true -> snd (update changedProps st) = None ->
      single_child st'
      /\ forall child, child ∈ children st' -> (next_id st <= child)%nat)
  /\ (rebuild = false ->
      has_hass changedProps = false -> has_preview changedProps = false ->
      children st' = children st).
Proof.
  intros Eel Ecfg Hcp Hdiff rebuild st' id base.
  split.
  { destruct (HostProps.update_config_changed changedProps st el cfg
                Eel Ecfg Hcp Hdiff) as (tl & Ht & Hr & Hc & Hq).
    exists tl. split; [exact Ht|]. split; [exact Hr|]. split; [exact Hc|].
    intros Hh Hp. destruct (Hq Hh Hp) as (Hn & _ & He). by split. }
  subst st'.
  destruct (update_after_config changedProps st el cfg Eel Ecfg Hcp Hdiff)
    as (later & -> & Hcs & Hinv & Hquiet).
  fold rebuild.
  assert (holds_from id base
            (fst ((if rebuild then _loadElement cfg else _updateElement cfg) st)))
    as Hfirst.
  { subst id base. destruct rebuild;
      [apply loadElement_holds_from | by apply updateElement_holds_from]. }
  split; [|split; [|split]].
  - unfold seq.
    destruct ((if rebuild then _loadElement cfg else _updateElement cfg) st)
      as [s1 [msg|]]; cbn [fst] in *; [by left|].
    apply Hinv. by left.
  - intros Hh Hp. destruct (Hquiet Hh Hp) as [Hkeep _]. unfold seq.
    destruct ((if rebuild then _loadElement cfg else _updateElement cfg) st)
      as [s1 [msg|]]; cbn [fst] in *; [done|].
    by apply Hkeep.
  - intros Hreb. rewrite Hreb. unfold seq.
    pose proof (created_since_loadElement (next_id st) cfg st (le_n _)) as Hload.
    destruct (_loadElement cfg st) as [s1 [msg|]]; cbn [fst snd] in *; [done|].
    intros Hret. pose proof (Hcs (next_id st) s1 (Hload eq_refl) Hret) as Hst'.
    split; [apply Hst' | by apply created_since_children].
  - intros Hreb Hh Hp. rewrite Hreb. destruct (Hquiet Hh Hp) as [_ Hplaced].
    unfold seq. pose proof (keeps_updateElement_placed cfg st) as Hk.
    destruct (_updateElement cfg st) as [s1 [msg|]]; cbn [fst] in *.
    + unfold placed in Hk. by injection Hk.
    + specialize (Hplaced s1). rewrite Hk in Hplaced. unfold placed in Hplaced.
      by injection Hplaced.
Qed.


End Props.

Lemma loadElement_render_tree_witness :
  children (fst (_loadElement (Samples.cardConfig 2 "tile" None)
                   (Samples.loadedHost (Samples.cardConfig 1 "tile" None)
                      None false))) = [].
Proof.
  exact (proj1 (proj2 (loadElement_render_tree
                         (Samples.cardConfig 2 "tile" None)
                         (Samples.loadedHost (Samples.cardConfig 1 "tile" None)
                            None false) eq_refl))).
Defined.

Lemma willUpdate_loads_once_witness :
  _element (fst (willUpdate Samples.onlyConfig
                   (set_config (Some (Samples.cardConfig 1 "faulty" None))
                      (set_hass (Some true) initial)))) <> None.
Proof.
  refine (proj1 (willUpdate_loads_once Samples.onlyConfig Samples.onlyConfig
                   (set_config (Some (Samples.cardConfig 1 "faulty" None))
                      (set_hass (Some true) initial)) _)).
  discriminate.
Defined.

Lemma update_before_load_witness :
  update Samples.onlyHass (set_hass (Some true) initial)
  = (set_hass (Some true) initial, None).
Proof.
  exact (update_before_load Samples.onlyHass (set_hass (Some true) initial) eq_refl).
Defined.

Lemma render_tree_single_child_witness :
  single_child
    (fst (run [lift (set_config (Some (Samples.cardConfig 1 "tile" None)));
               lift (set_hass (Some true));
               willUpdate Samples.onlyConfig;
               update Samples.onlyHass] initial)).
Proof.
  apply (proj2 render_tree_single_child).
  - repeat constructor.
  - exact I.
  - vm_compute. reflexivity.
Defined.


Lemma update_evaluates_visibility_witness :
  exists el,
    _element (fst (update Samples.onlyHass
                     (Samples.loadedHost
                        (Samples.cardConfig 1 "tile" (Some [Samples.occupied]))
                        (Some false) false))) = Some el
    /\ attached (el_id el)
         (fst (update Samples.onlyHass
                 (Samples.loadedHost
                    (Samples.cardConfig 1 "tile" (Some [Samples.occupied]))
                    (Some false) false)))
       = negb (hidden (fst (update Samples.onlyHass
                              (Samples.loadedHost
                                 (Samples.cardConfig 1 "tile"
                                    (Some [Samples.occupied]))
                                 (Some false) false)))).
Proof.
  destruct (update_evaluates_visibility Samples.onlyHass
              (Samples.loadedHost
                 (Samples.cardConfig 1 "tile" (Some [Samples.occupied]))
                 (Some false) false) false eq_refl)
    as (el & He & Hh & Ha).
  - discriminate.
  - reflexivity.
  - vm_compute. reflexivity.
  - exists el. split; [exact He|]. rewrite Hh, Ha. symmetry. apply negb_involutive.
Defined.

Lemma connectedCallback_resubscribes_witness :
  listening
    (fst (disconnectedCallback
            (fst (connectedCallback
                    (Samples.loadedHost
                       (Samples.cardConfig 1 "tile" (Some [Samples.wideScreen]))
                       (Some true) false))))) = ([], ∅).
Proof.
  refine (proj2 (proj2 (connectedCallback_resubscribes
                          (Samples.loadedHost
                             (Samples.cardConfig 1 "tile" (Some [Samples.wideScreen]))
                             (Some true) false) _))).
  unfold tracked. vm_compute. set_solver.
Defined.

Lemma media_query_forces_visible_witness :
  hidden
    (fst (_updateVisibility None
            (set_config (Some (Samples.cardConfig 2 "tile" (Some [Samples.occupied])))
               (Samples.loadedHost
                  (Samples.cardConfig 1 "tile" (Some [Samples.wideScreen]))
                  (Some false) false))))
  = true
  /\ hidden
       (fst (on_media_query
               {| l_id := 1%nat; l_media_query := "(min-width: 1024px)";
                  l_hasOnlyMediaQuery := true;
                  l_conditions := [Samples.wideScreen] |} true
               (set_config
                  (Some (Samples.cardConfig 2 "tile" (Some [Samples.occupied])))
                  (Samples.loadedHost
                     (Samples.cardConfig 1 "tile" (Some [Samples.wideScreen]))
                     (Some false) false))))
     = false.
Proof.
  split; [reflexivity|].
  assert (In {| l_id := 1%nat; l_media_query := "(min-width: 1024px)";
                l_hasOnlyMediaQuery := true;
                l_conditions := [Samples.wideScreen] |}
            (_listeners
               (_listenMediaQueries
                  (Samples.loadedHost
                     (Samples.cardConfig 1 "tile" (Some [Samples.wideScreen]))
                     (Some false) false)))) as Hin.
  { left. reflexivity. }
  rewrite (proj1 (proj2 (media_query_forces_visible _ _ true Hin))).
  - reflexivity.
  - split; [reflexivity|].
    exists Samples.wideScreen, "(min-width: 1024px)".
    repeat split. discriminate.
Defined.

Lemma ll_upgrade_pushes_state_witness :
  snd (on_ll_upgrade
         (Samples.loadedHost (Samples.cardConfig 1 "faulty" None) (Some true) false))
  = Some "Entity not available"
  /\ trace (fst (on_ll_upgrade
                   (Samples.loadedHost (Samples.cardConfig 1 "faulty" None)
                      (Some true) false)))
     = [ESetHass 0 true].
Proof.
  destruct (ll_upgrade_pushes_state
              (Samples.loadedHost (Samples.cardConfig 1 "faulty" None)
                 (Some true) false)
              {| el_id := 0%nat;
                 el_card := createCardElement (Samples.cardConfig 1 "faulty" None) |}
              eq_refl) as (Hs & Ht & _).
  split; [exact Hs|]. rewrite Ht, Hs. reflexivity.
Defined.

Lemma getLayoutOptions_of_element_witness :
  getLayoutOptions
    (Samples.loadedHost (Samples.cardConfig 1 "tile" None) None false)
  = getElementLayoutOptions
      (Samples.loadedHost (Samples.cardConfig 1 "tile" None) None false).
Proof.
  exact (proj2 (proj2 (getLayoutOptions_of_element
                         (Samples.loadedHost (Samples.cardConfig 1 "tile" None)
                            None false))) eq_refl).
Defined.


Lemma update_config_rejected_witness :
  snd (update Samples.onlyConfig
         (Samples.reconfiguredHost (Samples.cardConfig 1 "strict" None)
            (Samples.cardConfig 2 "strict" None) (Some true) false))
  = Some "Invalid configuration".
Proof.
  exact (proj1 (update_config_rejected Samples.onlyConfig
                  (Samples.reconfiguredHost (Samples.cardConfig 1 "strict" None)
                     (Samples.cardConfig 2 "strict" None) (Some true) false)
                  {| el_id := 0%nat;
                     el_card := createCardElement (Samples.cardConfig 1 "strict" None) |}
                  (Samples.cardConfig 2 "strict" None) "Invalid configuration"
                  eq_refl eq_refl eq_refl eq_refl eq_refl eq_refl)).
Defined.

(** C1: the claim fails where the element created from the new
    configuration rejects the state it is handed while it is loaded.
    The host shows a "tile" card (element 0, in the render tree) and
    has a state; its configuration is replaced by one of another type.
    [update] creates element 1 from the new configuration and hands it
    the state outside any [try]; the setter throws, [update] throws,
    and the loop that empties the render tree is never reached: the
    host holds element 1, which is not in the render tree, and the old
    element 0 is still there. *)
Theorem rebuild_failure_keeps_old_child :
  option_map el_id (_element Samples.rebuildingHost) = Some 0%nat
  /\ children Samples.rebuildingHost = [0%nat]
  /\ config Samples.rebuildingHost = Some (Samples.cardConfig 2 "faulty" None)
  /\ config_differs (Samples.cardConfig 2 "faulty" None)
       (_elementConfig Samples.rebuildingHost) = true
  /\ type_differs (Samples.cardConfig 2 "faulty" None)
       (_elementConfig Samples.rebuildingHost) = true
  /\ snd (update Samples.onlyConfig Samples.rebuildingHost)
     = Some "Entity not available"
  /\ creations (trace (fst (update Samples.onlyConfig Samples.rebuildingHost)))
     = [Samples.cardConfig 2 "faulty" None]
  /\ option_map el_id
       (_element (fst (update Samples.onlyConfig Samples.rebuildingHost)))
     = Some 1%nat
  /\ children (fst (update Samples.onlyConfig Samples.rebuildingHost)) = [0%nat].
Proof. repeat split; vm_compute; reflexivity. Qed.

(** C5: the claim fails where the configuration changes in the same
    update to one of another type.  The state the host has is handed
    to the new element by [_loadElement], outside the [try] that
    guards the same assignment in [update]; the new element rejects
    it, the error leaves [update], no error card is created, and the
    old element stays in the render tree. *)
Theorem hass_failure_while_rebuilding_propagates :
  option_map el_id (_element Samples.rebuildingHost) = Some 0%nat
  /\ hass Samples.rebuildingHost = Some true
  /\ has_hass Samples.configAndHass = true
  /\ snd (update Samples.configAndHass Samples.rebuildingHost)
     = Some "Entity not available"
  /\ trace (fst (update Samples.configAndHass Samples.rebuildingHost))
     = [ECreate 1 (Samples.cardConfig 2 "faulty" None); ESetHass 1 true]
  /\ Forall (fun cfg => error_message cfg = None)
       (creations
          (trace (fst (update Samples.configAndHass Samples.rebuildingHost))))
  /\ children (fst (update Samples.configAndHass Samples.rebuildingHost))
     = [0%nat].
Proof.
  repeat split; try (vm_compute; reflexivity).
  vm_compute. repeat constructor.
Qed.

(** A "tile" configuration replaced by a "button" configuration: the
    old element 0 is no longer in the render tree. *)
Lemma config_change_rebuilds_or_reconfigures_witness :
  0%nat ∉ children
            (fst (update Samples.onlyConfig
                    (Samples.reconfiguredHost (Samples.cardConfig 1 "tile" None)
                       (Samples.cardConfig 3 "button" None) (Some true) false))).
Proof.
  destruct (config_change_rebuilds_or_reconfigures Samples.onlyConfig
              (Samples.reconfiguredHost (Samples.cardConfig 1 "tile" None)
                 (Samples.cardConfig 3 "button" None) (Some true) false)
              {| el_id := 0%nat;
                 el_card := createCardElement (Samples.cardConfig 1 "tile" None) |}
              (Samples.cardConfig 3 "button" None)
              eq_refl eq_refl eq_refl eq_refl) as (_ & _ & _ & Htree & _).
  destruct Htree as [_ Hnew]; [reflexivity | vm_compute; reflexivity |].
  intros Hin. apply Hnew in Hin. vm_compute in Hin. lia.
Defined.


End HostMore.

(** ** Further properties of the tile card *)

Module TileMore.

Import HuiTileCard.

Section Props.

Context `{TileEnv}.

(** X14: the rows the tile asks for in a grid, and its minimum rows,
    are its card size; it asks for two columns, and accepts one column
    exactly when it is vertical. *)
Theorem getLayoutOptions_rows_are_size (st : State) :
  getLayoutOptions st !! "grid_rows" = Some (JNum (getCardSize st))
  /\ getLayoutOptions st !! "grid_min_rows" = Some (JNum (getCardSize st))
  /\ getLayoutOptions st !! "grid_columns" = Some (JNum 2)
  /\ getLayoutOptions st !! "grid_min_columns" =
     Some (JNum (if vertical st then 1 else 2)).
Proof.
  unfold getLayoutOptions, getCardSize.
  assert ((match features_length st with
           | Some n => if n =? 0 then 1 else 1 + n
           | None => 1
           end) = 1 + default 0 (features_length st)) as ->.
  { destruct (features_length st) as [n|]; [|done]. cbn.
    destruct (Z.eqb_spec n 0); lia. }
  destruct (vertical st); cbn zeta iota; repeat split;
    repeat (first [rewrite lookup_insert_eq | rewrite lookup_insert_ne by done
                  | rewrite lookup_singleton_eq]);
    f_equal; f_equal; lia.
Qed.

(** X15: giving the card the configuration it has stored stores the
    same configuration again. *)
Theorem setConfig_stored_is_fixed config st st' stored :
  setConfig config st = (st', None) ->
  _config st' = Some stored ->
  forall st2, setConfig stored st2 = ({| hass := hass st2; _config := Some stored |}, None).
Proof.
  unfold setConfig. intros Hs Hc st2.
  destruct (str_field config "entity") as [entityId|] eqn:E; [|done].
  destruct (String.eqb entityId "") eqn:En; [done|].
  injection Hs as <-. cbn in Hc. injection Hc as <-.
  assert (str_field (config ∪ defaults entityId) "entity" = Some entityId) as ->.
  { apply TileProps.str_field_Some. rewrite TileProps.stored_other_key by done.
    by apply TileProps.str_field_Some. }
  rewrite En. by rewrite <- (assoc_L (∪)), (idemp_L (∪)).
Qed.

(** X16: the stub configuration names the first entity the search
    finds, and the card accepts it with the default actions; when the
    search finds nothing the stub has an empty entity and the card's
    own [setConfig] rejects it. *)
Theorem getStubConfig_accepted
  (findEntities : HomeAssistant -> Z -> list string -> list string
                  -> list string -> list string)
  (h : HomeAssistant) (entities entitiesFallback : list string) (st : State) :
  let stub := getStubConfig findEntities h entities entitiesFallback in
  match findEntities h 1 entities entitiesFallback ["sensor"; "light"; "switch"] with
  | first :: _ =>
      first <> "" ->
      exists stored,
        setConfig stub st = ({| hass := hass st; _config := Some stored |}, None)
        /\ stored !! "type" = Some (JStr "tile")
        /\ stored !! "entity" = Some (JStr first)
        /\ stored !! "tap_action" = Some (actionConfig "more-info")
        /\ stored !! "icon_tap_action" =
           Some (actionConfig (getEntityDefaultTileIconAction first))
  | [] => setConfig stub st = (st, Some "Specify an entity")
  end.
Proof.
  cbn zeta. unfold getStubConfig.
  destruct (findEntities h 1 entities entitiesFallback _) as [|first rest].
  - unfold setConfig, str_field.
    rewrite lookup_insert_ne, lookup_singleton_eq by done. done.
  - intros Hne. apply String.eqb_neq in Hne. rewrite Hne.
    unfold setConfig, str_field.
    rewrite lookup_insert_ne, lookup_singleton_eq, Hne by done.
    eexists. split; [reflexivity|].
    split; [by apply lookup_union_Some_l, lookup_insert_eq|].
    split.
    { apply lookup_union_Some_l.
      by rewrite lookup_insert_ne, lookup_singleton_eq. }
    unfold defaults. split.
    + rewrite lookup_union_r
        by by rewrite lookup_insert_ne, lookup_singleton_ne.
      by rewrite lookup_insert_eq.
    + rewrite lookup_union_r
        by by rewrite lookup_insert_ne, lookup_singleton_ne.
      by rewrite lookup_insert_ne, lookup_singleton_eq.
Qed.

(** X17: the colour of a light that reports one and has no colour
    override keeps the hue, and is handed on with a saturation below
    0.4 only when the reported saturation is below 0.1, in which case
    the value is set to 225; a saturation from 0.1 up leaves the value
    as reported. *)
Theorem light_color_contrast (entity : HassEntity) (color : option string) rgb :
  truthy_str color = false ->
  computeDomain (entity_id entity) = "light" ->
  rgb_color (attributes entity) = Some rgb ->
  exists hsv,
    _computeStateColor entity color = Some (rgb2hex (hsv2rgb hsv))
    /\ fst (fst hsv) = fst (fst (rgb2hsv rgb))
    /\ (PrimFloat.ltb (snd (fst hsv)) 0.4%float = true ->
        PrimFloat.ltb (snd (fst (rgb2hsv rgb))) 0.1%float = true
        /\ snd (fst hsv) = snd (fst (rgb2hsv rgb))
        /\ snd hsv = 225%float)
    /\ (PrimFloat.ltb (snd (fst (rgb2hsv rgb))) 0.1%float = false ->
        snd hsv = snd (rgb2hsv rgb)).
Proof.
  intros Hc Hd Hrgb. unfold _computeStateColor. rewrite Hc, Hd, Hrgb.
  change ("light" =? "person")%string with false.
  change ("light" =? "device_tracker")%string with false.
  change ("light" =? "light")%string with true. cbn [orb].
  destruct (rgb2hsv rgb) as [[hue sat] val]. cbn [fst snd].
  destruct (PrimFloat.ltb sat 0.4%float) eqn:E4;
    [destruct (PrimFloat.ltb sat 0.1%float) eqn:E1|];
    eexists; (split; [reflexivity|]); cbn [fst snd].
  - done.
  - split; [done|]. split; [|done].
    intros Hlt. vm_compute in Hlt. discriminate.
  - rewrite E4. split; [done|]. by split.
Qed.

(** X18: a person or device tracker gets a colour only from an
    override, and only while active; its state colour is never used. *)
Theorem computeStateColor_badge_domains (entity : HassEntity) (color : option string) :
  computeDomain (entity_id entity) = "person"
  \/ computeDomain (entity_id entity) = "device_tracker" ->
  _computeStateColor entity color =
  if truthy_str color && stateActive entity
  then option_map computeCssColor color else None.
Proof.
  intros Hd. unfold _computeStateColor.
  destruct (truthy_str color); [by destruct (stateActive entity)|].
  by destruct Hd as [-> | ->].
Qed.

(** X19: the card has an image address exactly when the entity has a
    non-empty local picture or picture; the local picture is
    preferred, the address is resolved through [hassUrl], and for a
    camera it is the 80 by 80 variant. *)
Theorem getImageUrl_cases (h : HomeAssistant) (entity : HassEntity) :
  let local := entity_picture_local (attributes entity) in
  let remote := entity_picture (attributes entity) in
  let sized url :=
    if String.eqb (computeDomain (entity_id entity)) "camera"
    then cameraUrlWithWidthHeight url 80 80 else url in
  (_getImageUrl h entity = None <->
   truthy_str local = false /\ truthy_str remote = false)
  /\ (forall picture, local = Some picture -> picture <> "" ->
      _getImageUrl h entity = Some (sized (hassUrl h picture)))
  /\ (forall picture, truthy_str local = false -> remote = Some picture ->
      picture <> "" ->
      _getImageUrl h entity = Some (sized (hassUrl h picture))).
Proof.
  cbn zeta. unfold _getImageUrl, truthy_str.
  destruct (entity_picture_local (attributes entity)) as [l|];
    [destruct (String.eqb l "") eqn:El|];
    (destruct (entity_picture (attributes entity)) as [r|];
     [destruct (String.eqb r "") eqn:Er|]);
    cbn [negb]; rewrite ?El, ?Er;
    destruct (String.eqb (computeDomain (entity_id entity)) "camera");
    repeat split; intros; destruct_and?; simplify_eq/=; try done;
    try (apply String.eqb_eq in El; by subst);
    try (apply String.eqb_eq in Er; by subst).
Qed.

(** X20: [render] produces nothing exactly when the card has no
    configuration or no state. *)
Theorem render_nothing_iff (st : State) :
  render st = Template Nothing <-> _config st = None \/ hass st = None.
Proof.
  unfold render. destruct (_config st) as [config|]; [|by split; [left|]].
  destruct (hass st) as [h|]; [|by split; [right|]].
  split; [|by intros [|]].
  destruct (match str_field config "entity" with
            | Some id => if String.eqb id "" then None else states_read h id
            | None => None
            end) as [[stateObj|member]|]; [done| |done].
  destruct (truthy (field config "name")); [|done].
  by destruct (renderInheritedMember member config h) as [[attrs content]|message].
Qed.

Lemma render_found st config (h : HomeAssistant) (entityId : string)
  (stateObj : HassEntity) :
  _config st = Some config ->
  hass st = Some h ->
  has_entity_id config entityId ->
  states h !! entityId = Some stateObj ->
  exists icon info features,
    render st =
    Template (Element "ha-card"
      [Attribute "style"
         (styleMap [("--tile-color",
                     _computeStateColor stateObj (str_field config "color"))]);
       Attribute "class" (classMap [("active", stateActive stateObj)])]
      [Element "div"
         ([Attribute "class" "background";
           EventListener "action" HandleAction;
           Property "actionHandler"
             (PActionHandler (Some (hasAction (field config "hold_action")))
                (Some (hasAction (field config "double_tap_action"))))]
          ++ ifDefined "role" (if hasCardAction st then Some "button" else None)
          ++ ifDefined "tabindex" (if hasCardAction st then Some "0" else None)
          ++ [Attribute "aria-labelledby" "info"])
         [Element "ha-ripple"
            [Property "disabled" (PBool (negb (hasCardAction st)))] []];
       Element "div" [Attribute "class" "container"]
         [Element "div"
            [Attribute "class"
               ("content " ++ classMap [("vertical", truthy (field config "vertical"))])]
            [Element "div"
               ([Attribute "class" "icon-container"]
                ++ ifDefined "role" (if hasIconAction st then Some "button" else None)
                ++ ifDefined "tabindex" (if hasIconAction st then Some "0" else None)
                ++ [EventListener "action" HandleIconAction;
                    Property "actionHandler" (PActionHandler None None)])
               [icon; renderTileBadge stateObj h];
             info];
          features]])
    /\ tag_of icon =
       Some (if truthy (field config "show_entity_picture")
                && truthy_str (_getImageUrl h stateObj)
             then "ha-tile-image" else "ha-tile-icon")
    /\ tag_of features =
       if truthy (field config "features") then Some "hui-card-features" else None.
Proof.
  intros Hc Hh [He Hne] Hs. unfold render. rewrite Hc, Hh. cbn zeta.
  apply TileProps.str_field_Some in He. rewrite He.
  apply String.eqb_neq in Hne. rewrite Hne. unfold states_read. rewrite Hs.
  do 3 eexists. split; [reflexivity|]. split.
  - destruct (truthy (field config "show_entity_picture")); [|done].
    by destruct (truthy_str (_getImageUrl h stateObj)).
  - by destruct (truthy (field config "features")).
Qed.

(** X21: for an entity that is found, the background of the tile is
    marked as a button exactly when the card has an action, and the
    icon container exactly when the icon has one. *)
Theorem render_roles st config (h : HomeAssistant) (entityId : string)
  (stateObj : HassEntity) :
  _config st = Some config ->
  hass st = Some h ->
  has_entity_id config entityId ->
  states h !! entityId = Some stateObj ->
  exists template,
    render st = Template template
    /\ option_map role_of (find_class "background" template) =
       Some (if hasCardAction st then Some "button" else None)
    /\ option_map role_of (find_class "icon-container" template) =
       Some (if hasIconAction st then Some "button" else None).
Proof.
  intros Hc Hh He Hs.
  destruct (render_found st config h entityId stateObj Hc Hh He Hs)
    as (icon & info & features & -> & _).
  eexists. split; [reflexivity|]. unfold find_class.
  destruct (hasCardAction st), (hasIconAction st), (stateActive stateObj),
    (truthy (field config "vertical")); split; reflexivity.
Qed.

(** X22: for an entity that is found, the icon container shows the
    entity's picture when [show_entity_picture] is set and the entity
    has one, and its icon otherwise; the container ends with the
    features element exactly when [features] is set in the
    configuration. *)
Theorem render_picture_and_features st config (h : HomeAssistant)
  (entityId : string) (stateObj : HassEntity) :
  _config st = Some config ->
  hass st = Some h ->
  has_entity_id config entityId ->
  states h !! entityId = Some stateObj ->
  exists template,
    render st = Template template
    /\ (exists iconContainer,
          find_class "icon-container" template = Some iconContainer
          /\ tag_of (hd Nothing (content_of iconContainer)) =
             Some (if truthy (field config "show_entity_picture")
                      && truthy_str (_getImageUrl h stateObj)
                   then "ha-tile-image" else "ha-tile-icon"))
    /\ (exists container,
          find_class "container" template = Some container
          /\ tag_of (nth 1 (content_of container) Nothing) =
             if truthy (field config "features")
             then Some "hui-card-features" else None).
Proof.
  intros Hc Hh He Hs.
  destruct (render_found st config h entityId stateObj Hc Hh He Hs)
    as (icon & info & features & -> & Hi & Hf).
  eexists. split; [reflexivity|]. unfold find_class.
  destruct (hasCardAction st), (hasIconAction st), (stateActive stateObj),
    (truthy (field config "vertical"));
    (split; eexists; (split; [reflexivity|])); first [exact Hi | exact Hf].
Qed.

(** X23: after [setConfig], acting on the icon dispatches a tap
    against the entity whose tap action is the icon action: the
    configured one, or else the default for the entity's domain.  The
    event does not propagate.  Acting on the card hands over the
    stored configuration and the gesture as they are. *)
Theorem handleIconAction_dispatches config st st' (entityId action : string) :
  setConfig config st = (st', None) ->
  str_field config "entity" = Some entityId ->
  _handleIconAction st' =
    inl {| call_hass := hass st;
           call_config :=
             Some {[ "entity" := JStr entityId;
                     "tap_action" :=
                       default (actionConfig (getEntityDefaultTileIconAction entityId))
                         (config !! "icon_tap_action") ]};
           call_action := "tap";
           call_stops := true |}
  /\ _handleAction st' action =
     {| call_hass := hass st;
        call_config := Some (config ∪ defaults entityId);
        call_action := action;
        call_stops := false |}.
Proof.
  unfold setConfig. intros Hs He. rewrite He in Hs.
  destruct (String.eqb entityId ""); [done|]. injection Hs as <-.
  split; [|done].
  unfold _handleIconAction, field. cbn [_config hass].
  rewrite TileProps.stored_other_key by done.
  apply TileProps.str_field_Some in He. rewrite He. cbn [default].
  do 3 f_equal.
  destruct (config !! "icon_tap_action") as [v|] eqn:Ei.
  - by rewrite (lookup_union_Some_l _ _ _ _ Ei).
  - rewrite lookup_union_r by done. unfold defaults.
    by rewrite lookup_insert_ne, lookup_singleton_eq.
Qed.

(** X26: with no [tap_action] in the configuration given to
    [setConfig], whether the card has an action is decided by the
    default [more-info] action and the hold and double-tap actions;
    with no [icon_tap_action], whether the icon has one is decided by
    the default icon action of the entity. *)
Theorem actions_after_setConfig config st st' (entityId : string) :
  setConfig config st = (st', None) ->
  str_field config "entity" = Some entityId ->
  (config !! "tap_action" = None ->
   hasCardAction st' =
     hasAction (actionConfig "more-info")
     || hasAction (field config "hold_action")
     || hasAction (field config "double_tap_action"))
  /\ (config !! "icon_tap_action" = None ->
      hasIconAction st' =
        hasAction (actionConfig (getEntityDefaultTileIconAction entityId))).
Proof.
  unfold setConfig. intros Hs He. rewrite He in Hs.
  destruct (String.eqb entityId ""); [done|]. injection Hs as <-.
  unfold hasCardAction, hasIconAction, field. cbn [_config].
  rewrite (TileProps.stored_other_key config entityId "hold_action"),
    (TileProps.stored_other_key config entityId "double_tap_action") by done.
  unfold defaults.
  split; intros Hn; rewrite !lookup_union_r by done.
  - by rewrite lookup_insert_eq.
  - by rewrite lookup_insert_ne, lookup_singleton_eq.
Qed.

End Props.

Lemma setConfig_stored_is_fixed_witness :
  setConfig (Samples.bedTile ∪ defaults "light.bed") Samples.emptyTile
  = ({| hass := None; _config := Some (Samples.bedTile ∪ defaults "light.bed") |},
     None).
Proof.
  exact (setConfig_stored_is_fixed Samples.bedTile Samples.emptyTile
           {| hass := None; _config := Some (Samples.bedTile ∪ defaults "light.bed") |}
           (Samples.bedTile ∪ defaults "light.bed") eq_refl eq_refl
           Samples.emptyTile).
Defined.

Lemma getStubConfig_accepted_witness :
  exists stored,
    setConfig (getStubConfig Samples.sampleFindEntities
                 (Samples.sampleHomeAssistant [Samples.redLightOn])
                 ["camera.door"; "light.bed"] [])
      Samples.emptyTile
    = ({| hass := None; _config := Some stored |}, None)
    /\ stored !! "entity" = Some (JStr "light.bed")
    /\ stored !! "icon_tap_action" = Some (actionConfig "toggle").
Proof.
  pose proof (getStubConfig_accepted Samples.sampleFindEntities
                (Samples.sampleHomeAssistant [Samples.redLightOn])
                ["camera.door"; "light.bed"] [] Samples.emptyTile) as Hw.
  cbv zeta in Hw.
  change (Samples.sampleFindEntities _ 1 _ _ _) with ["light.bed"] in Hw at 1.
  cbv iota in Hw.
  destruct Hw as (stored & Hs & _ & He & _ & Hi); [discriminate|].
  exists stored. split; [exact Hs|]. split; [exact He|].
  rewrite Hi. reflexivity.
Defined.

Lemma light_color_contrast_witness :
  exists hsv,
    _computeStateColor Samples.paleLight None = Some (rgb2hex (hsv2rgb hsv))
    /\ PrimFloat.ltb (snd (fst hsv)) 0.4%float = false.
Proof.
  destruct (@light_color_contrast Samples.sampleTile Samples.paleLight None
              (255%float, 204%float, 204%float) eq_refl eq_refl eq_refl)
    as (hsv & Hc & _ & Hs & _).
  exists hsv. split; [exact Hc|].
  destruct (PrimFloat.ltb (snd (fst hsv)) 0.4%float); [|reflexivity].
  destruct (Hs eq_refl) as [Hlow _]. vm_compute in Hlow. discriminate.
Defined.

Lemma computeStateColor_badge_domains_witness :
  _computeStateColor
    {| entity_id := "person.ann"; state := "home";
       attributes := attributes Samples.redLightOff |} None
  = None.
Proof.
  exact (@computeStateColor_badge_domains Samples.sampleTile
           {| entity_id := "person.ann"; state := "home";
              attributes := attributes Samples.redLightOff |} None
           (or_introl eq_refl)).
Defined.

Lemma getImageUrl_cases_witness :
  _getImageUrl (Samples.sampleHomeAssistant []) Samples.paleLight
  = Some "/local/desk.png".
Proof.
  refine (proj2 (proj2 (@getImageUrl_cases Samples.sampleTile
                          (Samples.sampleHomeAssistant [])
                          Samples.paleLight))
            "/local/desk.png" eq_refl eq_refl _).
  discriminate.
Defined.

Lemma render_nothing_iff_witness : render Samples.emptyTile = Template Nothing.
Proof.
  exact (proj2 (@render_nothing_iff Samples.sampleTile Samples.emptyTile)
           (or_introl eq_refl)).
Defined.

Lemma render_roles_witness :
  exists template,
    render Samples.bedCard = Template template
    /\ option_map role_of (find_class "background" template) = Some None
    /\ option_map role_of (find_class "icon-container" template)
       = Some (Some "button").
Proof.
  destruct (@render_roles Samples.sampleTile Samples.bedCard
              (Samples.bedTile ∪ defaults "light.bed")
              (Samples.sampleHomeAssistant [Samples.redLightOn]) "light.bed"
              Samples.redLightOn eq_refl eq_refl) as (template & Hr & Hb & Hi).
  - split; [reflexivity | discriminate].
  - reflexivity.
  - exists template. split; [exact Hr|].
    split; [rewrite Hb | rewrite Hi]; reflexivity.
Defined.

Lemma render_picture_and_features_witness :
  exists template iconContainer,
    render Samples.bedCard = Template template
    /\ find_class "icon-container" template = Some iconContainer
    /\ tag_of (hd Nothing (content_of iconContainer)) = Some "ha-tile-icon".
Proof.
  destruct (@render_picture_and_features Samples.sampleTile Samples.bedCard
              (Samples.bedTile ∪ defaults "light.bed")
              (Samples.sampleHomeAssistant [Samples.redLightOn]) "light.bed"
              Samples.redLightOn eq_refl eq_refl)
    as (template & Hr & (ic & Hf & Ht) & _).
  - split; [reflexivity | discriminate].
  - reflexivity.
  - exists template, ic. split; [exact Hr|]. split; [exact Hf|].
    rewrite Ht. reflexivity.
Defined.

Lemma handleIconAction_dispatches_witness :
  _handleIconAction (fst (setConfig Samples.bedTile Samples.emptyTile))
  = inl {| call_hass := None;
           call_config := Some {[ "entity" := JStr "light.bed";
                                  "tap_action" := actionConfig "toggle" ]};
           call_action := "tap";
           call_stops := true |}.
Proof.
  exact (proj1 (@handleIconAction_dispatches Samples.sampleTile
                  Samples.bedTile Samples.emptyTile
                  {| hass := None;
                     _config := Some (Samples.bedTile ∪ defaults "light.bed") |}
                  "light.bed" "tap" eq_refl eq_refl)).
Defined.

Lemma actions_after_setConfig_witness :
  hasIconAction
    {| hass := None; _config := Some (Samples.bedTile ∪ defaults "light.bed") |}
  = true.
Proof.
  rewrite (proj2 (@actions_after_setConfig Samples.sampleTile
                    Samples.bedTile Samples.emptyTile
                    {| hass := None;
                       _config := Some (Samples.bedTile ∪ defaults "light.bed") |}
                    "light.bed" eq_refl eq_refl) eq_refl).
  reflexivity.
Defined.

End TileMore.
